(** * VideoSummarizer: job pipeline and moment composition engine

    A shallow embedding of the JavaScript sources together with the
    properties of the specification that concern them:
    - src/processors/videoSummarizer.js (class VideoSummarizer),
    - src/processors/videoComposer.js (class VideoComposer and, after it,
      class MomentAnalyzer),
    - src/processors/videoSegmenter.js (class VideoSegmenter),
    - src/utils/fileManager.js (class FileManager),
    - src/ai/transcriptionService.js (class TranscriptionService and,
      after it, the express handlers of the server).

    Conventions of the embedding.
    - A JavaScript number that measures time (seconds) is a rational [Q];
      scores and counts (importance, maxMoments) are natural numbers.  The
      numeric examples of the specification are also evaluated in binary64
      arithmetic (module [Binary64]).
    - A property that may be [undefined] is an [option]; the JavaScript
      truthiness test [if (x)] is written out ([truthyQ], [truthyN]).
    - [Array.prototype.sort] is the stable sort of ECMAScript 2019.
    - A function that may throw returns an [Outcome]. *)

From Stdlib Require Import QArith Qround Qminmax Lqa Lia ZArith.
From Stdlib Require Import String Ascii List Sorted Permutation Bool Floats.
From stdpp Require Import base option list strings pretty gmap.

Local Open Scope Q_scope.
Local Open Scope list_scope.

(** ** JavaScript primitives *)

Module Js.

(** [if (x)] on a number: zero is falsy. *)
Definition truthyQ (x : Q) : bool := negb (Qeq_bool x 0).
Definition truthyN (n : nat) : bool := negb (Nat.eqb n 0).
(** [if (s)] on a string: the empty string is falsy. *)
Definition truthyS (s : string) : bool :=
  match s with EmptyString => false | _ => true end.

(** [x || d] on an optional number. *)
Definition orQ (x : option Q) (d : Q) : Q :=
  match x with
  | Some v => if truthyQ v then v else d
  | None => d
  end.

(** [s || d] on an optional string. *)
Definition orS (s : option string) (d : string) : string :=
  match s with
  | Some v => if truthyS v then v else d
  | None => d
  end.

Definition Qltb (x y : Q) : bool := negb (Qle_bool y x).

(** [Math.floor] and [Math.round] (round half up). *)
Definition floor (x : Q) : Z := Qfloor x.
Definition round (x : Q) : Z := Qfloor (x + (1 # 2)).

Section Sort.
Context {A : Type}.
(** The comparator of [arr.sort(cmp)]: negative, zero or positive. *)
Variable cmp : A -> A -> Q.

(** [x] is the element that stood before every element of [l] in the
    array, so it stays in front of the elements it does not exceed. *)
Fixpoint insert_sorted (x : A) (l : list A) : list A :=
  match l with
  | [] => [x]
  | y :: l' =>
      if Qle_bool (cmp x y) 0 then x :: y :: l'
      else y :: insert_sorted x l'
  end.

Definition sort (l : list A) : list A :=
  List.fold_right insert_sorted [] l.
End Sort.

(** [arr.slice(0, n)] for a natural number [n]. *)
Definition slice0 {A : Type} (n : nat) (l : list A) : list A := firstn n l.

(** [arr.includes(x)] on strings. *)
Definition includes (l : list string) (x : string) : bool :=
  existsb (String.eqb x) l.

(** [arr.find(p)]: the first element, in array order, that satisfies [p]. *)
Definition find {A : Type} (p : A -> bool) (l : list A) : option A :=
  List.find p l.

(** The result of a call that may throw. *)
Inductive Outcome (E A : Type) : Type :=
| Ok (value : A)
| Throw (error : E).
Arguments Ok {E A}.
Arguments Throw {E A}.

End Js.

(** ** Moments and filter options *)

(** A moment object.  [T] is the type of its two time properties: [Q] for
    a moment whose times are numbers, [option Q] where the code still has to
    test whether they are there. *)
Record MomentOf (T : Type) := mkMoment {
  title : string;
  description : string;
  startTime : T;
  endTime : T;
  importance : nat;
  category : string;
  reason : string;
  workflowContext : string
}.
Arguments mkMoment {T}.
Arguments title {T}.
Arguments description {T}.
Arguments startTime {T}.
Arguments endTime {T}.
Arguments importance {T}.
Arguments category {T}.
Arguments reason {T}.
Arguments workflowContext {T}.

Abbreviation Moment := (MomentOf Q).

Record FilterOptions := mkFilterOptions {
  minImportance : option nat;
  includeCategories : option (list string);
  maxMomentDuration : option Q;
  maxMoments : option nat;
  sortMomentsBy : option string
}.


(** ** String helpers of the analyzer *)

Module Str.

(** [s.toLowerCase()] on the ASCII letters. *)
Definition lowerAscii (c : ascii) : ascii :=
  let n := nat_of_ascii c in
  if Nat.leb 65 n && Nat.leb n 90 then ascii_of_nat (n + 32) else c.

Fixpoint toLowerCase (s : string) : string :=
  match s with
  | EmptyString => EmptyString
  | String c s' => String (lowerAscii c) (toLowerCase s')
  end.

(** [hay.includes(needle)] *)
Fixpoint includes (hay needle : string) : bool :=
  String.prefix needle hay ||
  match hay with
  | EmptyString => false
  | String _ hay' => includes hay' needle
  end.

(** [parts.join(sep)] *)
Fixpoint join (sep : string) (parts : list string) : string :=
  match parts with
  | [] => EmptyString
  | [p] => p
  | p :: ps => p ++ sep ++ join sep ps
  end.

End Str.

(** ** src/processors/videoComposer.js: class MomentAnalyzer *)

Module MomentAnalyzer.

(** One [{start, end, text}] record of the transcript. *)
Record TranscriptSegment := mkTranscriptSegment {
  seg_start : Q;
  seg_end : Q;
  seg_text : string
}.

(** The transcription object as the analyzer reads it; every property it
    reads is guarded by [||] in the source and may be undefined. *)
Record Transcription := mkTranscription {
  t_text : option string;
  t_segments : option (list TranscriptSegment);
  t_duration : option Q;
  t_totalDuration : option Q
}.

(** The [analysis] object: what [JSON.parse] yields and what the analyzer
    returns after it has set the derived properties. *)
Record Analysis := mkAnalysis {
  keyMoments : option (list Moment);
  summary : option string;
  totalOriginalDuration : option Q;
  recommendedApproach : option string;
  contentType : option string;
  workflowPhases : option string;
  recommendedSummaryDuration : option Z;
  compressionRatio : option Z;
  momentCount : option nat
}.

Record AnalysisResult := mkAnalysisResult {
  success : bool;
  analysis : Analysis;
  provider : string;
  error : option string
}.

Definition topicIndicators : list string :=
  [ "look at"; "we can see"; "going to look"; "can also look";
    "check"; "checking"; "review"; "reviewing";
    "move to"; "moving to"; "switch to"; "go to";
    "here we have"; "this shows"; "you can see";
    "another"; "also"; "next"; "now" ]%string.

Definition generateMomentTitle (segments : list TranscriptSegment)
  (startTime endTime : Z) : string :=
  let relevantSegments :=
    List.filter (fun s => Qle_bool (inject_Z startTime) (seg_start s)
                          && Qle_bool (seg_end s) (inject_Z endTime))
                segments in
  if Nat.eqb (List.length relevantSegments) 0 then "Workflow Segment"%string
  else
    let text :=
      Str.toLowerCase (Str.join " " (List.map seg_text relevantSegments)) in
    if Str.includes text "fantasy" && Str.includes text "football"
    then "Fantasy Football Review"%string
    else if Str.includes text "email" then "Email Check"%string
    else if Str.includes text "trade" then "Trade Decision"%string
    else if Str.includes text "bench" then "Bench Analysis"%string
    else if Str.includes text "team" then "Team Performance"%string
    else if Str.includes text "class" || Str.includes text "plan"
    then "Class Planning"%string
    else if Str.includes text "game" then "Game Results"%string
    else if Str.includes text "points" then "Score Review"%string
    else "Workflow Activity"%string.

(** The variables the [segments.forEach] loop of [createLiberalFallback]
    updates. *)
Record Scan := mkScan {
  moments : list Moment;
  currentMomentStart : Q;
  lastMomentEnd : Q
}.

Definition scanSegment (segments : list TranscriptSegment) (duration : Q)
  (st : Scan) (segment : TranscriptSegment) : Scan :=
  let text := Str.toLowerCase (seg_text segment) in
  let hasTopicIndicator :=
    existsb (fun indicator => Str.includes text indicator) topicIndicators in
  if hasTopicIndicator || Js.Qltb 15 (seg_start segment - lastMomentEnd st)
  then
    if Js.Qltb (lastMomentEnd st) (seg_start segment - 5)
    then
      let title :=
        generateMomentTitle segments (Js.floor (currentMomentStart st))
                            (Js.floor (seg_start segment)) in
      {| moments := moments st ++ [
           {| title := title;
              description := "Workflow segment: " ++ Str.toLowerCase title;
              startTime := Qmax 0 (currentMomentStart st);
              endTime := Qmin duration (seg_start segment);
              importance := 6;
              category := "workflow_phase";
              reason := "Natural workflow transition point identified";
              workflowContext := "Part of continuous user workflow" |} ];
         currentMomentStart := seg_start segment;
         lastMomentEnd := seg_start segment |}
    else st
  else st.

(** The [for (let i = 0; i < 3; i++)] loop of the equal three-way split. *)
Definition equalSplit (segments : list TranscriptSegment) (duration : Q)
  : list Moment :=
  let segmentLength := duration / 3 in
  List.map (fun i : nat =>
    let start := inject_Z (Z.of_nat i) * segmentLength in
    let end_ := Qmin (inject_Z (Z.of_nat (i + 1)) * segmentLength) duration in
    let title :=
      generateMomentTitle segments (Js.floor start) (Js.floor end_) in
    {| title := title;
       description :=
         "Workflow phase " ++ pretty (i + 1)%nat ++ ": " ++ Str.toLowerCase title;
       startTime := start;
       endTime := end_;
       importance := 5 + i;
       category := "workflow_phase";
       reason := "Temporal workflow division";
       workflowContext := "Phase " ++ pretty (i + 1)%nat ++ " of user workflow" |})
    [0; 1; 2]%nat.

(** The key-moment list [createLiberalFallback] builds. *)
Definition fallbackMoments (transcription : Transcription) : list Moment :=
  let segments := default [] (t_segments transcription) in
  let duration := Js.orQ (t_duration transcription) 0 in
  let st :=
    List.fold_left (scanSegment segments duration) segments
      {| moments := []; currentMomentStart := 0; lastMomentEnd := 0 |} in
  let moments :=
    if Js.Qltb (currentMomentStart st) (duration - 10)
    then
      let title :=
        generateMomentTitle segments (Js.floor (currentMomentStart st))
                            (Js.floor duration) in
      moments st ++ [
        {| title := title;
           description := "Final workflow segment: " ++ Str.toLowerCase title;
           startTime := currentMomentStart st;
           endTime := duration;
           importance := 6;
           category := "workflow_phase";
           reason := "Final workflow segment";
           workflowContext := "Conclusion of user workflow" |} ]
    else moments st in
  if Nat.ltb (List.length moments) 3 && Js.Qltb 60 duration
  then equalSplit segments duration
  else moments.

Definition createLiberalFallback (transcription : Transcription)
  (aiAnalysis : option Analysis) : AnalysisResult :=
  let duration := Js.orQ (t_duration transcription) 0 in
  let moments := fallbackMoments transcription in
  let count := pretty (List.length moments) in
  {| success := true;
     analysis :=
       {| keyMoments := Some moments;
          summary :=
            Some (Js.orS (aiAnalysis ≫= summary)
                    ("Liberal analysis of " ++ pretty (Js.round duration)
                     ++ "s workflow recording with " ++ count
                     ++ " phases identified")%string);
          totalOriginalDuration := Some duration;
          recommendedApproach :=
            Some
              "Preserve all workflow phases with liberal moment detection"%string;
          contentType := Some "screen_recording"%string;
          workflowPhases :=
            Some (count ++ " workflow phases identified through liberal analysis")%string;
          recommendedSummaryDuration := None;
          compressionRatio := None;
          momentCount := None |};
     provider := "liberal-fallback";
     error := None |}.

(** The timestamp repair of the [keyMoments.filter] callback:
    [if (t < 10 && t > 1) t = t * 60]. *)
Definition fixTimestamp (t : Q) : Q :=
  if Js.Qltb t 10 && Js.Qltb 1 t then t * 60 else t.

Definition fixMoment (moment : Moment) : Moment :=
  {| title := title moment;
     description := description moment;
     startTime := fixTimestamp (startTime moment);
     endTime := fixTimestamp (endTime moment);
     importance := importance moment;
     category := category moment;
     reason := reason moment;
     workflowContext := workflowContext moment |}.

(** [isValid] of the callback, evaluated on the repaired moment. *)
Definition isValid (videoDuration : Q) (moment : Moment) : bool :=
  Qle_bool 0 (startTime moment)
  && Qle_bool (endTime moment) videoDuration
  && Js.Qltb (startTime moment) (endTime moment).

(** The callback mutates each moment before it tests it, so the array that
    [filter] returns holds the repaired moments. *)
Definition validateMoments (videoDuration : Q) (keyMoments : list Moment)
  : list Moment :=
  List.filter (isValid videoDuration) (List.map fixMoment keyMoments).

(** [transcription.duration || transcription.totalDuration ||
     analysis.totalOriginalDuration || 300] *)
Definition videoDurationOf (transcription : Transcription)
  (analysis : Analysis) : Q :=
  Js.orQ (t_duration transcription)
    (Js.orQ (t_totalDuration transcription)
       (Js.orQ (totalOriginalDuration analysis) 300)).

Definition totalMomentDuration (ms : list Moment) : Q :=
  List.fold_left (fun sum moment => sum + (endTime moment - startTime moment))
                 ms 0.

Section Parse.

(** [responseText.match(/\{[\s\S]*\}/)] followed by [JSON.parse]: [None]
    when no brace-delimited text is found or when [JSON.parse] throws. *)
Variable jsonDecode : string -> option Analysis.

Definition parseGeminiResponse (responseText : string)
  (transcription : Transcription) : AnalysisResult :=
  match jsonDecode responseText with
  | None => createLiberalFallback transcription None
  | Some analysis =>
      match keyMoments analysis with
      | None => createLiberalFallback transcription (Some analysis)
      | Some [] => createLiberalFallback transcription (Some analysis)
      | Some raw =>
          let videoDuration := videoDurationOf transcription analysis in
          let kept := validateMoments videoDuration raw in
          let total := totalMomentDuration kept in
          {| success := true;
             analysis :=
               {| keyMoments := Some kept;
                  summary := summary analysis;
                  totalOriginalDuration := totalOriginalDuration analysis;
                  recommendedApproach := recommendedApproach analysis;
                  contentType := contentType analysis;
                  workflowPhases := workflowPhases analysis;
                  recommendedSummaryDuration := Some (Js.round total);
                  compressionRatio :=
                    Some (match t_duration transcription with
                          | Some d =>
                              if Js.truthyQ d
                              then Js.round (total / d * 100)
                              else 0%Z
                          | None => 0%Z
                          end);
                  momentCount := Some (List.length kept) |};
             provider := "gemini-1.5-pro";
             error := None |}
      end
  end.

(** [createFallbackAnalysis]: the result when the model call itself fails. *)
Definition createFallbackAnalysis (transcription : Transcription)
  : AnalysisResult :=
  {| success := false;
     analysis :=
       {| keyMoments := Some [];
          summary := Some "AI analysis failed, no moments could be identified"%string;
          totalOriginalDuration := Some (Js.orQ (t_duration transcription) 0);
          recommendedApproach := Some "Manual review recommended"%string;
          contentType := Some "unknown"%string;
          workflowPhases := None;
          recommendedSummaryDuration := None;
          compressionRatio := None;
          momentCount := None |};
     provider := "fallback";
     error := Some "AI analysis completely failed"%string |}.

(** [analyzeKeyMoments]: [generate] is the model call on the video and
    the prompt; [None] when it rejects. *)
Definition analyzeKeyMoments (generate : option string)
  (transcription : Transcription) : AnalysisResult :=
  match generate with
  | Some analysisText => parseGeminiResponse analysisText transcription
  | None => createFallbackAnalysis transcription
  end.

End Parse.

End MomentAnalyzer.

(** ** src/processors/videoComposer.js: class VideoComposer, the
       composition statistics *)

Module VideoComposer.

(** A segment as [VideoSegmenter.extractSingleMoment] resolves it. *)
Record Segment := mkSegment {
  index : nat;
  seg_title : string;
  seg_category : string;
  seg_importance : nat;
  originalStartTime : Q;
  originalEndTime : Q;
  duration : Q;
  filename : string;
  fileSize : nat
}.





(** [segments.reduce((sum, seg) => sum + seg.duration, 0)] *)
Definition totalDuration (segments : list Segment) : Q :=
  List.fold_left (fun sum seg => sum + duration seg) segments 0.


End VideoComposer.


(** ** The two numeric computations in binary64

    The timestamp repair of [parseGeminiResponse] and the unrounded ratio
    of [getCompositionStats], with the floating-point operations
    JavaScript performs. *)

Module Binary64.

Definition fixTimestamp (t : float) : float :=
  if ((t <? 10)%float && (1 <? t)%float)%bool then (t * 60)%float else t.

Definition compressionRatio (originalDuration finalDuration : float) : float :=
  ((originalDuration - finalDuration) / originalDuration * 100)%float.

End Binary64.

(** ** The working directories

    [temp/], [output/], [segments/<jobId>/] and [thumbnails/<jobId>/].  The
    application only ever writes regular files into them, so a directory
    is a finite map from file names to file attributes (or, for the per-job
    directories, the list of its file names). *)

Module Fs.

Record FileStat := mkFileStat {
  mtime : Z;        (* [stats.mtime.getTime()], milliseconds *)
  size : nat
}.

Inductive Path :=
| TempPath (name : string)        (* [path.join('temp', name)] *)
| OutputPath (name : string)      (* [path.join('output', name)] *)
| SegmentDir (jobId : string)     (* [path.join('segments', jobId)] *)
| ThumbDir (jobId : string).      (* [path.join('thumbnails', jobId)] *)

Record FileSystem := mkFileSystem {
  temp : gmap string FileStat;
  output : gmap string FileStat;
  segments : gmap string (list string);
  thumbnails : gmap string (list string)
}.

Definition isSome {A : Type} (o : option A) : bool :=
  match o with Some _ => true | None => false end.

Definition existsSync (fs : FileSystem) (p : Path) : bool :=
  match p with
  | TempPath name => isSome (temp fs !! name)
  | OutputPath name => isSome (output fs !! name)
  | SegmentDir jobId => isSome (segments fs !! jobId)
  | ThumbDir jobId => isSome (thumbnails fs !! jobId)
  end.

End Fs.

(** ** Cleanup results *)

(** The object a cleanup routine returns; a property the routine does not
    set is [None]. *)
Record CleanupResult := mkCleanupResult {
  cr_success : bool;
  deletedFiles : option nat;
  cr_message : option string;
  cr_error : option string
}.

(** ** src/processors/videoSegmenter.js: cleanupSegments *)

Module VideoSegmenter.

Definition cleanupSegments (jobId : string) (fs : Fs.FileSystem)
  : Fs.FileSystem * CleanupResult :=
  if negb (Fs.existsSync fs (Fs.SegmentDir jobId))
  then (fs, {| cr_success := true;
               deletedFiles := None;
               cr_message := Some "No segments to clean up"%string;
               cr_error := None |})
  else
    let files := default [] (Fs.segments fs !! jobId) in
    (* [for (const file of files) { fs.unlinkSync(...); deletedCount++ }] *)
    let deletedCount := List.fold_left (fun n _ => S n) files 0%nat in
    (* [fs.rmdirSync(jobOutputDir)] *)
    ({| Fs.temp := Fs.temp fs;
        Fs.output := Fs.output fs;
        Fs.segments := delete jobId (Fs.segments fs);
        Fs.thumbnails := Fs.thumbnails fs |},
     {| cr_success := true;
        deletedFiles := Some deletedCount;
        cr_message :=
          Some ("Cleaned up " ++ pretty deletedCount
                ++ " segment files for job " ++ jobId)%string;
        cr_error := None |}).

End VideoSegmenter.

(** ** src/utils/fileManager.js: temp-file cleanup *)

Record TempCleanup := mkTempCleanup {
  tc_success : bool;
  filesRemoved : nat;
  spaceFreed : nat               (* bytes, before [formatBytes] renders them *)
}.

Module FileManager.

(** [cleanupTempFiles(maxAgeHours = 24)].  The method has this one
    parameter; [now] is the value [Date.now()] returns inside it. *)
Definition cleanupTempFiles (maxAgeHours : option Z) (now : Z)
  (fs : Fs.FileSystem) : Fs.FileSystem * TempCleanup :=
  let maxAgeHours := default 24%Z maxAgeHours in
  let cutoffTime := (now - maxAgeHours * 60 * 60 * 1000)%Z in
  let old (entry : string * Fs.FileStat) : bool :=
    Z.ltb (Fs.mtime (snd entry)) cutoffTime in
  let tempFiles := map_to_list (Fs.temp fs) in
  let cleaned := List.filter old tempFiles in
  ({| Fs.temp :=
        List.fold_left (fun m entry => delete (fst entry) m) cleaned (Fs.temp fs);
      Fs.output := Fs.output fs;
      Fs.segments := Fs.segments fs;
      Fs.thumbnails := Fs.thumbnails fs |},
   {| tc_success := true;
      filesRemoved := List.length cleaned;
      spaceFreed :=
        List.fold_left (fun total entry => (total + Fs.size (snd entry))%nat)
                       cleaned 0%nat |}).

End FileManager.

(** ** Errors

    The [Error] objects the code throws.  A constructor stands for the
    message text the source builds; [SummarizationFailed] is the wrapper
    [new Error(`Summarization failed: ${error.message}`)]. *)

Inductive Error :=
| VideoFileNotFound (videoPath : option Fs.Path)
| NoMomentsProvided
| InvalidMomentTiming (moment : MomentOf (option Q))
| TypeError (what : string)
| CollaboratorError (message : string)
| SummarizationFailed (cause : Error).

Record CompositionOptions := mkCompositionOptions {
  enableTransitions : option bool;
  enableIntro : option bool;
  qualityPreset : option string;
  crf : option nat
}.

(** The [options] object of a summarization request. *)
Record SummaryOptions := mkSummaryOptions {
  filtering : FilterOptions;
  composition : option CompositionOptions;
  createThumbnails : bool;
  createPreview : bool
}.

(** The part of the summary object that the callers read. *)
Record SummaryResult := mkSummaryResult {
  sum_jobId : string;
  finalVideoFilename : string;
  usedMoments : nat;
  sum_compressionRatio : Q
}.

Record JobCleanup := mkJobCleanup {
  jc_success : bool;
  jc_jobId : string;
  res_segments : CleanupResult;
  res_thumbnails : CleanupResult;
  res_output : CleanupResult
}.

(** ** src/processors/videoSummarizer.js *)

Module VideoSummarizer.

Definition duration (m : Moment) : Q := endTime m - startTime m.

(** [(a, b) => b.importance - a.importance] *)
Definition byImportance (a b : Moment) : Q :=
  inject_Z (Z.of_nat (importance b) - Z.of_nat (importance a)).
(** [(a, b) => (b.endTime - b.startTime) - (a.endTime - a.startTime)] *)
Definition byDuration (a b : Moment) : Q := duration b - duration a.
(** [(a, b) => a.startTime - b.startTime] *)
Definition byStartTime (a b : Moment) : Q := startTime a - startTime b.

(** [if (options.minImportance) filtered = filtered.filter(...)] *)
Definition filterByImportance (options : FilterOptions)
  (filtered : list Moment) : list Moment :=
  match minImportance options with
  | Some n =>
      if Js.truthyN n
      then List.filter (fun m => Nat.leb n (importance m)) filtered
      else filtered
  | None => filtered
  end.

(** [if (options.includeCategories && options.includeCategories.length > 0)] *)
Definition filterByCategory (options : FilterOptions)
  (filtered : list Moment) : list Moment :=
  match includeCategories options with
  | Some cs =>
      if Nat.ltb 0 (List.length cs)
      then List.filter (fun m => Js.includes cs (category m)) filtered
      else filtered
  | None => filtered
  end.

(** [if (options.maxMomentDuration) ...] *)
Definition filterByDuration (options : FilterOptions)
  (filtered : list Moment) : list Moment :=
  match maxMomentDuration options with
  | Some d =>
      if Js.truthyQ d
      then List.filter (fun m => Qle_bool (duration m) d) filtered
      else filtered
  | None => filtered
  end.

(** The guard [options.maxMoments && filtered.length > options.maxMoments]. *)
Definition limitMoments (options : FilterOptions) (filtered : list Moment)
  : list Moment :=
  match maxMoments options with
  | Some n =>
      if Js.truthyN n && Nat.ltb n (List.length filtered)
      then Js.slice0 n (Js.sort byImportance filtered)
      else filtered
  | None => filtered
  end.

(** [switch (options.sortMomentsBy || 'chronological')] *)
Definition finalOrder (options : FilterOptions) : Moment -> Moment -> Q :=
  match sortMomentsBy options with
  | Some s =>
      if String.eqb s "importance" then byImportance
      else if String.eqb s "duration" then byDuration
      else byStartTime
  | None => byStartTime
  end.

Definition filterMoments (moments : list Moment) (options : FilterOptions)
  : list Moment :=
  let filtered := moments in
  let filtered := filterByImportance options filtered in
  let filtered := filterByCategory options filtered in
  let filtered := filterByDuration options filtered in
  let filtered := limitMoments options filtered in
  Js.sort (finalOrder options) filtered.


(** *** Input validation *)

(** [!moment.startTime]: true for a missing property and for zero. *)
Definition falsyTime (t : option Q) : bool :=
  match t with
  | Some q => negb (Js.truthyQ q)
  | None => true
  end.

(** [!moment.startTime || !moment.endTime ||
     moment.startTime >= moment.endTime] *)
Definition invalidTiming (moment : MomentOf (option Q)) : bool :=
  falsyTime (startTime moment) || falsyTime (endTime moment) ||
  match startTime moment, endTime moment with
  | Some s, Some e => Qle_bool e s
  | _, _ => false
  end.

(** [for (const moment of moments) { if (...) throw ... }] *)
Fixpoint checkMoments (moments : list (MomentOf (option Q)))
  : Js.Outcome Error unit :=
  match moments with
  | [] => Js.Ok tt
  | moment :: rest =>
      if invalidTiming moment then Js.Throw (InvalidMomentTiming moment)
      else checkMoments rest
  end.

Definition validateInputs (fs : Fs.FileSystem) (videoPath : option Fs.Path)
  (moments : list (MomentOf (option Q))) : Js.Outcome Error unit :=
  if negb (match videoPath with
           | Some p => Fs.existsSync fs p
           | None => false
           end)
  then Js.Throw (VideoFileNotFound videoPath)
  else if Nat.eqb (List.length moments) 0 then Js.Throw NoMomentsProvided
  else checkMoments moments.

(** A moment both of whose times are numbers. *)
Definition timed (moment : MomentOf (option Q)) : option Moment :=
  match startTime moment, endTime moment with
  | Some s, Some e =>
      Some {| title := title moment;
              description := description moment;
              startTime := s;
              endTime := e;
              importance := importance moment;
              category := category moment;
              reason := reason moment;
              workflowContext := workflowContext moment |}
  | _, _ => None
  end.

(** The same moment, seen where its times may be missing. *)
Definition untimed (moment : Moment) : MomentOf (option Q) :=
  {| title := title moment;
     description := description moment;
     startTime := Some (startTime moment);
     endTime := Some (endTime moment);
     importance := importance moment;
     category := category moment;
     reason := reason moment;
     workflowContext := workflowContext moment |}.

Section Summarize.

(** Steps 1 to 4 of [createVideoSummary] after the filter: segment
    extraction, thumbnails, composition and the final summary, run by
    the media tool on the file system. *)
Variable produceSummary :
  Fs.FileSystem -> option Fs.Path -> list Moment -> SummaryOptions -> string ->
  Fs.FileSystem * Js.Outcome Error SummaryResult.

Definition createVideoSummary (videoPath : option Fs.Path)
  (moments : list (MomentOf (option Q))) (options : SummaryOptions)
  (jobId : string) (fs : Fs.FileSystem)
  : Fs.FileSystem * Js.Outcome Error SummaryResult :=
  match validateInputs fs videoPath moments with
  | Js.Throw e => (fs, Js.Throw (SummarizationFailed e))
  | Js.Ok _ =>
      (* after validation every moment has both of its times *)
      let filteredMoments :=
        filterMoments (omap timed moments) (filtering options) in
      match produceSummary fs videoPath filteredMoments options jobId with
      | (fs', Js.Ok summary) => (fs', Js.Ok summary)
      | (fs', Js.Throw e) => (fs', Js.Throw (SummarizationFailed e))
      end
  end.

Definition quickOptions : SummaryOptions :=
  {| filtering :=
       {| minImportance := Some 6%nat;
          includeCategories := None;
          maxMomentDuration := None;
          maxMoments := Some 5%nat;
          sortMomentsBy := Some "importance"%string |};
     composition :=
       Some {| enableTransitions := Some false;
               enableIntro := Some false;
               qualityPreset := Some "fast"%string;
               crf := Some 25%nat |};
     createThumbnails := false;
     createPreview := false |}.

Definition createQuickSummary (videoPath : option Fs.Path)
  (moments : list (MomentOf (option Q))) (jobId : string)
  (fs : Fs.FileSystem) : Fs.FileSystem * Js.Outcome Error SummaryResult :=
  createVideoSummary videoPath moments quickOptions jobId fs.

End Summarize.

(** *** Cleanup *)

Definition cleanupThumbnails (jobId : string) (fs : Fs.FileSystem)
  : Fs.FileSystem * CleanupResult :=
  if Fs.existsSync fs (Fs.ThumbDir jobId)
  then
    let files := default [] (Fs.thumbnails fs !! jobId) in
    ({| Fs.temp := Fs.temp fs;
        Fs.output := Fs.output fs;
        Fs.segments := Fs.segments fs;
        Fs.thumbnails := delete jobId (Fs.thumbnails fs) |},
     {| cr_success := true;
        deletedFiles := Some (List.length files);
        cr_message := None;
        cr_error := None |})
  else (fs, {| cr_success := true;
               deletedFiles := Some 0%nat;
               cr_message := None;
               cr_error := None |}).

(** One round of the [outputFiles.forEach] loop of [cleanupOutput]. *)
Definition unlinkOutput (st : Fs.FileSystem * nat) (filename : string)
  : Fs.FileSystem * nat :=
  let (fs, deletedCount) := st in
  if Fs.existsSync fs (Fs.OutputPath filename)
  then ({| Fs.temp := Fs.temp fs;
           Fs.output := delete filename (Fs.output fs);
           Fs.segments := Fs.segments fs;
           Fs.thumbnails := Fs.thumbnails fs |}, S deletedCount)
  else (fs, deletedCount).

Definition cleanupOutput (jobId : string) (fs : Fs.FileSystem)
  : Fs.FileSystem * CleanupResult :=
  let outputFiles :=
    [ ("summary_" ++ jobId ++ ".mp4")%string;
      ("summary_" ++ jobId ++ "_preview.mp4")%string ] in
  let (fs', deletedCount) :=
    List.fold_left unlinkOutput outputFiles (fs, 0%nat) in
  (fs', {| cr_success := true;
           deletedFiles := Some deletedCount;
           cr_message := None;
           cr_error := None |}).

Definition cleanupJob (jobId : string) (fs : Fs.FileSystem)
  : Fs.FileSystem * JobCleanup :=
  let (fs1, segments) := VideoSegmenter.cleanupSegments jobId fs in
  let (fs2, thumbnails) := cleanupThumbnails jobId fs1 in
  let (fs3, output) := cleanupOutput jobId fs2 in
  (fs3, {| jc_success := true;
           jc_jobId := jobId;
           res_segments := segments;
           res_thumbnails := thumbnails;
           res_output := output |}).

End VideoSummarizer.

(** ** src/ai/transcriptionService.js: the transcription objects *)

Module TranscriptionService.

Record WhisperSegment := mkWhisperSegment {
  ws_start : Q;
  ws_end : Q;
  ws_text : string;
  avg_logprob : option Q
}.

(** What [transcribeAudio] resolves to. *)
Record WhisperResult := mkWhisperResult {
  text : string;
  language : string;
  duration : Q;
  segments : list WhisperSegment;
  confidence : Q
}.

Record ProcessedSegment := mkProcessedSegment {
  ps_start : Q;
  ps_end : Q;
  ps_text : string;
  ps_confidence : Q;
  ps_wordCount : nat
}.

(** What [processTranscriptionForAnalysis] returns and the
    [transcription_completed] event stores. *)
Record ProcessedTranscription := mkProcessedTranscription {
  fullText : string;
  timestampedSegments : list ProcessedSegment;
  totalDuration : Q;
  pt_language : string
}.

Definition isSpace (c : ascii) : bool :=
  let n := nat_of_ascii c in
  Nat.eqb n 32 || (Nat.leb 9 n && Nat.leb n 13).

Fixpoint trimStart (s : string) : string :=
  match s with
  | String c s' => if isSpace c then trimStart s' else s
  | EmptyString => EmptyString
  end.

Fixpoint trimEnd (s : string) : string :=
  match s with
  | String c s' =>
      match trimEnd s' with
      | EmptyString => if isSpace c then EmptyString else String c EmptyString
      | rest => String c rest
      end
  | EmptyString => EmptyString
  end.

(** [s.trim()] *)
Definition trim (s : string) : string := trimEnd (trimStart s).

(** [s.split(' ').length] *)
Fixpoint splitCount (s : string) : nat :=
  match s with
  | String c s' =>
      if Nat.eqb (nat_of_ascii c) 32 then S (splitCount s') else splitCount s'
  | EmptyString => 1
  end.

Definition processTranscriptionForAnalysis (transcription : WhisperResult)
  : ProcessedTranscription :=
  {| fullText := text transcription;
     timestampedSegments :=
       List.map (fun segment =>
                   {| ps_start := ws_start segment;
                      ps_end := ws_end segment;
                      ps_text := trim (ws_text segment);
                      ps_confidence := Js.orQ (avg_logprob segment) 0;
                      ps_wordCount := splitCount (ws_text segment) |})
                (segments transcription);
     totalDuration := duration transcription;
     pt_language := language transcription |}.

(** The processed object as [MomentAnalyzer] reads it: the analyzer asks
    for [text], [segments] and [duration], which this object does not
    have, and for [totalDuration], which it has. *)
Definition asAnalyzerInput (p : ProcessedTranscription)
  : MomentAnalyzer.Transcription :=
  {| MomentAnalyzer.t_text := None;
     MomentAnalyzer.t_segments := None;
     MomentAnalyzer.t_duration := None;
     MomentAnalyzer.t_totalDuration := Some (totalDuration p) |}.

End TranscriptionService.

(** ** The job log (src/utils/fileManager.js) *)

(** The [details] object of an event, by the shape the writer gave it.
    The validation reports that some events carry are left out. *)
Inductive Details :=
| AudioExtracted (audioFile : option string)
| ProcessingStarted (originalFile processingFile : string)
| TranscriptionStarted (audioPath : Fs.Path)
| TranscriptionCompleted
    (transcription : TranscriptionService.ProcessedTranscription)
| MomentAnalysisStarted (videoPath : Fs.Path)
| MomentAnalysisCompleted (analysis : MomentAnalyzer.AnalysisResult)
| SummarizationStarted (momentsCount : nat) (options : SummaryOptions)
| ResultDetails (result : SummaryResult)
| PipelineCompleted (summary : SummaryResult)
| Failed (error : Error)
| CleanupCompleted (phase4 : JobCleanup) (temp : TempCleanup)
| NoDetails.

Record StageEvent := mkStageEvent {
  timestamp : Z;
  jobId : string;
  activity : string;
  details : Details
}.

(** The state the handlers act on: the directories, the log file of the
    current day in append order, and the clock. *)
Record World := mkWorld {
  fs : Fs.FileSystem;
  logFile : list StageEvent;
  clock : Z
}.

Module JobLog.

(** [fs.appendFileSync(logFile, logLine)] *)
Definition logActivity (jobId activity : string) (details : Details)
  (w : World) : World :=
  {| fs := fs w;
     logFile := logFile w ++ [ {| timestamp := clock w;
                                  jobId := jobId;
                                  activity := activity;
                                  details := details |} ];
     clock := clock w |}.

(** The lines of the file, in order, whose [jobId] is the given one. *)
Definition getJobLogs (job : string) (w : World) : list StageEvent :=
  List.filter (fun log => String.eqb (jobId log) job) (logFile w).

Definition hasActivity (kind : string) (log : StageEvent) : bool :=
  String.eqb (activity log) kind.

(** Property reads on [details]; a missing property is [None]. *)
Definition audioFileOf (d : Details) : option string :=
  match d with AudioExtracted f => f | _ => None end.

Definition processingFileOf (d : Details) : option string :=
  match d with ProcessingStarted _ f => Some f | _ => None end.

Definition transcriptionOf (d : Details)
  : option TranscriptionService.ProcessedTranscription :=
  match d with TranscriptionCompleted t => Some t | _ => None end.

(** [details.analysis?.analysis?.keyMoments || []] *)
Definition keyMomentsOf (d : Details) : list Moment :=
  match d with
  | MomentAnalysisCompleted a =>
      default [] (MomentAnalyzer.keyMoments (MomentAnalyzer.analysis a))
  | _ => []
  end.

(** [details.result || details.summary] *)
Definition summaryDataOf (d : Details) : option SummaryResult :=
  match d with
  | ResultDetails r => Some r
  | PipelineCompleted s => Some s
  | _ => None
  end.

Definition withFs (w : World) (fs' : Fs.FileSystem) : World :=
  {| fs := fs'; logFile := logFile w; clock := clock w |}.

End JobLog.

(** ** src/ai/transcriptionService.js: the stage handlers of the server *)

Record TranscribeRequest := mkTranscribeRequest {
  req_language : option string;
  req_prompt : option string
}.

(** The JSON document a handler answers with. *)
Inductive Body :=
| ErrorBody (error : string) (errorDetails : option Error)
| TranscriptionBody (job : string)
    (transcription : TranscriptionService.WhisperResult)
    (processed : TranscriptionService.ProcessedTranscription)
| AnalysisBody (job : string) (analysis : MomentAnalyzer.AnalysisResult)
| SummaryBody (job : string) (summary : SummaryResult)
| StoredSummaryBody (job : string) (summary : SummaryResult) (created : Z)
| CleanupBody (job : string) (phase4Cleanup : JobCleanup)
    (tempCleanup : TempCleanup).

Record Response := mkResponse {
  status : nat;
  body : Body
}.

Module Server.

Import JobLog.

Section Handlers.

(** The collaborators. *)
Variable transcribeAudio :
  Fs.FileSystem -> Fs.Path -> string -> option string ->
  Js.Outcome Error TranscriptionService.WhisperResult.
Variable generateContent :
  Fs.FileSystem -> Fs.Path -> MomentAnalyzer.Transcription -> option string.
Variable jsonDecode : string -> option MomentAnalyzer.Analysis.
Variable produceSummary :
  Fs.FileSystem -> option Fs.Path -> list Moment -> SummaryOptions -> string ->
  Fs.FileSystem * Js.Outcome Error SummaryResult.

(** *** POST /transcribe/:jobId *)

(** The prerequisite the stage reads from the log. *)
Definition transcribePrerequisite (logs : list StageEvent)
  : option StageEvent :=
  Js.find (hasActivity "audio_extraction_completed") logs.

Definition transcribe (job : string) (req : TranscribeRequest) (w : World)
  : World * Response :=
  let logs := getJobLogs job w in
  match transcribePrerequisite logs with
  | None =>
      (w, {| status := 404;
             body := ErrorBody "Audio extraction job not found" None |})
  | Some audioLog =>
      match audioFileOf (details audioLog) with
      | None =>
          (w, {| status := 404; body := ErrorBody "Audio file not found" None |})
      | Some audioFile =>
          let audioPath := Fs.TempPath audioFile in
          if negb (Js.truthyS audioFile && Fs.existsSync (fs w) audioPath)
          then (w, {| status := 404;
                      body := ErrorBody "Audio file not found" None |})
          else
            let w1 :=
              logActivity job "transcription_started"
                          (TranscriptionStarted audioPath) w in
            match transcribeAudio (fs w1) audioPath
                    (Js.orS (req_language req) "en") (req_prompt req) with
            | Js.Ok transcription =>
                let processedTranscription :=
                  TranscriptionService.processTranscriptionForAnalysis
                    transcription in
                let w2 :=
                  logActivity job "transcription_completed"
                    (TranscriptionCompleted processedTranscription) w1 in
                (w2, {| status := 200;
                        body := TranscriptionBody job transcription
                                  processedTranscription |})
            | Js.Throw error =>
                let w2 :=
                  logActivity job "transcription_failed" (Failed error) w1 in
                (w2, {| status := 500;
                        body := ErrorBody "Transcription failed" (Some error) |})
            end
      end
  end.

(** *** POST /analyze-moments/:jobId *)

(** The three events the stage looks up: the transcription, the audio
    extraction and the start of processing. *)
Definition analyzePrerequisites (logs : list StageEvent)
  : option StageEvent * option StageEvent * option StageEvent :=
  (Js.find (hasActivity "transcription_completed") logs,
   Js.find (hasActivity "audio_extraction_completed") logs,
   Js.find (hasActivity "processing_started") logs).

Definition analyzeMoments (job : string) (w : World) : World * Response :=
  let logs := getJobLogs job w in
  let '(transcriptionLog, audioLog, processingLog) :=
    analyzePrerequisites logs in
  match transcriptionLog, audioLog with
  | Some transcriptionLog, Some audioLog =>
      match processingLog with
      | None =>
          (w, {| status := 404;
                 body := ErrorBody "Original video processing not found" None |})
      | Some processingLog =>
          match processingFileOf (details processingLog) with
          | None =>
              (* [path.join('temp', undefined)] throws; the handler's
                 [catch] logs the failure *)
              let error := TypeError "path" in
              (logActivity job "moment_analysis_failed" (Failed error) w,
               {| status := 500;
                  body := ErrorBody "Moment analysis failed" (Some error) |})
          | Some processingFile =>
              let videoPath := Fs.TempPath processingFile in
              if negb (Fs.existsSync (fs w) videoPath)
              then (w, {| status := 404;
                          body := ErrorBody "Original video file not found" None |})
              else
                let w1 :=
                  logActivity job "moment_analysis_started"
                              (MomentAnalysisStarted videoPath) w in
                match transcriptionOf (details transcriptionLog) with
                | None =>
                    (* the analyzer reads a property of [undefined] *)
                    let error := TypeError "transcription" in
                    (logActivity job "moment_analysis_failed" (Failed error) w1,
                     {| status := 500;
                        body := ErrorBody "Moment analysis failed" (Some error) |})
                | Some stored =>
                    let transcription :=
                      TranscriptionService.asAnalyzerInput stored in
                    let analysis :=
                      MomentAnalyzer.analyzeKeyMoments jsonDecode
                        (generateContent (fs w1) videoPath transcription)
                        transcription in
                    let w2 :=
                      logActivity job "moment_analysis_completed"
                                  (MomentAnalysisCompleted analysis) w1 in
                    (w2, {| status := 200; body := AnalysisBody job analysis |})
                end
          end
      end
  | _, _ =>
      (w, {| status := 404;
             body := ErrorBody
               "Transcription or audio extraction not found for this job" None |})
  end.

(** *** POST /create-summary/:jobId and POST /quick-summary/:jobId *)

Definition summaryPrerequisites (logs : list StageEvent)
  : option (StageEvent * StageEvent) :=
  match Js.find (hasActivity "moment_analysis_completed") logs,
        Js.find (hasActivity "processing_started") logs with
  | Some momentLog, Some processingLog => Some (momentLog, processingLog)
  | _, _ => None
  end.

Definition createSummary (job : string) (options : SummaryOptions)
  (w : World) : World * Response :=
  let logs := getJobLogs job w in
  match summaryPrerequisites logs with
  | None =>
      (w, {| status := 404;
             body := ErrorBody
               "Moment analysis or original video not found for this job" None |})
  | Some (momentLog, processingLog) =>
      match processingFileOf (details processingLog) with
      | None =>
          let error := TypeError "path" in
          (logActivity job "video_summarization_failed" (Failed error) w,
           {| status := 500;
              body := ErrorBody "Video summarization failed" (Some error) |})
      | Some processingFile =>
          let videoPath := Fs.TempPath processingFile in
          let moments := keyMomentsOf (details momentLog) in
          if negb (Fs.existsSync (fs w) videoPath)
          then (w, {| status := 404;
                      body := ErrorBody "Original video file not found" None |})
          else if Nat.eqb (List.length moments) 0
          then (w, {| status := 400;
                      body := ErrorBody
                        "No moments available for summarization" None |})
          else
            let w1 :=
              logActivity job "video_summarization_started"
                (SummarizationStarted (List.length moments) options) w in
            match VideoSummarizer.createVideoSummary produceSummary
                    (Some videoPath)
                    (List.map VideoSummarizer.untimed moments)
                    options job (fs w1) with
            | (fs', Js.Ok summaryResult) =>
                let w2 :=
                  logActivity job "video_summarization_completed"
                              (ResultDetails summaryResult) (withFs w1 fs') in
                (w2, {| status := 200;
                        body := SummaryBody job summaryResult |})
            | (fs', Js.Throw error) =>
                let w2 :=
                  logActivity job "video_summarization_failed"
                              (Failed error) (withFs w1 fs') in
                (w2, {| status := 500;
                        body := ErrorBody "Video summarization failed"
                                  (Some error) |})
            end
      end
  end.

Definition quickSummary (job : string) (w : World) : World * Response :=
  let logs := getJobLogs job w in
  match summaryPrerequisites logs with
  | None =>
      (w, {| status := 404;
             body := ErrorBody "Required data not found for this job" None |})
  | Some (momentLog, processingLog) =>
      match processingFileOf (details processingLog) with
      | None =>
          (w, {| status := 500;
                 body := ErrorBody "Quick summary failed"
                           (Some (TypeError "path")) |})
      | Some processingFile =>
          let videoPath := Fs.TempPath processingFile in
          let moments := keyMomentsOf (details momentLog) in
          match VideoSummarizer.createQuickSummary produceSummary
                  (Some videoPath)
                  (List.map VideoSummarizer.untimed moments)
                  job (fs w) with
          | (fs', Js.Ok summaryResult) =>
              let w1 :=
                logActivity job "quick_summary_completed"
                            (ResultDetails summaryResult) (withFs w fs') in
              (w1, {| status := 200; body := SummaryBody job summaryResult |})
          | (fs', Js.Throw error) =>
              (* the [catch] block answers without logging *)
              (withFs w fs',
               {| status := 500;
                  body := ErrorBody "Quick summary failed" (Some error) |})
          end
      end
  end.

(** *** GET /summary/:jobId *)

Definition isSummaryEvent (log : StageEvent) : bool :=
  hasActivity "video_summarization_completed" log
  || hasActivity "quick_summary_completed" log
  || hasActivity "full_pipeline_completed" log.

Definition summaryPrerequisite (logs : list StageEvent)
  : option StageEvent :=
  Js.find isSummaryEvent logs.

Definition getSummary (job : string) (w : World) : World * Response :=
  let logs := getJobLogs job w in
  match summaryPrerequisite logs with
  | None =>
      (w, {| status := 404;
             body := ErrorBody "Summary not found for this job" None |})
  | Some summaryLog =>
      match summaryDataOf (details summaryLog) with
      | Some summaryData =>
          (w, {| status := 200;
                 body := StoredSummaryBody job summaryData
                           (timestamp summaryLog) |})
      | None =>
          (w, {| status := 500;
                 body := ErrorBody "Failed to get summary"
                           (Some (TypeError "summaryData")) |})
      end
  end.

(** *** POST /cleanup/:jobId *)

Definition cleanup (job : string) (w : World) : World * Response :=
  let (fs1, cleanupResult) := VideoSummarizer.cleanupJob job (fs w) in
  let maxAge := 0%Z in
  (* [fileManager.cleanupTempFiles(maxAge, jobId)]: the method takes one
     parameter, so the second argument is dropped by the call *)
  let (fs2, tempCleanup) :=
    FileManager.cleanupTempFiles (Some maxAge) (clock w) fs1 in
  let w1 :=
    logActivity job "cleanup_completed"
                (CleanupCompleted cleanupResult tempCleanup) (withFs w fs2) in
  (w1, {| status := 200; body := CleanupBody job cleanupResult tempCleanup |}).

End Handlers.

End Server.

(** * Specification-side predicates and example inputs *)

(** Under the comparator [cmp], [a] may stand before [b]. *)
Definition before {A : Type} (cmp : A -> A -> Q) (a b : A) : Prop :=
  cmp a b <= 0.

Section FilterSpec.

Import VideoSummarizer.

(** The three conditional filters, as one predicate on a moment. *)
Definition passes (options : FilterOptions) (m : Moment) : Prop :=
  (forall n, minImportance options = Some n -> Js.truthyN n = true ->
             (n <= importance m)%nat) /\
  (forall cs, includeCategories options = Some cs -> cs <> [] ->
              Js.includes cs (category m) = true) /\
  (forall d, maxMomentDuration options = Some d -> Js.truthyQ d = true ->
             Qle_bool (duration m) d = true).

Definition filters (options : FilterOptions) (l : list Moment) : list Moment :=
  filterByDuration options (filterByCategory options
    (filterByImportance options l)).

(** The order [sortMomentsBy] asks for, as a relation between a moment
    and any moment that follows it in the output. *)
Definition requestedOrder (options : FilterOptions) (a b : Moment) : Prop :=
  match sortMomentsBy options with
  | Some s =>
      if String.eqb s "importance" then (importance b <= importance a)%nat
      else if String.eqb s "duration"
           then endTime b - startTime b <= endTime a - startTime a
           else startTime a <= startTime b
  | None => startTime a <= startTime b
  end.

End FilterSpec.

Section FilterExamples.

Import VideoSummarizer.

(** The options of the end-to-end scenario of the specification. *)
Definition scenarioOptions : FilterOptions :=
  {| minImportance := Some 5%nat;
     includeCategories := None;
     maxMomentDuration := None;
     maxMoments := Some 3%nat;
     sortMomentsBy := Some "importance"%string |}.

Definition scenarioMoment (i : nat) (t : Q) : Moment :=
  {| title := "moment";
     description := "";
     startTime := t;
     endTime := t + 5;
     importance := i;
     category := "decision";
     reason := "";
     workflowContext := "" |}.

Definition scenarioMoments : list Moment :=
  [ scenarioMoment 9 10; scenarioMoment 3 20; scenarioMoment 7 30;
    scenarioMoment 8 40; scenarioMoment 2 50; scenarioMoment 6 60;
    scenarioMoment 5 70; scenarioMoment 4 80 ].

(** With [maxMoments: 0] the guard [options.maxMoments && ...] is false
    and nothing is cut. *)
Definition zeroLimit : FilterOptions :=
  {| minImportance := None;
     includeCategories := None;
     maxMomentDuration := None;
     maxMoments := Some 0%nat;
     sortMomentsBy := None |}.

End FilterExamples.

Section TimestampExamples.

Import MomentAnalyzer.

Definition reportedMoment : Moment :=
  {| title := "Trade review";
     description := "Reviewing a trade offer";
     startTime := 15 # 10;
     endTime := 32 # 10;
     importance := 7;
     category := "decision";
     reason := "";
     workflowContext := "" |}.

End TimestampExamples.

Section FallbackSpec.

Import MomentAnalyzer.

(** What the fallback puts into the fields of a moment it builds. *)
Definition populated (m : Moment) : Prop :=
  title m <> ""%string /\ description m <> ""%string /\
  category m = "workflow_phase"%string /\
  (5 <= importance m <= 7)%nat /\
  reason m <> ""%string /\ workflowContext m <> ""%string.

(** The decoded response cannot be used: there is none ([JSON.parse] threw
    or no JSON text was found), or it has no key moments. *)
Definition unusable (decoded : option Analysis) : Prop :=
  match decoded with
  | None => True
  | Some analysis =>
      keyMoments analysis = None \/ keyMoments analysis = Some []
  end.

(** Until the loop has pushed a moment, [currentMomentStart] is still 0. *)
Definition untouched (st : Scan) : Prop :=
  moments st <> [] \/ currentMomentStart st = 0.

(** A transcript of five seconds: one segment, text present. *)
Definition shortTranscript : Transcription :=
  {| t_text := Some "hello there"%string;
     t_segments := Some [ {| seg_start := 0; seg_end := 5;
                             seg_text := "hello there" |} ];
     t_duration := Some 5;
     t_totalDuration := Some 5 |}.

(** A transcript of ninety seconds. *)
Definition longTranscript : Transcription :=
  {| t_text := Some "let's look at the team. now the email."%string;
     t_segments := Some [ {| seg_start := 0; seg_end := 40;
                             seg_text := "let's look at the team." |};
                          {| seg_start := 40; seg_end := 90;
                             seg_text := "now the email." |} ];
     t_duration := Some 90;
     t_totalDuration := Some 90 |}.

End FallbackSpec.

Section RoundingSpec.

Import VideoComposer.


Definition clip (i : nat) (d : Q) : Segment :=
  {| index := i;
     seg_title := "clip";
     seg_category := "decision";
     seg_importance := 7;
     originalStartTime := 0;
     originalEndTime := d;
     duration := d;
     filename := "clip.mp4";
     fileSize := 1000 |}.


End RoundingSpec.

Section JobLogSpec.

Import JobLog Server.

(** The lookup the specification describes: the last-appended event of
    the given kind among the events of the job. *)
Definition findLatest (job kind : string) (w : World) : option StageEvent :=
  Js.find (hasActivity kind) (List.rev (getJobLogs job w)).

(** [e] is the first line of the log file that belongs to [job] and
    satisfies [p]. *)
Definition earliest (job : string) (p : StageEvent -> bool) (w : World)
  (e : StageEvent) : Prop :=
  exists earlier later,
    logFile w = earlier ++ e :: later /\ jobId e = job /\ p e = true /\
    forall x, List.In x earlier -> jobId x = job -> p x = false.

Definition emptyFs : Fs.FileSystem :=
  {| Fs.temp := ∅; Fs.output := ∅; Fs.segments := ∅; Fs.thumbnails := ∅ |}.

Definition firstAudioEvent : StageEvent :=
  {| timestamp := 1; jobId := "job1";
     activity := "audio_extraction_completed";
     details := AudioExtracted (Some "first.wav"%string) |}.

Definition secondAudioEvent : StageEvent :=
  {| timestamp := 2; jobId := "job1";
     activity := "audio_extraction_completed";
     details := AudioExtracted (Some "second.wav"%string) |}.

(** A job whose audio extraction was run twice: both audio files are in
    [temp/], and the log has the two completion events. *)
Definition rerunWorld : World :=
  {| fs := {| Fs.temp := {[ "first.wav"%string :=
                              {| Fs.mtime := 1; Fs.size := 100 |};
                            "second.wav"%string :=
                              {| Fs.mtime := 2; Fs.size := 100 |} ]};
              Fs.output := ∅;
              Fs.segments := ∅;
              Fs.thumbnails := ∅ |};
     logFile := [ firstAudioEvent; secondAudioEvent ];
     clock := 3 |}.

(** A transcription service that answers with the audio file it was given. *)
Definition echoTranscriber (fs : Fs.FileSystem) (audioPath : Fs.Path)
  (language : string) (prompt : option string)
  : Js.Outcome Error TranscriptionService.WhisperResult :=
  Js.Ok {| TranscriptionService.text :=
             match audioPath with
             | Fs.TempPath name => name
             | _ => ""%string
             end;
           TranscriptionService.language := language;
           TranscriptionService.duration := 60;
           TranscriptionService.segments := [];
           TranscriptionService.confidence := 90 |}.

Definition defaultRequest : TranscribeRequest :=
  {| req_language := None; req_prompt := None |}.

End JobLogSpec.

Section StageExamples.

Import JobLog Server.

Definition event (w : World) (job kind : string) (d : Details) : StageEvent :=
  {| timestamp := clock w; jobId := job; activity := kind; details := d |}.

Definition detectedMoment : Moment :=
  {| title := "Trade Decision";
     description := "The user rejects a trade offer";
     startTime := 12;
     endTime := 30;
     importance := 8;
     category := "decision";
     reason := "A choice is made";
     workflowContext := "Roster management" |}.

Definition detectedAnalysis : MomentAnalyzer.AnalysisResult :=
  {| MomentAnalyzer.success := true;
     MomentAnalyzer.analysis :=
       {| MomentAnalyzer.keyMoments := Some [detectedMoment];
          MomentAnalyzer.summary := Some "A roster review"%string;
          MomentAnalyzer.totalOriginalDuration := Some 90;
          MomentAnalyzer.recommendedApproach := None;
          MomentAnalyzer.contentType := Some "screen_recording"%string;
          MomentAnalyzer.workflowPhases := None;
          MomentAnalyzer.recommendedSummaryDuration := Some 18%Z;
          MomentAnalyzer.compressionRatio := Some 20%Z;
          MomentAnalyzer.momentCount := Some 1%nat |};
     MomentAnalyzer.provider := "gemini-1.5-pro";
     MomentAnalyzer.error := None |}.

(** A job that has been analysed; its working video is in [temp/]. *)
Definition analysedWorld : World :=
  {| fs := {| Fs.temp := {[ "proc-video.mp4"%string :=
                            {| Fs.mtime := 1; Fs.size := 1000 |} ]};
              Fs.output := ∅;
              Fs.segments := ∅;
              Fs.thumbnails := ∅ |};
     logFile :=
       [ {| timestamp := 1; jobId := "job1"; activity := "processing_started";
            details := ProcessingStarted "video.mp4" "proc-video.mp4" |};
         {| timestamp := 2; jobId := "job1";
            activity := "moment_analysis_completed";
            details := MomentAnalysisCompleted detectedAnalysis |} ];
     clock := 3 |}.

(** A media tool that fails. *)
Definition failingTool (fs : Fs.FileSystem) (videoPath : option Fs.Path)
  (moments : list Moment) (options : SummaryOptions) (job : string)
  : Fs.FileSystem * Js.Outcome Error SummaryResult :=
  (fs, Js.Throw (CollaboratorError "ffmpeg exited with code 1")).

Definition toolFailure : Error :=
  SummarizationFailed (CollaboratorError "ffmpeg exited with code 1").

End StageExamples.

Section CleanupSpec.

Import VideoSummarizer.

Definition noSegments : CleanupResult :=
  {| cr_success := true;
     deletedFiles := None;
     cr_message := Some "No segments to clean up"%string;
     cr_error := None |}.

Definition nothingDeleted : CleanupResult :=
  {| cr_success := true;
     deletedFiles := Some 0%nat;
     cr_message := None;
     cr_error := None |}.

(** The directories of a job with one clip, one thumbnail and a summary
    video. *)
Definition producedFs : Fs.FileSystem :=
  {| Fs.temp := ∅;
     Fs.output := {[ "summary_job1.mp4"%string :=
                       {| Fs.mtime := 5; Fs.size := 2000 |} ]};
     Fs.segments := {[ "job1"%string := [ "01_trade_decision.mp4"%string ] ]};
     Fs.thumbnails := {[ "job1"%string := [ "01_trade_decision.jpg"%string ] ]} |}.

End CleanupSpec.

Section TempExamples.

Import JobLog Server.


End TempExamples.

Section ValidationSpec.

Import VideoSummarizer.

(** The moment starts at zero, or lacks one of its two times. *)
Definition startsAtZeroOrUntimed (m : MomentOf (option Q)) : Prop :=
  startTime m = None \/ endTime m = None \/
  exists s, startTime m = Some s /\ s == 0.

(** A moment that begins with the video: start 0, end 12.5. *)
Definition openingMoment : MomentOf (option Q) :=
  {| title := "Opening";
     description := "The first screen";
     startTime := Some 0;
     endTime := Some (25 # 2);
     importance := 7;
     category := "navigation";
     reason := "";
     workflowContext := "" |}.

Definition videoFs : Fs.FileSystem :=
  {| Fs.temp := {[ "proc-video.mp4"%string :=
                     {| Fs.mtime := 1; Fs.size := 1000 |} ]};
     Fs.output := ∅;
     Fs.segments := ∅;
     Fs.thumbnails := ∅ |}.

End ValidationSpec.

(** * Further specification-side predicates *)

Section SelectionSpec.

Import VideoSummarizer.

(** The moment passes the three conditional filters of [filterMoments]. *)
Definition keeps (options : FilterOptions) (m : Moment) : bool :=
  match minImportance options with
  | Some n => Nat.eqb n 0 || Nat.leb n (importance m)
  | None => true
  end
  && match includeCategories options with
     | Some [] => true
     | Some cs => Js.includes cs (category m)
     | None => true
     end
  && match maxMomentDuration options with
     | Some d => Qeq_bool d 0 || Qle_bool (endTime m - startTime m) d
     | None => true
     end.

(** The count cap is in force: [maxMoments] is a positive number below the
    number of moments that pass the filters. *)
Definition cutsAt (options : FilterOptions) (moments : list Moment) (n : nat)
  : Prop :=
  maxMoments options = Some n /\ n <> 0%nat /\
  (n < List.length (List.filter (keeps options) moments))%nat.

(** Both times are there, neither is zero, and the start is before the end. *)
Definition wellTimed (m : MomentOf (option Q)) : Prop :=
  exists s e, startTime m = Some s /\ endTime m = Some e /\
              ~ s == 0 /\ ~ e == 0 /\ s < e.

End SelectionSpec.

Section SummarizerSpec.

(** What [createVideoSummary] does with the outcome of the media tool:
    an error is rethrown as 'Summarization failed: ...'. *)
Definition rethrown (r : Fs.FileSystem * Js.Outcome Error SummaryResult)
  : Fs.FileSystem * Js.Outcome Error SummaryResult :=
  match r with
  | (fs', Js.Ok summary) => (fs', Js.Ok summary)
  | (fs', Js.Throw e) => (fs', Js.Throw (SummarizationFailed e))
  end.

(** The video path is given and the file is there. *)
Definition videoPresent (fs : Fs.FileSystem) (videoPath : option Fs.Path)
  : Prop :=
  exists path, videoPath = Some path /\ Fs.existsSync fs path = true.

End SummarizerSpec.

Section FallbackMore.

Import MomentAnalyzer.

(** The moment lies within a video of duration [d]. *)
Definition within (d : Q) (m : Moment) : Prop :=
  0 <= startTime m /\ startTime m < endTime m /\ endTime m <= d.

(** The invariant of the scan loop of [createLiberalFallback]: every moment
    pushed so far lies within the video, the two cursors are equal and not
    negative, and the first moment pushed, if any, starts at zero. *)
Definition scanned (d : Q) (st : Scan) : Prop :=
  Forall (within d) (moments st) /\
  lastMomentEnd st = currentMomentStart st /\
  0 <= currentMomentStart st /\
  match moments st with
  | [] => currentMomentStart st = 0
  | m :: _ => startTime m == 0
  end.

(** The first moment the scan has pushed, if any, starts at zero; until
    then [currentMomentStart] is zero. *)
Definition rooted (st : Scan) : Prop :=
  match moments st with
  | [] => currentMomentStart st = 0
  | m :: _ => startTime m == 0
  end.


(** A response whose only moment ends after the video does. *)
Definition lateMoment : Moment :=
  {| title := "Late";
     description := "Ends after the video";
     startTime := 100;
     endTime := 500;
     importance := 7;
     category := "decision";
     reason := "";
     workflowContext := "" |}.

Definition lateAnalysis : Analysis :=
  {| keyMoments := Some [lateMoment];
     summary := None;
     totalOriginalDuration := None;
     recommendedApproach := None;
     contentType := None;
     workflowPhases := None;
     recommendedSummaryDuration := None;
     compressionRatio := None;
     momentCount := None |}.

End FallbackMore.

(** ** src/processors/videoComposer.js: MomentAnalyzer.validateAnalysis *)

Module Validation.

Import MomentAnalyzer.

(** The texts pushed onto [issues]; [number] is [index + 1]. *)
Inductive Issue :=
| NoAnalysisData
| NoKeyMoments
| MissingTimestamps (number : nat)
| InvalidTimeRange (number : nat)
| ExceedsDuration (number : nat).

(** The texts pushed onto [recommendations]. *)
Inductive Recommendation :=
| RetryAnalysis
| LowerThreshold
| ImproveCoverage
| MoreMoments.

(** [Math.round(coverageRatio * 100)]: the quotient is not a finite number
    when the duration is zero. *)
Inductive Rounded :=
| Finite (value : Z)
| NotFinite.

(** The report; the early return sets neither [coverage] nor
    [momentCount]. *)
Record Report := mkReport {
  valid : bool;
  issues : list Issue;
  recommendations : list Recommendation;
  confidence : nat;
  qualityScore : Q;
  coverage : option Rounded;
  momentCount : option nat
}.

(** [m.importance || 5] *)
Definition importanceOr5 (m : Moment) : nat :=
  if Js.truthyN (importance m) then importance m else 5%nat.

(** The body of the [moments.forEach((moment, index) => ...)] callback. *)
Definition timestampIssue (duration : Q) (index : nat) (moment : Moment)
  : option Issue :=
  if negb (Js.truthyQ (startTime moment)) || negb (Js.truthyQ (endTime moment))
  then Some (MissingTimestamps (index + 1))
  else if Qle_bool (endTime moment) (startTime moment)
  then Some (InvalidTimeRange (index + 1))
  else if Js.Qltb duration (endTime moment)
  then Some (ExceedsDuration (index + 1))
  else None.

Definition timestampIssues (duration : Q) (moments : list Moment)
  : list Issue :=
  omap id (imap (timestampIssue duration) moments).

Definition validateAnalysis (analysis : option Analysis)
  (transcription : Transcription) : Report :=
  match analysis ≫= keyMoments with
  | None =>
      {| valid := false;
         issues := [NoAnalysisData];
         recommendations := [RetryAnalysis];
         confidence := 0;
         qualityScore := 0;
         coverage := None;
         momentCount := None |}
  | Some moments =>
      let duration := Js.orQ (t_duration transcription) 0 in
      let count := List.length moments in
      let empty := Nat.eqb count 0 in
      let confidence := if empty then 0%nat else Nat.min 100 (count * 15) in
      let qualityScore :=
        if empty then 0
        else
          Qmin 100
            (inject_Z (Z.of_nat count) * 12
             + inject_Z (Z.of_nat
                 (List.fold_left (fun sum m => (sum + importanceOr5 m)%nat)
                                 moments 0%nat))
               / inject_Z (Z.of_nat count) * 8) in
      let stamped := timestampIssues duration moments in
      let timestampCount := List.length stamped in
      let totalMomentDuration := totalMomentDuration moments in
      let coverageRatio := totalMomentDuration / duration in
      let qualityScore :=
        if Nat.eqb timestampCount 0 && Nat.ltb 0 count
        then Qmax qualityScore 70 else qualityScore in
      let issues := (if empty then [NoKeyMoments] else []) ++ stamped in
      {| valid := Nat.eqb (List.length issues) 0;
         issues := issues;
         recommendations :=
           (if empty then [LowerThreshold] else [])
           ++ (if Js.Qltb coverageRatio (3 # 10) && Js.Qltb 60 duration
               then [ImproveCoverage] else [])
           ++ (if Nat.ltb count 3 && Js.Qltb 90 duration
               then [MoreMoments] else []);
         confidence := confidence;
         qualityScore := qualityScore;
         coverage :=
           Some (if Qeq_bool duration 0 then NotFinite
                 else Finite (Js.round (coverageRatio * 100)));
         momentCount := Some count |}
  end.

End Validation.

(** A moment that lies within the video and does not start at zero. *)
Definition soundMoment (duration : Q) (m : Moment) : Prop :=
  ~ startTime m == 0 /\ ~ endTime m == 0 /\
  startTime m < endTime m /\ endTime m <= duration.

(** ** src/processors/videoComposer.js: the composition plan and the
       segment order *)

Module ComposerPlan.

Import VideoComposer.

(** The properties of [options] that [composeSegments] and
    [generateCompositionPlan] read; a property that is not set is [None]. *)
Record Options := mkOptions {
  sortBy : option string;
  enableTransitions : option bool;
  transitionType : option string;
  transitionDuration : option Q;
  enableIntro : option bool;
  introDuration : option Q;
  introText : option string;
  enableSpeedAdjustment : option bool;
  speedFactor : option Q;
  qualityPreset : option string;
  crf : option nat;
  includeAudio : option bool;
  normalizeAudio : option bool
}.

Record Plan := mkPlan {
  totalSegments : nat;
  estimatedDuration : Q;
  transitionsEnabled : bool;
  transitionsType : string;
  transitionsDuration : Q;
  introEnabled : bool;
  introLength : Q;
  introTitle : string;
  speedEnabled : bool;
  speedBy : Q;
  preset : string;
  planCrf : nat;
  audioEnabled : bool;
  audioNormalize : bool
}.

(** [x !== false] *)
Definition notFalse (x : option bool) : bool :=
  match x with Some false => false | _ => true end.

(** [x || d] on a boolean property *)
Definition orB (x : option bool) (d : bool) : bool :=
  match x with Some true => true | _ => d end.

(** [x || d] on a whole-number property *)
Definition orN (x : option nat) (d : nat) : nat :=
  match x with
  | Some n => if Js.truthyN n then n else d
  | None => d
  end.

Definition generateCompositionPlan (segments : list Segment)
  (options : Options) : Plan :=
  let transitionsEnabled := notFalse (enableTransitions options) in
  let transitionsDuration := Js.orQ (transitionDuration options) (1 # 2) in
  let introEnabled := orB (enableIntro options) false in
  let introLength := Js.orQ (introDuration options) 2 in
  let speedEnabled := orB (enableSpeedAdjustment options) false in
  let speedBy := Js.orQ (speedFactor options) 1 in
  let estimated := totalDuration segments in
  let estimated :=
    if speedEnabled && negb (Qeq_bool speedBy 1)
    then estimated / speedBy else estimated in
  let estimated :=
    if transitionsEnabled
    then estimated
         + (inject_Z (Z.of_nat (List.length segments)) - 1) * transitionsDuration
    else estimated in
  let estimated :=
    if introEnabled then estimated + introLength else estimated in
  {| totalSegments := List.length segments;
     estimatedDuration := estimated;
     transitionsEnabled := transitionsEnabled;
     transitionsType := Js.orS (transitionType options) "fade";
     transitionsDuration := transitionsDuration;
     introEnabled := introEnabled;
     introLength := introLength;
     introTitle := Js.orS (introText options) "Key Moments Summary";
     speedEnabled := speedEnabled;
     speedBy := speedBy;
     preset := Js.orS (qualityPreset options) "medium";
     planCrf := orN (crf options) 23;
     audioEnabled := notFalse (includeAudio options);
     audioNormalize := orB (normalizeAudio options) true |}.

(** The comparators of [sortSegments]. *)
Definition byImportance (a b : Segment) : Q :=
  inject_Z (Z.of_nat (seg_importance b) - Z.of_nat (seg_importance a)).
Definition byDuration (a b : Segment) : Q := duration b - duration a.
Definition byOriginalStart (a b : Segment) : Q :=
  originalStartTime a - originalStartTime b.
Definition byIndex (a b : Segment) : Q :=
  inject_Z (Z.of_nat (index a) - Z.of_nat (index b)).

(** The comparator the [switch (sortBy)] selects. *)
Definition comparator (sortBy : string) : Segment -> Segment -> Q :=
  if String.eqb sortBy "importance" then byImportance
  else if String.eqb sortBy "duration" then byDuration
  else if String.eqb sortBy "chronological" then byOriginalStart
  else byIndex.

Definition sortSegments (segments : list Segment) (sortBy : string)
  : list Segment :=
  Js.sort (comparator sortBy) segments.

(** The plan [composeSegments] builds: [options.sortBy || 'order']. *)
Definition composePlan (segments : list Segment) (options : Options)
  : list Segment * Plan :=
  let sortedSegments := sortSegments segments (Js.orS (sortBy options) "order") in
  (sortedSegments, generateCompositionPlan sortedSegments options).

(** The options [createPreview] plans with. *)
Definition previewOptions : Options :=
  {| sortBy := None;
     enableTransitions := Some false;
     transitionType := None;
     transitionDuration := None;
     enableIntro := Some false;
     introDuration := None;
     introText := None;
     enableSpeedAdjustment := None;
     speedFactor := None;
     qualityPreset := Some "ultrafast"%string;
     crf := Some 28%nat;
     includeAudio := None;
     normalizeAudio := None |}.

End ComposerPlan.

(** ** src/ai/transcriptionService.js: the routes of the job stages *)

(** A request to one of the stage routes, with the [:jobId] of its path. *)
Inductive Request :=
| PostTranscribe (job : string) (req : TranscribeRequest)
| PostAnalyzeMoments (job : string)
| PostCreateSummary (job : string) (options : SummaryOptions)
| PostQuickSummary (job : string)
| GetSummary (job : string)
| PostCleanup (job : string).

Definition jobOf (request : Request) : string :=
  match request with
  | PostTranscribe job _ => job
  | PostAnalyzeMoments job => job
  | PostCreateSummary job _ => job
  | PostQuickSummary job => job
  | GetSummary job => job
  | PostCleanup job => job
  end.

Definition isCleanup (request : Request) : bool :=
  match request with PostCleanup _ => true | _ => false end.

Section Routes.

Variable transcribeAudio :
  Fs.FileSystem -> Fs.Path -> string -> option string ->
  Js.Outcome Error TranscriptionService.WhisperResult.
Variable generateContent :
  Fs.FileSystem -> Fs.Path -> MomentAnalyzer.Transcription -> option string.
Variable jsonDecode : string -> option MomentAnalyzer.Analysis.
Variable produceSummary :
  Fs.FileSystem -> option Fs.Path -> list Moment -> SummaryOptions -> string ->
  Fs.FileSystem * Js.Outcome Error SummaryResult.

(** The route table: each request goes to the handler registered for it. *)
Definition handle (request : Request) (w : World) : World * Response :=
  match request with
  | PostTranscribe job req => Server.transcribe transcribeAudio job req w
  | PostAnalyzeMoments job =>
      Server.analyzeMoments generateContent jsonDecode job w
  | PostCreateSummary job options =>
      Server.createSummary produceSummary job options w
  | PostQuickSummary job => Server.quickSummary produceSummary job w
  | GetSummary job => Server.getSummary job w
  | PostCleanup job => Server.cleanup job w
  end.

End Routes.

(** The world [w'] is [w] with events of [job] appended to the log, each
    stamped with the clock of [w]; the clock has not moved. *)
Definition extends (job : string) (w w' : World) : Prop :=
  clock w' = clock w /\
  exists events,
    logFile w' = logFile w ++ events /\
    Forall (fun e => jobId e = job /\ timestamp e = clock w) events.

(** A media tool that succeeds and writes the summary video. *)
Definition workingTool (fs : Fs.FileSystem) (videoPath : option Fs.Path)
  (moments : list Moment) (options : SummaryOptions) (job : string)
  : Fs.FileSystem * Js.Outcome Error SummaryResult :=
  ({| Fs.temp := Fs.temp fs;
      Fs.output :=
        <[ ("summary_" ++ job ++ ".mp4")%string :=
             {| Fs.mtime := 10; Fs.size := 4000 |} ]> (Fs.output fs);
      Fs.segments := Fs.segments fs;
      Fs.thumbnails := Fs.thumbnails fs |},
   Js.Ok {| sum_jobId := job;
            finalVideoFilename := ("summary_" ++ job ++ ".mp4")%string;
            usedMoments := List.length moments;
            sum_compressionRatio := 80 |}).

Definition plainOptions : SummaryOptions :=
  {| filtering :=
       {| minImportance := None; includeCategories := None;
          maxMomentDuration := None; maxMoments := None;
          sortMomentsBy := None |};
     composition := None;
     createThumbnails := false;
     createPreview := false |}.

Definition storedTranscription : TranscriptionService.ProcessedTranscription :=
  {| TranscriptionService.fullText := "now look at the inbox";
     TranscriptionService.timestampedSegments := [];
     TranscriptionService.totalDuration := 120;
     TranscriptionService.pt_language := "en" |}.

(** A job that has been transcribed; its working video is in [temp/]. *)
Definition transcribedWorld : World :=
  {| fs := {| Fs.temp := {[ "proc-video.mp4"%string :=
                            {| Fs.mtime := 1; Fs.size := 1000 |} ]};
              Fs.output := ∅;
              Fs.segments := ∅;
              Fs.thumbnails := ∅ |};
     logFile :=
       [ {| timestamp := 1; jobId := "job1"; activity := "processing_started";
            details := ProcessingStarted "video.mp4" "proc-video.mp4" |};
         {| timestamp := 2; jobId := "job1";
            activity := "audio_extraction_completed";
            details := AudioExtracted (Some "audio.wav"%string) |};
         {| timestamp := 3; jobId := "job1";
            activity := "transcription_completed";
            details := TranscriptionCompleted storedTranscription |} ];
     clock := 4 |}.

Definition producedSummary : SummaryResult :=
  {| sum_jobId := "job1";
     finalVideoFilename := "summary_job1.mp4";
     usedMoments := 1;
     sum_compressionRatio := 80 |}.

(** ** src/ai/transcriptionService.js: the quality measures of a
       transcription *)

Module TranscriptionQuality.

Import TranscriptionService.

(** The transcription object as the quality measures read it. *)
Record Transcript := mkTranscript {
  tr_text : string;
  tr_language : string;
  tr_confidence : Q;
  tr_words : option (list string);
  tr_segments : option (list WhisperSegment)
}.

Inductive Issue :=
| VeryShort
| LowConfidence.

Inductive Recommendation :=
| ImproveAudio
| HighRepetition
| CheckLanguage (language : string).

Record Report := mkReport {
  valid : bool;
  issues : list Issue;
  recommendations : list Recommendation;
  confidence : Q;
  qualityScore : Q
}.

(** [calculateAverageConfidence(segments)].  The scores are numbers, none
    of them is NaN, so the [!isNaN] filter keeps each of them. *)
Definition calculateAverageConfidence
  (segments : option (list WhisperSegment)) : Q :=
  match segments with
  | None => 0
  | Some segments =>
      if Nat.eqb (List.length segments) 0 then 0
      else
        let confidenceScores :=
          List.map (fun s => Js.orQ (avg_logprob s) 0) segments in
        if Nat.eqb (List.length confidenceScores) 0 then 0
        else
          let avgLogProb :=
            List.fold_left (fun sum score => sum + score) confidenceScores 0
            / inject_Z (Z.of_nat (List.length confidenceScores)) in
          Qmax 0 (Qmin 100 ((avgLogProb + 1) * 100))
  end.

Definition nonEmpty {A : Type} (l : option (list A)) : bool :=
  match l with
  | Some l => Nat.ltb 0 (List.length l)
  | None => false
  end.

Definition calculateQualityScore (transcription : Transcript) : Q :=
  let score := 0 in
  let score := score + Qmin 50 (Js.orQ (Some (tr_confidence transcription)) 0) in
  let textLength := Z.of_nat (String.length (tr_text transcription)) in
  let score :=
    if Z.ltb 50 textLength && Z.ltb textLength 10000
    then score + 20 else score in
  let score :=
    if nonEmpty (tr_words transcription) then score + 15 else score in
  let score :=
    match tr_segments transcription with
    | Some segments =>
        if Nat.ltb 1 (List.length segments) then score + 15 else score
    | None => score
    end in
  Qmin 100 score.

(** [text.split(' ')] *)
Fixpoint split (s : string) : list string :=
  match s with
  | EmptyString => [EmptyString]
  | String c s' =>
      if Nat.eqb (nat_of_ascii c) 32 then EmptyString :: split s'
      else
        match split s' with
        | word :: rest => String c word :: rest
        | [] => [String c EmptyString]
        end
  end.

Definition validateTranscription (transcription : Transcript) : Report :=
  let short := Nat.ltb (String.length (tr_text transcription)) 10 in
  let low := Js.Qltb (tr_confidence transcription) 30 in
  let words := split (tr_text transcription) in
  (* [new Set(words).size] *)
  let uniqueWords := List.length (List.nodup string_dec words) in
  let repetitionRatio :=
    inject_Z (Z.of_nat uniqueWords) / inject_Z (Z.of_nat (List.length words)) in
  let foreign :=
    negb (String.eqb (tr_language transcription) "en")
    && negb (String.eqb (tr_language transcription) "english") in
  let issues :=
    (if short then [VeryShort] else []) ++ (if low then [LowConfidence] else []) in
  {| valid := Nat.eqb (List.length issues) 0;
     issues := issues;
     recommendations :=
       (if low then [ImproveAudio] else [])
       ++ (if Js.Qltb repetitionRatio (3 # 10) then [HighRepetition] else [])
       ++ (if foreign then [CheckLanguage (tr_language transcription)] else []);
     confidence := tr_confidence transcription;
     qualityScore := calculateQualityScore transcription |}.

End TranscriptionQuality.

(** A segment for which the service reported no log probability. *)
Definition unscoredSegment : TranscriptionService.WhisperSegment :=
  {| TranscriptionService.ws_start := 0;
     TranscriptionService.ws_end := 4;
     TranscriptionService.ws_text := " open the inbox";
     TranscriptionService.avg_logprob := None |}.

Definition clearTranscript : TranscriptionQuality.Transcript :=
  {| TranscriptionQuality.tr_text := "open the inbox and read the first mail";
     TranscriptionQuality.tr_language := "en";
     TranscriptionQuality.tr_confidence := 85;
     TranscriptionQuality.tr_words := None;
     TranscriptionQuality.tr_segments := Some [unscoredSegment] |}.

(** ** src/processors/videoSegmenter.js: the clips of a job *)

Module Segmenter.

Import VideoComposer.

(** The [Error] objects of the segmenter, by the message text they carry;
    [SegmentationFailed] is the wrapper of the [catch] block. *)
Inductive SegmentError :=
| VideoNotFound (videoPath : Fs.Path)
| NoMoments
| ExtractionFailed (cause : Error)
| SegmentationFailed (cause : SegmentError).

Definition isSpecial (c : ascii) : bool :=
  let n := nat_of_ascii c in
  negb ((Nat.leb 97 n && Nat.leb n 122)          (* a-z *)
        || (Nat.leb 65 n && Nat.leb n 90)        (* A-Z *)
        || (Nat.leb 48 n && Nat.leb n 57)        (* 0-9 *)
        || TranscriptionService.isSpace c        (* \s *)
        || Nat.eqb n 45 || Nat.eqb n 95).        (* - and _ *)

(** [s.replace(/[^a-zA-Z0-9\s-_]/g, '')] *)
Fixpoint removeSpecial (s : string) : string :=
  match s with
  | EmptyString => EmptyString
  | String c s' =>
      if isSpecial c then removeSpecial s' else String c (removeSpecial s')
  end.

(** [s.replace(/\s+/g, '_')]: each run of white space becomes one
    underscore, written when the last character of the run is reached. *)
Fixpoint replaceSpaces (s : string) : string :=
  match s with
  | EmptyString => EmptyString
  | String c s' =>
      if TranscriptionService.isSpace c
      then match s' with
           | String c' _ =>
               if TranscriptionService.isSpace c' then replaceSpaces s'
               else String "_" (replaceSpaces s')
           | EmptyString => String "_" EmptyString
           end
      else String c (replaceSpaces s')
  end.

(** [sanitizeFilename], on ASCII text. *)
Definition sanitizeFilename (filename : string) : string :=
  Str.toLowerCase
    (String.substring 0 50 (replaceSpaces (removeSpecial filename))).

(** [String(n).padStart(2, '0')] *)
Definition pad2 (n : nat) : string :=
  let s := pretty n in
  if Nat.ltb (String.length s) 2 then ("0" ++ s)%string else s.

Definition outputFilename (moment : Moment) (index : nat) : string :=
  let safeTitle :=
    sanitizeFilename
      (Js.orS (Some (title moment)) ("moment_" ++ pretty (index + 1)%nat)) in
  (pad2 (index + 1) ++ "_" ++ safeTitle ++ ".mp4")%string.

(** What [extractMomentClips] resolves to. *)
Record Clips := mkClips {
  clipsJob : string;
  totalSegments : nat;
  clipSegments : list Segment;
  outputDirectory : Fs.Path;
  clipsDuration : Q
}.





Section Extract.

(** The ffmpeg run of [extractSingleMoment] on the video, from [start] for
    [duration] seconds, writing [filename] into the directory of the job:
    the file system it leaves, and the size of the file it wrote or the
    error it reported. *)
Variable ffmpeg :
  Fs.FileSystem -> Fs.Path -> Q -> Q -> string -> string ->
  Fs.FileSystem * Js.Outcome Error nat.

Definition extractSingleMoment (videoPath : Fs.Path) (moment : Moment)
  (index : nat) (jobId : string) (fs : Fs.FileSystem)
  : Fs.FileSystem * Js.Outcome SegmentError Segment :=
  let startTime := startTime moment in
  let endTime := endTime moment in
  let duration := endTime - startTime in
  let outputFilename := outputFilename moment index in
  match ffmpeg fs videoPath startTime duration jobId outputFilename with
  | (fs', Js.Ok size) =>
      (fs', Js.Ok {| index := index + 1;
                     seg_title := title moment;
                     seg_category := category moment;
                     seg_importance := importance moment;
                     originalStartTime := startTime;
                     originalEndTime := endTime;
                     duration := duration;
                     filename := outputFilename;
                     fileSize := size |})
  | (fs', Js.Throw error) => (fs', Js.Throw (ExtractionFailed error))
  end.

(** The [for (let i = 0; i < moments.length; i++)] loop, from index [i]
    on; the first rejection ends it. *)
Fixpoint extractFrom (videoPath : Fs.Path) (moments : list Moment) (i : nat)
  (jobId : string) (fs : Fs.FileSystem)
  : Fs.FileSystem * Js.Outcome SegmentError (list Segment) :=
  match moments with
  | [] => (fs, Js.Ok [])
  | moment :: rest =>
      match extractSingleMoment videoPath moment i jobId fs with
      | (fs1, Js.Ok segment) =>
          match extractFrom videoPath rest (S i) jobId fs1 with
          | (fs2, Js.Ok segments) => (fs2, Js.Ok (segment :: segments))
          | (fs2, Js.Throw error) => (fs2, Js.Throw error)
          end
      | (fs1, Js.Throw error) => (fs1, Js.Throw error)
      end
  end.

Definition extractMomentClips (videoPath : Fs.Path) (moments : list Moment)
  (jobId : string) (fs : Fs.FileSystem)
  : Fs.FileSystem * Js.Outcome SegmentError Clips :=
  if negb (Fs.existsSync fs videoPath)
  then (fs, Js.Throw (SegmentationFailed (VideoNotFound videoPath)))
  else if Nat.eqb (List.length moments) 0
  then (fs, Js.Throw (SegmentationFailed NoMoments))
  else
    (* [fs.mkdirSync(jobOutputDir, { recursive: true })] *)
    let fs0 :=
      if negb (Fs.existsSync fs (Fs.SegmentDir jobId))
      then {| Fs.temp := Fs.temp fs;
              Fs.output := Fs.output fs;
              Fs.segments := <[ jobId := [] ]> (Fs.segments fs);
              Fs.thumbnails := Fs.thumbnails fs |}
      else fs in
    match extractFrom videoPath moments 0 jobId fs0 with
    | (fs', Js.Ok segmentResults) =>
        (fs', Js.Ok {| clipsJob := jobId;
                       totalSegments := List.length segmentResults;
                       clipSegments := segmentResults;
                       outputDirectory := Fs.SegmentDir jobId;
                       clipsDuration := totalDuration segmentResults |})
    | (fs', Js.Throw error) => (fs', Js.Throw (SegmentationFailed error))
    end.

End Extract.

End Segmenter.

(** A character of a sanitized file name: a lower-case letter, a digit, a
    hyphen or an underscore. *)
Definition plainChar (c : ascii) : bool :=
  let n := nat_of_ascii c in
  (Nat.leb 97 n && Nat.leb n 122) || (Nat.leb 48 n && Nat.leb n 57)
  || Nat.eqb n 45 || Nat.eqb n 95.

Fixpoint allChars (p : ascii -> bool) (s : string) : bool :=
  match s with
  | EmptyString => true
  | String c s' => p c && allChars p s'
  end.

(** The segment is the clip of moment [m], the [k]-th of the list
    (counted from zero). *)
Definition clipOf (k : nat) (m : Moment) (seg : VideoComposer.Segment) : Prop :=
  VideoComposer.index seg = (k + 1)%nat /\
  VideoComposer.duration seg = endTime m - startTime m /\
  VideoComposer.originalStartTime seg = startTime m /\
  VideoComposer.originalEndTime seg = endTime m /\
  VideoComposer.seg_title seg = title m /\
  VideoComposer.seg_importance seg = importance m /\
  VideoComposer.seg_category seg = category m /\
  VideoComposer.filename seg = Segmenter.outputFilename m k.


(** An ffmpeg that writes every clip, each of 1000 bytes. *)
Definition steadyFfmpeg (fs : Fs.FileSystem) (videoPath : Fs.Path)
  (start duration : Q) (jobId filename : string)
  : Fs.FileSystem * Js.Outcome Error nat :=
  ({| Fs.temp := Fs.temp fs;
      Fs.output := Fs.output fs;
      Fs.segments :=
        <[ jobId := default [] (Fs.segments fs !! jobId) ++ [filename] ]>
          (Fs.segments fs);
      Fs.thumbnails := Fs.thumbnails fs |},
   Js.Ok 1000%nat).

(** ** src/ai/transcriptionService.js: GET /moments/:jobId and POST /cleanup *)

Module MoreRoutes.

Import JobLog.

(** The [moments] object of the answer of GET /moments/:jobId.  The answer
    repeats four of its values in a [summary] object and passes the stored
    validation on; both are left out. *)
Record MomentsView := mkMomentsView {
  mv_moments : list Moment;
  mv_summary : string;
  mv_totalOriginalDuration : Q;
  mv_recommendedSummaryDuration : Z;
  mv_compressionRatio : Z;
  mv_momentCount : nat;
  mv_contentType : string;
  mv_recommendedApproach : string
}.

Inductive MomentsAnswer :=
| MomentsNotFound                 (* 404, 'Moment analysis not found for this job' *)
| MomentsFound (job : string) (view : MomentsView)
    (transcription : option TranscriptionService.ProcessedTranscription).

(** [momentLog.details.analysis?.analysis], [None] when the event has no
    such property. *)
Definition analysisOf (d : Details) : option MomentAnalyzer.Analysis :=
  match d with
  | MomentAnalysisCompleted a => Some (MomentAnalyzer.analysis a)
  | _ => None
  end.

(** [x || 0] on a whole number *)
Definition orZ (x : option Z) : Z :=
  match x with Some z => z | None => 0%Z end.

Definition getMoments (job : string) (w : World) : World * MomentsAnswer :=
  let logs := getJobLogs job w in
  let momentLog := Js.find (hasActivity "moment_analysis_completed") logs in
  let transcriptionLog := Js.find (hasActivity "transcription_completed") logs in
  match momentLog with
  | None => (w, MomentsNotFound)
  | Some momentLog =>
      let analysis := analysisOf (details momentLog) in
      (w, MomentsFound job
            {| mv_moments :=
                 default [] (analysis ≫= MomentAnalyzer.keyMoments);
               mv_summary :=
                 Js.orS (analysis ≫= MomentAnalyzer.summary)
                        "No summary available";
               mv_totalOriginalDuration :=
                 Js.orQ (analysis ≫= MomentAnalyzer.totalOriginalDuration) 0;
               mv_recommendedSummaryDuration :=
                 orZ (analysis ≫= MomentAnalyzer.recommendedSummaryDuration);
               mv_compressionRatio :=
                 orZ (analysis ≫= MomentAnalyzer.compressionRatio);
               mv_momentCount :=
                 default 0%nat (analysis ≫= MomentAnalyzer.momentCount);
               mv_contentType :=
                 Js.orS (analysis ≫= MomentAnalyzer.contentType) "unknown";
               mv_recommendedApproach :=
                 Js.orS (analysis ≫= MomentAnalyzer.recommendedApproach)
                        "No recommendations available" |}
            (match transcriptionLog with
             | Some transcriptionLog =>
                 transcriptionOf (details transcriptionLog)
             | None => None
             end))
  end.



End MoreRoutes.



(** The analysed job after its working video has been removed from
    [temp/]. *)
Definition lostVideoWorld : World :=
  {| fs := emptyFs; logFile := logFile analysedWorld; clock := 5 |}.

(** * Properties *)

(** ** The stable sort *)

Section SortFacts.

Context {A : Type}.
Variable cmp : A -> A -> Q.

Lemma insert_sorted_perm x l :
  Permutation (Js.insert_sorted cmp x l) (x :: l).
Proof.
  induction l as [|y l IH]; simpl; [reflexivity|].
  destruct (Qle_bool (cmp x y) 0); [reflexivity|].
  rewrite IH. apply perm_swap.
Qed.

Lemma sort_perm l : Permutation (Js.sort cmp l) l.
Proof.
  induction l as [|x l IH]; simpl; [reflexivity|].
  rewrite insert_sorted_perm. now constructor.
Qed.

Lemma sort_length l : List.length (Js.sort cmp l) = List.length l.
Proof. apply Permutation_length, sort_perm. Qed.

Lemma sort_In x l : List.In x (Js.sort cmp l) <-> List.In x l.
Proof.
  split; apply Permutation_in; [|symmetry]; apply sort_perm.
Qed.

(** A list that is already in order is left as it is. *)
Lemma sort_sorted_id l : StronglySorted (before cmp) l -> Js.sort cmp l = l.
Proof.
  induction 1 as [|x l Hl IH Hx]; simpl; [reflexivity|].
  rewrite IH. destruct l as [|y l']; simpl; [reflexivity|].
  inversion Hx as [|? ? Hxy _]; subst.
  unfold before in Hxy. apply Qle_bool_iff in Hxy. now rewrite Hxy.
Qed.

Hypothesis cmp_total : forall a b, before cmp a b \/ before cmp b a.
Hypothesis cmp_trans :
  forall a b c, before cmp a b -> before cmp b c -> before cmp a c.

Lemma insert_sorted_sorted x l :
  StronglySorted (before cmp) l ->
  StronglySorted (before cmp) (Js.insert_sorted cmp x l).
Proof.
  induction 1 as [|y l Hl IH Hy]; simpl.
  - repeat constructor.
  - destruct (Qle_bool (cmp x y) 0) eqn:E.
    + apply Qle_bool_iff in E. constructor; [now constructor|].
      constructor; [exact E|].
      eapply List.Forall_impl; [|exact Hy]. intros z Hz.
      now apply cmp_trans with y.
    + assert (Hyx : before cmp y x).
      { destruct (cmp_total x y) as [H|H]; [|exact H].
        apply Qle_bool_iff in H. congruence. }
      constructor; [exact IH|].
      eapply Permutation_Forall; [symmetry; apply insert_sorted_perm|].
      now constructor.
Qed.

Lemma sort_sorted l : StronglySorted (before cmp) (Js.sort cmp l).
Proof.
  induction l as [|x l IH]; simpl; [constructor|].
  now apply insert_sorted_sorted.
Qed.

(** Sorting twice is sorting once. *)
Lemma sort_idempotent l : Js.sort cmp (Js.sort cmp l) = Js.sort cmp l.
Proof. apply sort_sorted_id, sort_sorted. Qed.

End SortFacts.

(** ** The moment filter *)

Section FilterFacts.

Import VideoSummarizer.

Lemma byImportance_before a b :
  before byImportance a b <-> (importance b <= importance a)%nat.
Proof.
  unfold before, byImportance.
  change 0 with (inject_Z 0). rewrite <- Zle_Qle. lia.
Qed.

Lemma byDuration_before a b :
  before byDuration a b <-> duration b <= duration a.
Proof. unfold before, byDuration. split; intros; lra. Qed.

Lemma byStartTime_before a b :
  before byStartTime a b <-> startTime a <= startTime b.
Proof. unfold before, byStartTime. split; intros; lra. Qed.

Lemma byImportance_total a b :
  before byImportance a b \/ before byImportance b a.
Proof. rewrite !byImportance_before. lia. Qed.

Lemma byImportance_trans a b c :
  before byImportance a b -> before byImportance b c ->
  before byImportance a c.
Proof. rewrite !byImportance_before. lia. Qed.

Lemma byDuration_total a b : before byDuration a b \/ before byDuration b a.
Proof.
  rewrite !byDuration_before.
  destruct (Qlt_le_dec (duration a) (duration b)); [right|left]; lra.
Qed.

Lemma byDuration_trans a b c :
  before byDuration a b -> before byDuration b c -> before byDuration a c.
Proof. rewrite !byDuration_before. intros; lra. Qed.

Lemma byStartTime_total a b :
  before byStartTime a b \/ before byStartTime b a.
Proof.
  rewrite !byStartTime_before.
  destruct (Qlt_le_dec (startTime a) (startTime b)); [left|right]; lra.
Qed.

Lemma byStartTime_trans a b c :
  before byStartTime a b -> before byStartTime b c -> before byStartTime a c.
Proof. rewrite !byStartTime_before. intros; lra. Qed.

(** Whatever [sortMomentsBy] holds, the comparator chosen is one of the
    three, so it is a total preorder. *)
Lemma finalOrder_cases options :
  finalOrder options = byImportance \/ finalOrder options = byDuration
  \/ finalOrder options = byStartTime.
Proof.
  unfold finalOrder. destruct (sortMomentsBy options) as [s|]; [|tauto].
  destruct (String.eqb s "importance"); [tauto|].
  destruct (String.eqb s "duration"); tauto.
Qed.

Lemma finalOrder_total options a b :
  before (finalOrder options) a b \/ before (finalOrder options) b a.
Proof.
  destruct (finalOrder_cases options) as [E|[E|E]]; rewrite E;
    auto using byImportance_total, byDuration_total, byStartTime_total.
Qed.

Lemma finalOrder_trans options a b c :
  before (finalOrder options) a b -> before (finalOrder options) b c ->
  before (finalOrder options) a c.
Proof.
  destruct (finalOrder_cases options) as [E|[E|E]]; rewrite E;
    eauto using byImportance_trans, byDuration_trans, byStartTime_trans.
Qed.


Lemma length_pos_nonempty {B} (cs : list B) :
  Nat.ltb 0 (List.length cs) = true <-> cs <> [].
Proof.
  destruct cs; simpl; split; intro H; try congruence; try reflexivity.
  discriminate.
Qed.

Lemma filterByImportance_In options l x :
  List.In x (filterByImportance options l) ->
  List.In x l /\
  (forall n, minImportance options = Some n -> Js.truthyN n = true ->
             (n <= importance x)%nat).
Proof.
  unfold filterByImportance.
  destruct (minImportance options) as [n|]; [|split; [assumption|discriminate]].
  destruct (Js.truthyN n) eqn:En.
  - rewrite filter_In. intros [H1 H2]. split; [exact H1|].
    intros n' [= <-] _. now apply Nat.leb_le.
  - intros H. split; [exact H|]. intros n' [= <-]. congruence.
Qed.

Lemma filterByCategory_In options l x :
  List.In x (filterByCategory options l) ->
  List.In x l /\
  (forall cs, includeCategories options = Some cs -> cs <> [] ->
              Js.includes cs (category x) = true).
Proof.
  unfold filterByCategory.
  destruct (includeCategories options) as [cs|];
    [|split; [assumption|discriminate]].
  destruct (Nat.ltb 0 (List.length cs)) eqn:Ec.
  - rewrite filter_In. intros [H1 H2]. split; [exact H1|].
    now intros cs' [= <-] _.
  - intros H. split; [exact H|]. intros cs' [= <-] Hne.
    apply length_pos_nonempty in Hne. congruence.
Qed.

Lemma filterByDuration_In options l x :
  List.In x (filterByDuration options l) ->
  List.In x l /\
  (forall d, maxMomentDuration options = Some d -> Js.truthyQ d = true ->
             Qle_bool (duration x) d = true).
Proof.
  unfold filterByDuration.
  destruct (maxMomentDuration options) as [d|];
    [|split; [assumption|discriminate]].
  destruct (Js.truthyQ d) eqn:Ed.
  - rewrite filter_In. intros [H1 H2]. split; [exact H1|].
    now intros d' [= <-] _.
  - intros H. split; [exact H|]. intros d' [= <-]. congruence.
Qed.

Lemma filters_In options l x :
  List.In x (filters options l) -> List.In x l /\ passes options x.
Proof.
  unfold filters, passes. intros H.
  apply filterByDuration_In in H as [H Hd].
  apply filterByCategory_In in H as [H Hc].
  apply filterByImportance_In in H as [H Hi].
  auto.
Qed.


Lemma slice0_In {B} n (l : list B) x :
  List.In x (Js.slice0 n l) -> List.In x l.
Proof.
  unfold Js.slice0. intros H. rewrite <- (firstn_skipn n l).
  apply in_or_app. now left.
Qed.

Lemma limitMoments_In options l x :
  List.In x (limitMoments options l) -> List.In x l.
Proof.
  unfold limitMoments. destruct (maxMoments options) as [n|]; [|trivial].
  destruct (Js.truthyN n && Nat.ltb n (List.length l)); [|trivial].
  intros H. apply (sort_In byImportance).
  revert H. apply slice0_In.
Qed.

Lemma limitMoments_length options l n :
  maxMoments options = Some n -> Js.truthyN n = true ->
  (List.length (limitMoments options l) <= n)%nat.
Proof.
  intros E Hn. unfold limitMoments. rewrite E, Hn. simpl.
  destruct (Nat.ltb n (List.length l)) eqn:El.
  - unfold Js.slice0. rewrite length_firstn. lia.
  - apply Nat.ltb_ge in El. exact El.
Qed.

Lemma limitMoments_id options l :
  (forall n, maxMoments options = Some n -> Js.truthyN n = true ->
             (List.length l <= n)%nat) ->
  limitMoments options l = l.
Proof.
  intros H. unfold limitMoments.
  destruct (maxMoments options) as [n|] eqn:E; [|reflexivity].
  destruct (Js.truthyN n) eqn:En; [|reflexivity]. simpl.
  specialize (H n eq_refl En).
  apply Nat.ltb_ge in H. now rewrite H.
Qed.

Lemma filterMoments_unfold moments options :
  filterMoments moments options =
  Js.sort (finalOrder options) (limitMoments options (filters options moments)).
Proof. reflexivity. Qed.

Lemma filterMoments_In moments options x :
  List.In x (filterMoments moments options) ->
  List.In x moments /\ passes options x.
Proof.
  rewrite filterMoments_unfold, sort_In. intros H.
  apply limitMoments_In in H. now apply filters_In in H.
Qed.

Lemma truthyN_nonzero n : Js.truthyN n = true <-> n <> 0%nat.
Proof.
  unfold Js.truthyN. rewrite negb_true_iff, Nat.eqb_neq. reflexivity.
Qed.

Lemma includes_In cs c : Js.includes cs c = true <-> List.In c cs.
Proof.
  unfold Js.includes. rewrite existsb_exists. split.
  - intros (x & Hx & E). apply String.eqb_eq in E. now subst.
  - intros H. exists c. split; [exact H|]. apply String.eqb_refl.
Qed.

Lemma requestedOrder_before options a b :
  before (finalOrder options) a b <-> requestedOrder options a b.
Proof.
  unfold finalOrder, requestedOrder.
  destruct (sortMomentsBy options) as [s|]; [|apply byStartTime_before].
  destruct (String.eqb s "importance"); [apply byImportance_before|].
  destruct (String.eqb s "duration");
    [apply byDuration_before|apply byStartTime_before].
Qed.

Lemma StronglySorted_weaken {B} (R S : B -> B -> Prop) l :
  (forall a b, R a b -> S a b) -> StronglySorted R l -> StronglySorted S l.
Proof.
  intros HRS. induction 1 as [|x l Hl IH Hx]; constructor; [exact IH|].
  eapply List.Forall_impl; [|exact Hx]. intros b. apply HRS.
Qed.

Lemma filterMoments_sorted moments options :
  StronglySorted (requestedOrder options) (filterMoments moments options).
Proof.
  rewrite filterMoments_unfold.
  eapply StronglySorted_weaken;
    [|apply sort_sorted; [apply finalOrder_total|apply finalOrder_trans]].
  intros a b. apply requestedOrder_before.
Qed.

End FilterFacts.

Section FilterTheorems.

Import VideoSummarizer.

Lemma filterMoments_length_le moments options n :
  maxMoments options = Some n -> n <> 0%nat ->
  (List.length (filterMoments moments options) <= n)%nat.
Proof.
  intros E Hn. rewrite filterMoments_unfold, sort_length.
  apply limitMoments_length; [exact E|]. now apply truthyN_nonzero.
Qed.

(** C2 (as amended).  For every moment list and every options object, each
    moment of the output of [filterMoments] has an importance of at least
    [minImportance] when that is set, has its category in
    [includeCategories] when that list is set and non-empty, the output
    has at most [maxMoments] elements when [maxMoments] is set to a
    number other than zero, and the output is in the order
    [sortMomentsBy] asks for: descending importance, descending
    duration, or ascending start time otherwise.  For eight moments of
    importances 9, 3, 7, 8, 2, 6, 5, 4 with [minImportance] 5,
    [maxMoments] 3 and order "importance" the output is the first, the
    fourth and the third moment, of importances 9, 8, 7. *)
Theorem filterMoments_contract :
  (forall (moments : list Moment) (options : FilterOptions),
      let out := filterMoments moments options in
      (forall n, minImportance options = Some n ->
                 Forall (fun m => (n <= importance m)%nat) out) /\
      (forall cs, includeCategories options = Some cs -> cs <> [] ->
                  Forall (fun m => List.In (category m) cs) out) /\
      (forall n, maxMoments options = Some n -> n <> 0%nat ->
                 (List.length out <= n)%nat) /\
      StronglySorted (requestedOrder options) out) /\
  (forall m0 m1 m2 m3 m4 m5 m6 m7 : Moment,
      List.map importance [m0; m1; m2; m3; m4; m5; m6; m7]
      = [9; 3; 7; 8; 2; 6; 5; 4]%nat ->
      filterMoments [m0; m1; m2; m3; m4; m5; m6; m7] scenarioOptions
      = [m0; m3; m2]).
Proof.
  split.
  - intros moments options out. repeat split.
    + intros n E. apply List.Forall_forall. intros m Hm.
      apply filterMoments_In in Hm as [_ (Hi & _ & _)].
      destruct n as [|n']; [lia|]. now apply Hi.
    + intros cs E Hne. apply List.Forall_forall. intros m Hm.
      apply filterMoments_In in Hm as [_ (_ & Hc & _)].
      apply includes_In. now apply Hc.
    + intros n E Hn. now apply filterMoments_length_le.
    + apply filterMoments_sorted.
  - intros [] [] [] [] [] [] [] []. simpl. intros [= -> -> -> -> -> -> -> ->].
    reflexivity.
Qed.

Lemma filterMoments_contract_witness :
  Forall (fun m => (5 <= importance m)%nat)
         (filterMoments scenarioMoments scenarioOptions) /\
  (List.length (filterMoments scenarioMoments scenarioOptions) <= 3)%nat /\
  List.map importance (filterMoments scenarioMoments scenarioOptions)
  = [9; 8; 7]%nat.
Proof.
  destruct filterMoments_contract as [General Scenario].
  destruct (General scenarioMoments scenarioOptions) as (Hi & _ & Hn & _).
  split; [apply (Hi 5%nat); reflexivity|].
  split; [apply (Hn 3%nat); [reflexivity|lia]|].
  unfold scenarioMoments. rewrite Scenario; reflexivity.
Defined.

Lemma filterMoments_maxMoments_zero :
  maxMoments zeroLimit = Some 0%nat /\
  ~ (List.length (filterMoments [scenarioMoment 9 10] zeroLimit) <= 0)%nat.
Proof. split; [reflexivity|]. simpl. lia. Qed.


End FilterTheorems.

(** ** Timestamp repair and validity check of the analyzer *)

Section AnalyzerFacts.

Import MomentAnalyzer.

Lemma Qltb_lt x y : Js.Qltb x y = true <-> x < y.
Proof.
  unfold Js.Qltb. rewrite negb_true_iff. split.
  - intros H. apply Qnot_le_lt. intros Hle.
    apply Qle_bool_iff in Hle. congruence.
  - intros H. destruct (Qle_bool y x) eqn:E; [|reflexivity].
    apply Qle_bool_iff in E. lra.
Qed.

Lemma Qltb_ge x y : Js.Qltb x y = false <-> y <= x.
Proof.
  unfold Js.Qltb. rewrite negb_false_iff. apply Qle_bool_iff.
Qed.

Lemma fixTimestamp_minutes t : 1 < t -> t < 10 -> fixTimestamp t = t * 60.
Proof.
  intros H1 H10. unfold fixTimestamp.
  apply Qltb_lt in H1, H10. now rewrite H1, H10.
Qed.

Lemma fixTimestamp_seconds t : t <= 1 \/ 10 <= t -> fixTimestamp t = t.
Proof.
  intros H. unfold fixTimestamp.
  destruct H as [H|H]; apply Qltb_ge in H; rewrite H;
    [now rewrite andb_false_r|reflexivity].
Qed.

Lemma isValid_range d m :
  isValid d m = true <->
  0 <= startTime m /\ startTime m < endTime m /\ endTime m <= d.
Proof.
  unfold isValid. rewrite !andb_true_iff, !Qle_bool_iff, Qltb_lt. tauto.
Qed.

Lemma validateMoments_In d raw m' :
  List.In m' (validateMoments d raw) <->
  exists m, List.In m raw /\ m' = fixMoment m /\
            0 <= startTime m' /\ startTime m' < endTime m' /\ endTime m' <= d.
Proof.
  unfold validateMoments. rewrite filter_In, in_map_iff, isValid_range.
  split.
  - intros [(m & <- & Hm) Hr]. exists m. auto.
  - intros (m & Hm & -> & Hr). split; [exists m; auto|exact Hr].
Qed.

(** C6.  Every moment of the raw detector output has a start or end time
    that lies strictly between 1 and 10 multiplied by 60, and any other
    time left as it is, before the check [0 <= startTime < endTime <=
    videoDuration] is made; the moments [parseGeminiResponse] keeps are
    exactly the repaired moments that pass the check, in their order.  A
    moment reported with start 1.5 and end 3.2 has start 90 and end 192
    when it is checked. *)
Theorem timestamps_repaired_before_validation :
  (forall t, (1 < t -> t < 10 -> fixTimestamp t = t * 60) /\
             (t <= 1 \/ 10 <= t -> fixTimestamp t = t)) /\
  (forall (videoDuration : Q) (raw : list Moment),
      validateMoments videoDuration raw
      = List.filter (isValid videoDuration) (List.map fixMoment raw) /\
      forall m', List.In m' (validateMoments videoDuration raw) <->
                 exists m, List.In m raw /\ m' = fixMoment m /\
                           0 <= startTime m' /\ startTime m' < endTime m' /\
                           endTime m' <= videoDuration) /\
  (forall jsonDecode responseText transcription analysis m raw,
      jsonDecode responseText = Some analysis ->
      keyMoments analysis = Some (m :: raw) ->
      keyMoments (MomentAnalyzer.analysis
                    (parseGeminiResponse jsonDecode responseText transcription))
      = Some (validateMoments (videoDurationOf transcription analysis)
                              (m :: raw))) /\
  (forall m : Moment,
      startTime m == 15 # 10 -> endTime m == 32 # 10 ->
      startTime (fixMoment m) == 90 /\ endTime (fixMoment m) == 192).
Proof.
  repeat split.
  - apply fixTimestamp_minutes.
  - apply fixTimestamp_seconds.
  - apply validateMoments_In.
  - apply validateMoments_In.
  - intros jsonDecode responseText transcription analysis m raw E1 E2.
    unfold parseGeminiResponse. now rewrite E1, E2.
  - simpl. rewrite fixTimestamp_minutes by lra. lra.
  - simpl. rewrite fixTimestamp_minutes by lra. lra.
Qed.

Lemma timestamps_repaired_before_validation_witness :
  fixTimestamp (15 # 10) = (15 # 10) * 60 /\
  (startTime (fixMoment reportedMoment) == 90 /\
   endTime (fixMoment reportedMoment) == 192) /\
  List.In (fixMoment reportedMoment) (validateMoments 300 [reportedMoment]).
Proof.
  destruct timestamps_repaired_before_validation as (Fix & Keep & _ & Example).
  split; [apply (Fix (15 # 10)); reflexivity|].
  split; [apply (Example reportedMoment); reflexivity|].
  apply (Keep 300 [reportedMoment]). exists reportedMoment.
  split; [now left|]. split; [reflexivity|]. vm_compute. intuition discriminate.
Defined.

End AnalyzerFacts.

(** ** The heuristic fallback of the analyzer *)

Section FallbackFacts.

Import MomentAnalyzer.

Lemma generateMomentTitle_nonempty segments s e :
  generateMomentTitle segments s e <> ""%string.
Proof.
  unfold generateMomentTitle.
  repeat match goal with
         | |- context [if ?b then _ else _] => destruct b
         end; discriminate.
Qed.

Lemma scanSegment_populated segments duration st segment :
  Forall populated (moments st) ->
  Forall populated (moments (scanSegment segments duration st segment)).
Proof.
  intros H. unfold scanSegment.
  destruct (_ || _); [|exact H].
  destruct (Js.Qltb _ _); [|exact H]. simpl.
  apply Forall_app. split; [exact H|].
  constructor; [|constructor].
  unfold populated; simpl.
  repeat split; try discriminate; try lia.
  apply generateMomentTitle_nonempty.
Qed.

Lemma scanSegment_untouched segments duration st segment :
  untouched st -> untouched (scanSegment segments duration st segment).
Proof.
  intros H. unfold scanSegment.
  destruct (_ || _); [|exact H].
  destruct (Js.Qltb _ _); [|exact H].
  left. simpl. destruct (moments st); discriminate.
Qed.

Lemma scan_invariants segments duration l st :
  Forall populated (moments st) -> untouched st ->
  let st' := List.fold_left (scanSegment segments duration) l st in
  Forall populated (moments st') /\ untouched st'.
Proof.
  revert st. induction l as [|segment l IH]; simpl; intros st Hp Hu.
  - auto.
  - apply IH; [now apply scanSegment_populated|now apply scanSegment_untouched].
Qed.

Lemma equalSplit_populated segments duration :
  Forall populated (equalSplit segments duration).
Proof.
  unfold equalSplit. simpl.
  repeat constructor; simpl; try discriminate; try lia;
    apply generateMomentTitle_nonempty.
Qed.

Lemma fallbackMoments_populated transcription :
  Forall populated (fallbackMoments transcription).
Proof.
  unfold fallbackMoments.
  set (segments := default [] (t_segments transcription)).
  set (duration := Js.orQ (t_duration transcription) 0).
  destruct (scan_invariants segments duration segments
              {| moments := []; currentMomentStart := 0; lastMomentEnd := 0 |})
    as [Hp _]; [constructor|now right|].
  destruct (_ && _); [apply equalSplit_populated|].
  destruct (Js.Qltb _ _); [|exact Hp].
  apply Forall_app. split; [exact Hp|].
  constructor; [|constructor].
  unfold populated; simpl.
  repeat split; try discriminate; try lia.
  apply generateMomentTitle_nonempty.
Qed.

Lemma orQ_some d : ~ d == 0 -> Js.orQ (Some d) 0 = d.
Proof.
  intros H. unfold Js.orQ, Js.truthyQ.
  destruct (Qeq_bool d 0) eqn:E; [|reflexivity].
  apply Qeq_bool_iff in E. contradiction.
Qed.

Lemma fallbackMoments_nonempty transcription d :
  t_duration transcription = Some d -> 10 < d ->
  fallbackMoments transcription <> [].
Proof.
  intros E Hd. unfold fallbackMoments. rewrite E.
  rewrite orQ_some by lra.
  set (segments := default [] (t_segments transcription)).
  destruct (scan_invariants segments d segments
              {| moments := []; currentMomentStart := 0; lastMomentEnd := 0 |})
    as [_ Hu]; [constructor|now right|].
  destruct (_ && _); [unfold equalSplit; discriminate|].
  destruct (Js.Qltb _ _) eqn:Ef.
  - destruct (moments _); discriminate.
  - destruct Hu as [Hu|Hu]; [exact Hu|].
    rewrite Hu in Ef. apply Qltb_ge in Ef. lra.
Qed.

(** C3 (as amended).  When the response of the moment-detection service
    cannot be decoded, or decodes to a document without key moments,
    [parseGeminiResponse] does not fail: it answers with the result of the
    heuristic generator [createLiberalFallback] (topic-keyword boundaries
    over the transcript segments, or the equal three-way split), marked
    successful.  Every moment of the fallback list has the fields of the
    Moment schema filled in (a non-empty title, description, reason and
    workflow context, the category "workflow_phase", an importance from 5
    to 7, and its two times), and the list is non-empty whenever the
    transcription carries a [duration] of more than 10 seconds. *)
Theorem parse_fault_falls_back :
  forall (jsonDecode : string -> option Analysis) (responseText : string)
         (transcription : Transcription),
    unusable (jsonDecode responseText) ->
    let result := parseGeminiResponse jsonDecode responseText transcription in
    result = createLiberalFallback transcription (jsonDecode responseText) /\
    success result = true /\
    provider result = "liberal-fallback"%string /\
    keyMoments (analysis result) = Some (fallbackMoments transcription) /\
    Forall populated (fallbackMoments transcription) /\
    (forall d, t_duration transcription = Some d -> 10 < d ->
               fallbackMoments transcription <> []).
Proof.
  intros jsonDecode responseText transcription E result.
  assert (R : result
              = createLiberalFallback transcription (jsonDecode responseText)).
  { unfold result, parseGeminiResponse.
    destruct (jsonDecode responseText) as [a|]; [|reflexivity].
    destruct E as [E|E]; now rewrite E. }
  rewrite R. repeat split.
  - apply fallbackMoments_populated.
  - apply fallbackMoments_nonempty.
Qed.

Lemma parse_fault_falls_back_witness :
  fallbackMoments longTranscript <> [] /\
  Forall populated (fallbackMoments longTranscript).
Proof.
  destruct (parse_fault_falls_back (fun _ => None) "not json" longTranscript I)
    as (_ & _ & _ & _ & Hp & Hn).
  split; [|exact Hp].
  apply (Hn 90); [reflexivity|reflexivity].
Defined.

(** The fallback returns no moment for the five-second transcript. *)
Lemma fallback_empty_for_short_transcript :
  t_text shortTranscript <> None /\
  t_segments shortTranscript <> Some [] /\
  keyMoments (analysis (parseGeminiResponse (fun _ => None) "not json"
                                            shortTranscript))
  = Some [].
Proof. repeat split; try discriminate. Qed.

(** The transcription object the handlers store has neither [segments]
    nor [duration], so for it the fallback never returns a moment. *)
Lemma fallback_empty_for_stored_transcription :
  forall p, fallbackMoments (TranscriptionService.asAnalyzerInput p) = [].
Proof. intros p. reflexivity. Qed.

End FallbackFacts.

(** ** Composition statistics *)

Section ComposerFacts.

Import VideoComposer.








(** In binary64 the examples of the specification come out as the same
    numbers: 1.5 and 3.2 are repaired to 90 and 192, the unrounded ratios
    are 60 and -20, and [Math.round(x * 100) / 100] is then taken of the
    integers 6000 and -2000. *)
#[warnings="-inexact-float"]
Lemma binary64_examples :
  (Binary64.fixTimestamp 1.5 =? 90)%float = true /\
  (Binary64.fixTimestamp 3.2 =? 192)%float = true /\
  (Binary64.compressionRatio 100 40 =? 60)%float = true /\
  (Binary64.compressionRatio 100 120 =? -20)%float = true /\
  (60 * 100 =? 6000)%float = true /\ (6000 / 100 =? 60)%float = true /\
  (-20 * 100 =? -2000)%float = true /\ (-2000 / 100 =? -20)%float = true.
Proof. repeat split. Qed.

End ComposerFacts.

(** ** The job log and the stage handlers *)

Section JobLogFacts.

Import JobLog Server.

Lemma find_filter_earliest (p q : StageEvent -> bool) l e :
  Js.find p (List.filter q l) = Some e ->
  exists earlier later,
    l = earlier ++ e :: later /\ q e = true /\ p e = true /\
    forall x, List.In x earlier -> q x = true -> p x = false.
Proof.
  unfold Js.find. induction l as [|x l IH]; simpl; [discriminate|].
  destruct (q x) eqn:Eq; simpl.
  - destruct (p x) eqn:Ep.
    + intros [= <-]. exists [], l. repeat split; auto. intros ? [].
    + intros H. destruct (IH H) as (earlier & later & -> & Hq & Hp & Hfirst).
      exists (x :: earlier), later. repeat split; auto.
      intros y [<-|Hy] Hqy; auto.
  - intros H. destruct (IH H) as (earlier & later & -> & Hq & Hp & Hfirst).
    exists (x :: earlier), later. repeat split; auto.
    intros y [<-|Hy] Hqy; [congruence|auto].
Qed.

Lemma find_getJobLogs_earliest p job w e :
  Js.find p (getJobLogs job w) = Some e -> earliest job p w e.
Proof.
  intros H. apply find_filter_earliest in H
    as (earlier & later & E & Hq & Hp & Hfirst).
  exists earlier, later. repeat split; auto.
  - now apply String.eqb_eq.
  - intros x Hx Hj. apply Hfirst; [exact Hx|]. now apply String.eqb_eq.
Qed.

Lemma find_app_some {B} (p : B -> bool) l l' e :
  Js.find p l = Some e -> Js.find p (l ++ l') = Some e.
Proof.
  unfold Js.find. induction l as [|x l IH]; simpl; [discriminate|].
  destruct (p x); auto.
Qed.

Lemma getJobLogs_logActivity job job' kind d w :
  getJobLogs job (logActivity job' kind d w)
  = getJobLogs job w
    ++ (if String.eqb job' job
        then [ {| timestamp := clock w; jobId := job'; activity := kind;
                  details := d |} ]
        else []).
Proof.
  unfold getJobLogs, logActivity. simpl. rewrite List.filter_app. reflexivity.
Qed.

(** An event appended later never replaces the one a lookup has found. *)
Lemma find_after_logActivity p job job' kind d w e :
  Js.find p (getJobLogs job w) = Some e ->
  Js.find p (getJobLogs job (logActivity job' kind d w)) = Some e.
Proof.
  intros H. rewrite getJobLogs_logActivity. now apply find_app_some.
Qed.

(** C1 (as amended).  For every job and every log, each stage resolves
    its prerequisite from the first-appended matching event of the job:
    transcribe from the first [audio_extraction_completed] event,
    analyze-moments from the first [transcription_completed],
    [audio_extraction_completed] and [processing_started] events,
    create-summary and quick-summary from the first
    [moment_analysis_completed] and [processing_started] events, and
    get-summary from the first event of one of the three summary kinds.
    An event appended afterwards does not change what a stage resolves. *)
Theorem stages_resolve_earliest_event :
  forall (job : string) (w : World),
    let logs := getJobLogs job w in
    (forall e, transcribePrerequisite logs = Some e ->
               earliest job (hasActivity "audio_extraction_completed") w e) /\
    (forall e, fst (fst (analyzePrerequisites logs)) = Some e ->
               earliest job (hasActivity "transcription_completed") w e) /\
    (forall e, snd (fst (analyzePrerequisites logs)) = Some e ->
               earliest job (hasActivity "audio_extraction_completed") w e) /\
    (forall e, snd (analyzePrerequisites logs) = Some e ->
               earliest job (hasActivity "processing_started") w e) /\
    (forall momentLog processingLog,
        summaryPrerequisites logs = Some (momentLog, processingLog) ->
        earliest job (hasActivity "moment_analysis_completed") w momentLog /\
        earliest job (hasActivity "processing_started") w processingLog) /\
    (forall e, summaryPrerequisite logs = Some e ->
               earliest job isSummaryEvent w e) /\
    (forall job' kind d,
        let logs' := getJobLogs job (logActivity job' kind d w) in
        (forall e, transcribePrerequisite logs = Some e ->
                   transcribePrerequisite logs' = Some e) /\
        (forall t a p, analyzePrerequisites logs = (Some t, Some a, Some p) ->
                       analyzePrerequisites logs' = (Some t, Some a, Some p)) /\
        (forall r, summaryPrerequisites logs = Some r ->
                   summaryPrerequisites logs' = Some r) /\
        (forall e, summaryPrerequisite logs = Some e ->
                   summaryPrerequisite logs' = Some e)).
Proof.
  intros job w logs. unfold logs.
  repeat match goal with |- _ /\ _ => split end.
  - intros e. apply find_getJobLogs_earliest.
  - intros e. apply find_getJobLogs_earliest.
  - intros e. apply find_getJobLogs_earliest.
  - intros e. apply find_getJobLogs_earliest.
  - intros momentLog processingLog. unfold summaryPrerequisites.
    destruct (Js.find (hasActivity "moment_analysis_completed") _) eqn:E1;
      [|discriminate].
    destruct (Js.find (hasActivity "processing_started") _) eqn:E2;
      [|discriminate].
    intros [= <- <-]. split; now apply find_getJobLogs_earliest.
  - intros e. apply find_getJobLogs_earliest.
  - intros job' kind d. cbv zeta.
    repeat match goal with |- _ /\ _ => split end.
    + intros e. apply find_after_logActivity.
    + intros t a p. unfold analyzePrerequisites. intros [= E1 E2 E3].
      now rewrite (find_after_logActivity _ _ job' kind d _ _ E1),
                  (find_after_logActivity _ _ job' kind d _ _ E2),
                  (find_after_logActivity _ _ job' kind d _ _ E3).
    + intros [momentLog processingLog]. unfold summaryPrerequisites.
      destruct (Js.find (hasActivity "moment_analysis_completed")
                        (getJobLogs job w)) eqn:E1; [|discriminate].
      destruct (Js.find (hasActivity "processing_started")
                        (getJobLogs job w)) eqn:E2; [|discriminate].
      intros [= <- <-].
      now rewrite (find_after_logActivity _ _ job' kind d _ _ E1),
                  (find_after_logActivity _ _ job' kind d _ _ E2).
    + intros e. apply find_after_logActivity.
Qed.

Lemma stages_resolve_earliest_event_witness :
  earliest "job1" (hasActivity "audio_extraction_completed") rerunWorld
           firstAudioEvent.
Proof.
  apply (proj1 (stages_resolve_earliest_event "job1" rerunWorld)).
  reflexivity.
Defined.

(** On that log the transcribe stage resolves the first event, where the
    latest event is the second and names another audio file; the stage
    transcribes the file of the first event. *)
Lemma transcribe_resolves_first_not_latest :
  transcribePrerequisite (getJobLogs "job1" rerunWorld)
  = Some firstAudioEvent /\
  findLatest "job1" "audio_extraction_completed" rerunWorld
  = Some secondAudioEvent /\
  audioFileOf (details firstAudioEvent)
  <> audioFileOf (details secondAudioEvent) /\
  List.map details
    (List.skipn 2 (logFile (fst (transcribe echoTranscriber "job1"
                                            defaultRequest rerunWorld))))
  = [ TranscriptionStarted (Fs.TempPath "first.wav");
      TranscriptionCompleted
        {| TranscriptionService.fullText := "first.wav";
           TranscriptionService.timestampedSegments := [];
           TranscriptionService.totalDuration := 60;
           TranscriptionService.pt_language := "en" |} ].
Proof.
  split; [reflexivity|]. split; [reflexivity|]. split; [discriminate|].
  vm_compute. reflexivity.
Qed.

End JobLogFacts.

Section StageFacts.

Import JobLog Server.

Variable transcribeAudio :
  Fs.FileSystem -> Fs.Path -> string -> option string ->
  Js.Outcome Error TranscriptionService.WhisperResult.
Variable generateContent :
  Fs.FileSystem -> Fs.Path -> MomentAnalyzer.Transcription -> option string.
Variable jsonDecode : string -> option MomentAnalyzer.Analysis.
Variable produceSummary :
  Fs.FileSystem -> option Fs.Path -> list Moment -> SummaryOptions -> string ->
  Fs.FileSystem * Js.Outcome Error SummaryResult.

(** Past its prerequisite check, the transcribe stage appends its
    [transcription_started] event and then exactly one event for the
    outcome: [transcription_completed] with the processed transcription,
    or [transcription_failed] with the error. *)
Lemma transcribe_logs_one_outcome job req w audioLog audioFile :
  transcribePrerequisite (getJobLogs job w) = Some audioLog ->
  audioFileOf (details audioLog) = Some audioFile ->
  Js.truthyS audioFile && Fs.existsSync (fs w) (Fs.TempPath audioFile) = true ->
  let audioPath := Fs.TempPath audioFile in
  let started := event w job "transcription_started"
                       (TranscriptionStarted audioPath) in
  let (w', response) := transcribe transcribeAudio job req w in
  match transcribeAudio (fs w) audioPath (Js.orS (req_language req) "en")
                        (req_prompt req) with
  | Js.Ok transcription =>
      logFile w' = logFile w ++
        [ started;
          event w job "transcription_completed"
            (TranscriptionCompleted
               (TranscriptionService.processTranscriptionForAnalysis
                  transcription)) ]
      /\ status response = 200%nat
  | Js.Throw error =>
      logFile w' = logFile w ++
        [ started; event w job "transcription_failed" (Failed error) ]
      /\ status response = 500%nat
  end.
Proof.
  intros E1 E2 E3. unfold transcribe. rewrite E1, E2, E3. simpl.
  destruct (transcribeAudio _ _ _ _); simpl;
    rewrite <- app_assoc; split; reflexivity.
Qed.

(** The analyze-moments stage: the analyzer never throws (a failed model
    call or an undecodable response yields a fallback result), so the one
    outcome event is [moment_analysis_completed] with that result. *)
Lemma analyzeMoments_logs_one_outcome job w transcriptionLog audioLog
      processingLog processingFile stored :
  analyzePrerequisites (getJobLogs job w)
  = (Some transcriptionLog, Some audioLog, Some processingLog) ->
  processingFileOf (details processingLog) = Some processingFile ->
  Fs.existsSync (fs w) (Fs.TempPath processingFile) = true ->
  transcriptionOf (details transcriptionLog) = Some stored ->
  let videoPath := Fs.TempPath processingFile in
  let transcription := TranscriptionService.asAnalyzerInput stored in
  let analysis :=
    MomentAnalyzer.analyzeKeyMoments jsonDecode
      (generateContent (fs w) videoPath transcription) transcription in
  let (w', response) := analyzeMoments generateContent jsonDecode job w in
  logFile w' = logFile w ++
    [ event w job "moment_analysis_started" (MomentAnalysisStarted videoPath);
      event w job "moment_analysis_completed"
            (MomentAnalysisCompleted analysis) ]
  /\ status response = 200%nat.
Proof.
  intros E1 E2 E3 E4. unfold analyzeMoments. rewrite E1, E2, E3, E4. simpl.
  rewrite <- app_assoc. split; reflexivity.
Qed.

(** The same for the create-summary stage. *)
Lemma createSummary_logs_one_outcome job options w momentLog processingLog
      processingFile :
  summaryPrerequisites (getJobLogs job w) = Some (momentLog, processingLog) ->
  processingFileOf (details processingLog) = Some processingFile ->
  Fs.existsSync (fs w) (Fs.TempPath processingFile) = true ->
  keyMomentsOf (details momentLog) <> [] ->
  let moments := keyMomentsOf (details momentLog) in
  let started := event w job "video_summarization_started"
                       (SummarizationStarted (List.length moments) options) in
  let (w', response) := createSummary produceSummary job options w in
  match VideoSummarizer.createVideoSummary produceSummary
          (Some (Fs.TempPath processingFile))
          (List.map VideoSummarizer.untimed moments) options job (fs w) with
  | (_, Js.Ok summaryResult) =>
      logFile w' = logFile w ++
        [ started;
          event w job "video_summarization_completed"
                (ResultDetails summaryResult) ]
      /\ status response = 200%nat
  | (_, Js.Throw error) =>
      logFile w' = logFile w ++
        [ started; event w job "video_summarization_failed" (Failed error) ]
      /\ status response = 500%nat
  end.
Proof.
  intros E1 E2 E3 E4. unfold createSummary. rewrite E1, E2, E3. simpl.
  destruct (keyMomentsOf (details momentLog)) as [|m ms] eqn:Ek;
    [congruence|]. simpl Nat.eqb. cbv iota.
  destruct (VideoSummarizer.createVideoSummary _ _ _ _ _ _) as [fs' [s|e]];
    simpl; rewrite <- app_assoc; split; reflexivity.
Qed.

(** The quick-summary stage appends its one [quick_summary_completed]
    event on success. *)
Lemma quickSummary_success_logged job w momentLog processingLog
      processingFile fs' summaryResult :
  summaryPrerequisites (getJobLogs job w) = Some (momentLog, processingLog) ->
  processingFileOf (details processingLog) = Some processingFile ->
  VideoSummarizer.createQuickSummary produceSummary
    (Some (Fs.TempPath processingFile))
    (List.map VideoSummarizer.untimed (keyMomentsOf (details momentLog)))
    job (fs w) = (fs', Js.Ok summaryResult) ->
  logFile (fst (quickSummary produceSummary job w))
  = logFile w ++ [ event w job "quick_summary_completed"
                         (ResultDetails summaryResult) ].
Proof.
  intros E1 E2 E3. unfold quickSummary. rewrite E1, E2, E3. reflexivity.
Qed.

(** On failure its [catch] block answers 500 and appends nothing. *)
Lemma quickSummary_failure_appends_nothing job w momentLog processingLog
      processingFile fs' error :
  summaryPrerequisites (getJobLogs job w) = Some (momentLog, processingLog) ->
  processingFileOf (details processingLog) = Some processingFile ->
  VideoSummarizer.createQuickSummary produceSummary
    (Some (Fs.TempPath processingFile))
    (List.map VideoSummarizer.untimed (keyMomentsOf (details momentLog)))
    job (fs w) = (fs', Js.Throw error) ->
  logFile (fst (quickSummary produceSummary job w)) = logFile w /\
  snd (quickSummary produceSummary job w)
  = {| status := 500;
       body := ErrorBody "Quick summary failed" (Some error) |}.
Proof.
  intros E1 E2 E3. unfold quickSummary. rewrite E1, E2, E3. split; reflexivity.
Qed.

End StageFacts.

Section QuickSummaryFailure.

Import JobLog Server.

(** C4, at the failing input.  The quick-summary stage is invoked for a
    job whose prerequisites are in the log and whose video is in place;
    the media tool fails, so the summarizer throws.  The handler answers
    500 and leaves the log as it was: no [*_failed] event is appended.
    The create-summary stage, on the same input, appends its
    [video_summarization_started] event and one
    [video_summarization_failed] event that carries the error. *)
Theorem quickSummary_failure_is_not_logged :
  summaryPrerequisites (getJobLogs "job1" analysedWorld) <> None /\
  quickSummary failingTool "job1" analysedWorld
  = (analysedWorld,
     {| status := 500;
        body := ErrorBody "Quick summary failed" (Some toolFailure) |}) /\
  logFile (fst (createSummary failingTool "job1"
                              VideoSummarizer.quickOptions analysedWorld))
  = logFile analysedWorld ++
    [ event analysedWorld "job1" "video_summarization_started"
            (SummarizationStarted 1 VideoSummarizer.quickOptions);
      event analysedWorld "job1" "video_summarization_failed"
            (Failed toolFailure) ].
Proof.
  split; [discriminate|]. split; vm_compute; reflexivity.
Qed.

End QuickSummaryFailure.

(** ** Cleanup of a job *)

Section CleanupFacts.

Import VideoSummarizer.

Lemma cleanupSegments_absent job fs :
  Fs.segments fs !! job = None ->
  VideoSegmenter.cleanupSegments job fs = (fs, noSegments).
Proof.
  intros E. unfold VideoSegmenter.cleanupSegments. simpl. now rewrite E.
Qed.

Lemma cleanupSegments_effect job fs :
  let fs' := fst (VideoSegmenter.cleanupSegments job fs) in
  Fs.segments fs' !! job = None /\
  Fs.thumbnails fs' = Fs.thumbnails fs /\
  Fs.output fs' = Fs.output fs /\ Fs.temp fs' = Fs.temp fs.
Proof.
  unfold VideoSegmenter.cleanupSegments. simpl.
  destruct (Fs.segments fs !! job) eqn:E; simpl.
  - rewrite lookup_delete_eq. auto.
  - auto.
Qed.

Lemma cleanupThumbnails_absent job fs :
  Fs.thumbnails fs !! job = None ->
  cleanupThumbnails job fs = (fs, nothingDeleted).
Proof. intros E. unfold cleanupThumbnails. simpl. now rewrite E. Qed.

Lemma cleanupThumbnails_effect job fs :
  let fs' := fst (cleanupThumbnails job fs) in
  Fs.thumbnails fs' !! job = None /\
  Fs.segments fs' = Fs.segments fs /\
  Fs.output fs' = Fs.output fs /\ Fs.temp fs' = Fs.temp fs.
Proof.
  unfold cleanupThumbnails. simpl.
  destruct (Fs.thumbnails fs !! job) eqn:E; simpl.
  - rewrite lookup_delete_eq. auto.
  - auto.
Qed.

Lemma unlinkOutput_effect fs n name :
  let st := unlinkOutput (fs, n) name in
  Fs.output (fst st) = delete name (Fs.output fs) /\
  Fs.segments (fst st) = Fs.segments fs /\
  Fs.thumbnails (fst st) = Fs.thumbnails fs /\
  Fs.temp (fst st) = Fs.temp fs.
Proof.
  unfold unlinkOutput. simpl.
  destruct (Fs.output fs !! name) eqn:E; simpl; [auto|].
  repeat split. symmetry. now apply delete_id.
Qed.

Lemma unlinkOutput_absent fs n name :
  Fs.output fs !! name = None -> unlinkOutput (fs, n) name = (fs, n).
Proof. intros E. unfold unlinkOutput. simpl. now rewrite E. Qed.

Lemma cleanupOutput_absent job fs :
  Fs.output fs !! ("summary_" ++ job ++ ".mp4")%string = None ->
  Fs.output fs !! ("summary_" ++ job ++ "_preview.mp4")%string = None ->
  cleanupOutput job fs = (fs, nothingDeleted).
Proof.
  intros E1 E2. unfold cleanupOutput. cbn [List.fold_left].
  rewrite (unlinkOutput_absent _ _ _ E1), (unlinkOutput_absent _ _ _ E2).
  reflexivity.
Qed.

Lemma cleanupOutput_effect job fs :
  let fs' := fst (cleanupOutput job fs) in
  Fs.output fs' !! ("summary_" ++ job ++ ".mp4")%string = None /\
  Fs.output fs' !! ("summary_" ++ job ++ "_preview.mp4")%string = None /\
  Fs.segments fs' = Fs.segments fs /\
  Fs.thumbnails fs' = Fs.thumbnails fs /\ Fs.temp fs' = Fs.temp fs.
Proof.
  unfold cleanupOutput. cbn [List.fold_left].
  set (f1 := ("summary_" ++ job ++ ".mp4")%string).
  set (f2 := ("summary_" ++ job ++ "_preview.mp4")%string).
  destruct (unlinkOutput (fs, 0%nat) f1) as [fs1 n1] eqn:U1.
  destruct (unlinkOutput (fs1, n1) f2) as [fs2 n2] eqn:U2.
  pose proof (unlinkOutput_effect fs 0%nat f1) as H1.
  pose proof (unlinkOutput_effect fs1 n1 f2) as H2.
  rewrite U1 in H1. rewrite U2 in H2. simpl in *.
  destruct H1 as (O1 & S1 & T1 & P1). destruct H2 as (O2 & S2 & T2 & P2).
  rewrite O2, O1. repeat split; try congruence.
  - destruct (decide (f1 = f2)) as [->|Hne].
    + apply lookup_delete_eq.
    + rewrite lookup_delete_ne by congruence. apply lookup_delete_eq.
  - apply lookup_delete_eq.
Qed.

(** C5, on the code.  For every job and every state of the directories,
    a second [cleanupJob] right after a first one succeeds and changes
    nothing.  Its thumbnails and output results report [deletedFiles: 0].
    Its segments result is [{ success: true, message: 'No segments to
    clean up' }]: it has no [deletedFiles] count at all. *)
Theorem cleanupJob_second_call :
  forall (job : string) (fs0 : Fs.FileSystem),
    let fs1 := fst (cleanupJob job fs0) in
    let second := cleanupJob job fs1 in
    fst second = fs1 /\
    jc_success (snd second) = true /\
    res_thumbnails (snd second) = nothingDeleted /\
    res_output (snd second) = nothingDeleted /\
    res_segments (snd second) = noSegments /\
    deletedFiles (res_segments (snd second)) = None.
Proof.
  intros job fs0 fs1 second.
  assert (Hs : Fs.segments fs1 !! job = None
               /\ Fs.thumbnails fs1 !! job = None
               /\ Fs.output fs1 !! ("summary_" ++ job ++ ".mp4")%string = None
               /\ Fs.output fs1 !! ("summary_" ++ job ++ "_preview.mp4")%string
                  = None).
  { unfold fs1, cleanupJob.
    pose proof (cleanupSegments_effect job fs0) as Hseg.
    destruct (VideoSegmenter.cleanupSegments job fs0) as [fsa ra].
    pose proof (cleanupThumbnails_effect job fsa) as Hth.
    destruct (cleanupThumbnails job fsa) as [fsb rb].
    pose proof (cleanupOutput_effect job fsb) as Hout.
    destruct (cleanupOutput job fsb) as [fsc rc].
    simpl in *.
    destruct Hseg as (A1 & _), Hth as (B1 & B2 & _),
             Hout as (C1 & C2 & C3 & C4 & _).
    repeat split; congruence. }
  destruct Hs as (S1 & S2 & S3 & S4).
  unfold second, cleanupJob.
  rewrite (cleanupSegments_absent _ _ S1), (cleanupThumbnails_absent _ _ S2),
          (cleanupOutput_absent _ _ S3 S4).
  repeat split.
Qed.

Lemma second_cleanup_example :
  let first := cleanupJob "job1" producedFs in
  let second := cleanupJob "job1" (fst first) in
  List.map deletedFiles
    [ res_segments (snd first); res_thumbnails (snd first);
      res_output (snd first) ]
  = [ Some 1%nat; Some 1%nat; Some 1%nat ] /\
  List.map deletedFiles
    [ res_segments (snd second); res_thumbnails (snd second);
      res_output (snd second) ]
  = [ None; Some 0%nat; Some 0%nat ].
Proof. split; vm_compute; reflexivity. Qed.

End CleanupFacts.

(** ** The temp-directory phase of the cleanup endpoint *)

Section TempCleanupFacts.

Import JobLog Server.

Lemma fold_delete_notin (l : list (string * Fs.FileStat))
      (m : gmap string Fs.FileStat) (k : string) :
  ~ List.In k (List.map fst l) ->
  List.fold_left (fun m entry => delete (fst entry) m) l m !! k = m !! k.
Proof.
  revert m. induction l as [|[k' st] l IH]; intros m H; simpl in *.
  - reflexivity.
  - rewrite IH by tauto. apply lookup_delete_ne. intros ->. tauto.
Qed.

Lemma fold_delete_in (l : list (string * Fs.FileStat))
      (m : gmap string Fs.FileStat) (k : string) :
  List.In k (List.map fst l) ->
  List.fold_left (fun m entry => delete (fst entry) m) l m !! k = None.
Proof.
  revert m. induction l as [|[k' st] l IH]; intros m H; simpl in *.
  - contradiction.
  - destruct (in_dec string_dec k (List.map fst l)) as [Hin|Hnot].
    + now apply IH.
    + destruct H as [->|H]; [|contradiction].
      rewrite fold_delete_notin by exact Hnot. apply lookup_delete_eq.
Qed.

(** What [cleanupTempFiles] leaves of [temp/]: a file stays exactly when
    its modification time is not before the cut-off. *)
Lemma cleanupTempFiles_lookup maxAgeHours now fs name :
  Fs.temp (fst (FileManager.cleanupTempFiles maxAgeHours now fs)) !! name
  = match Fs.temp fs !! name with
    | Some stat =>
        if Z.ltb (Fs.mtime stat)
                 (now - default 24%Z maxAgeHours * 60 * 60 * 1000)
        then None else Some stat
    | None => None
    end.
Proof.
  unfold FileManager.cleanupTempFiles. simpl.
  set (cutoff := (now - default 24%Z maxAgeHours * 60 * 60 * 1000)%Z).
  destruct (Fs.temp fs !! name) as [stat|] eqn:E.
  - destruct (Z.ltb (Fs.mtime stat) cutoff) eqn:Eold.
    + apply fold_delete_in. apply in_map_iff. exists (name, stat).
      split; [reflexivity|]. apply filter_In. split; [|exact Eold].
      apply list_elem_of_In. now apply elem_of_map_to_list.
    + rewrite fold_delete_notin; [exact E|].
      intros H. apply in_map_iff in H as ([k st] & Hk & Hin).
      simpl in Hk. subst k. apply filter_In in Hin as [Hin Hold].
      apply list_elem_of_In, elem_of_map_to_list in Hin. simpl in Hold.
      congruence.
  - rewrite fold_delete_notin; [exact E|].
    intros H. apply in_map_iff in H as ([k st] & Hk & Hin).
    simpl in Hk. subst k. apply filter_In in Hin as [Hin _].
    apply list_elem_of_In, elem_of_map_to_list in Hin. congruence.
Qed.





End TempCleanupFacts.

(** ** Input validation of the summarizer *)

Section ValidationFacts.

Import VideoSummarizer.

Lemma startsAtZero_invalid m :
  startsAtZeroOrUntimed m -> invalidTiming m = true.
Proof.
  unfold invalidTiming. intros [H|[H|(s & H & Hs)]].
  - now rewrite H.
  - rewrite H. simpl. apply orb_true_iff. left. apply orb_true_r.
  - rewrite H. simpl. unfold Js.truthyQ.
    apply Qeq_bool_iff in Hs. now rewrite Hs.
Qed.




End ValidationFacts.

(** ** More on the moment filter *)

Section SelectionFacts.

Import VideoSummarizer.

Lemma filter_partition {B} (f : B -> bool) l :
  Permutation l (List.filter f l ++ List.filter (fun x => negb (f x)) l).
Proof.
  induction l as [|x l IH]; simpl; [constructor|].
  destruct (f x); simpl.
  - now constructor.
  - rewrite IH at 1. apply Permutation_middle.
Qed.

Lemma filter_ext_eq {B} (f g : B -> bool) l :
  (forall x, f x = g x) -> List.filter f l = List.filter g l.
Proof.
  intros H. induction l as [|x l IH]; simpl; [reflexivity|].
  rewrite H, IH. reflexivity.
Qed.

Lemma filter_filter {B} (f g : B -> bool) l :
  List.filter g (List.filter f l) = List.filter (fun x => f x && g x) l.
Proof.
  induction l as [|x l IH]; simpl; [reflexivity|].
  destruct (f x); simpl; [destruct (g x)|]; now rewrite IH.
Qed.

Lemma filter_true {B} (l : list B) : List.filter (fun _ => true) l = l.
Proof. induction l; simpl; congruence. Qed.

(** The three conditional filters are one filter by [keeps]. *)
Lemma filters_keeps options l :
  filters options l = List.filter (keeps options) l.
Proof.
  unfold filters, filterByDuration, filterByCategory, filterByImportance.
  assert (E1 : match minImportance options with
               | Some n => if Js.truthyN n
                   then List.filter (fun m => Nat.leb n (importance m)) l else l
               | None => l end
               = List.filter (fun m => match minImportance options with
                                       | Some n => Nat.eqb n 0
                                                   || Nat.leb n (importance m)
                                       | None => true end) l).
  { destruct (minImportance options) as [n|]; [|now rewrite filter_true].
    unfold Js.truthyN. destruct (Nat.eqb n 0); simpl; [now rewrite filter_true|].
    reflexivity. }
  rewrite E1. clear E1.
  set (l1 := List.filter _ l).
  assert (E2 : match includeCategories options with
               | Some cs => if Nat.ltb 0 (List.length cs)
                   then List.filter (fun m => Js.includes cs (category m)) l1
                   else l1
               | None => l1 end
               = List.filter (fun m => match includeCategories options with
                                       | Some [] => true
                                       | Some cs => Js.includes cs (category m)
                                       | None => true end) l1).
  { destruct (includeCategories options) as [[|c cs]|]; simpl;
      now rewrite ?filter_true. }
  rewrite E2. clear E2.
  set (l2 := List.filter _ l1).
  assert (E3 : match maxMomentDuration options with
               | Some d => if Js.truthyQ d
                   then List.filter (fun m => Qle_bool (duration m) d) l2 else l2
               | None => l2 end
               = List.filter (fun m => match maxMomentDuration options with
                                       | Some d => Qeq_bool d 0
                                           || Qle_bool (endTime m - startTime m) d
                                       | None => true end) l2).
  { destruct (maxMomentDuration options) as [d|]; [|now rewrite filter_true].
    unfold Js.truthyQ. destruct (Qeq_bool d 0); simpl; [now rewrite filter_true|].
    reflexivity. }
  rewrite E3. clear E3. unfold l2, l1.
  rewrite !filter_filter. apply filter_ext_eq. intros m. unfold keeps.
  now rewrite andb_assoc.
Qed.

Lemma limitMoments_cut options l n :
  maxMoments options = Some n -> n <> 0%nat -> (n < List.length l)%nat ->
  limitMoments options l = Js.slice0 n (Js.sort byImportance l).
Proof.
  intros E Hn Hlt. unfold limitMoments. rewrite E.
  apply truthyN_nonzero in Hn. rewrite Hn.
  apply Nat.ltb_lt in Hlt. now rewrite Hlt.
Qed.

Lemma limitMoments_uncut options l :
  (forall n, maxMoments options = Some n ->
             n = 0%nat \/ (List.length l <= n)%nat) ->
  limitMoments options l = l.
Proof.
  intros H. apply limitMoments_id. intros n E Hn.
  destruct (H n E) as [->|Hle]; [discriminate|exact Hle].
Qed.

Lemma StronglySorted_app_inv {B} (R : B -> B -> Prop) l1 l2 :
  StronglySorted R (l1 ++ l2) ->
  forall a b, List.In a l1 -> List.In b l2 -> R a b.
Proof.
  induction l1 as [|x l1 IH]; simpl; intros H a b Ha Hb; [destruct Ha|].
  inversion H as [|? ? Hs Hall]; subst.
  destruct Ha as [<-|Ha].
  - rewrite List.Forall_forall in Hall. apply Hall, in_or_app. now right.
  - now apply IH.
Qed.

(** X1.  [filterMoments] never invents or duplicates a moment: its output
    together with some list of dropped moments is a rearrangement of its
    input; and every moment of the output is no longer than
    [maxMomentDuration] when that is set to a number other than zero. *)
Theorem filterMoments_submultiset :
  forall (moments : list Moment) (options : FilterOptions),
    (exists dropped,
        Permutation moments (filterMoments moments options ++ dropped)) /\
    (forall d, maxMomentDuration options = Some d -> ~ d == 0 ->
               Forall (fun m => endTime m - startTime m <= d)
                      (filterMoments moments options)).
Proof.
  intros moments options. split.
  - rewrite filterMoments_unfold, filters_keeps.
    set (F := List.filter (keeps options) moments).
    set (G := List.filter (fun x => negb (keeps options x)) moments).
    assert (HF : Permutation moments (F ++ G)) by apply filter_partition.
    unfold limitMoments.
    destruct (maxMoments options) as [n|];
      [destruct (Js.truthyN n && Nat.ltb n (List.length F))|].
    + exists (List.skipn n (Js.sort byImportance F) ++ G).
      rewrite sort_perm. unfold Js.slice0. rewrite app_assoc.
      rewrite firstn_skipn. rewrite sort_perm. exact HF.
    + exists G. now rewrite sort_perm.
    + exists G. now rewrite sort_perm.
  - intros d E Hd. apply List.Forall_forall. intros m Hm.
    apply filterMoments_In in Hm as [_ (_ & _ & Hdur)].
    apply Qle_bool_iff. apply (Hdur d E).
    unfold Js.truthyQ. destruct (Qeq_bool d 0) eqn:Ed; [|reflexivity].
    apply Qeq_bool_iff in Ed. contradiction.
Qed.

Lemma filterMoments_submultiset_witness :
  Forall (fun m => endTime m - startTime m <= 5)
         (filterMoments scenarioMoments
            {| minImportance := None; includeCategories := None;
               maxMomentDuration := Some 5; maxMoments := None;
               sortMomentsBy := None |}).
Proof.
  apply (proj2 (filterMoments_submultiset scenarioMoments
    {| minImportance := None; includeCategories := None;
       maxMomentDuration := Some 5; maxMoments := None;
       sortMomentsBy := None |}) 5); [reflexivity|discriminate].
Defined.

(** X2.  When the count cap is not in force ([maxMoments] is unset, is 0,
    or is not below the number of moments that pass the filters), the
    output of [filterMoments] is a rearrangement of exactly the moments
    that pass the three filters: none of them is dropped. *)
Theorem filterMoments_keeps_all_passing :
  forall (moments : list Moment) (options : FilterOptions),
    (forall n, maxMoments options = Some n ->
               n = 0%nat \/
               (List.length (List.filter (keeps options) moments) <= n)%nat) ->
    Permutation (filterMoments moments options)
                (List.filter (keeps options) moments).
Proof.
  intros moments options H.
  rewrite filterMoments_unfold, filters_keeps, sort_perm.
  now rewrite limitMoments_uncut.
Qed.

Lemma filterMoments_keeps_all_passing_witness :
  Permutation
    (filterMoments scenarioMoments
       {| minImportance := Some 5%nat; includeCategories := None;
          maxMomentDuration := None; maxMoments := Some 0%nat;
          sortMomentsBy := None |})
    (List.filter
       (keeps {| minImportance := Some 5%nat; includeCategories := None;
                 maxMomentDuration := None; maxMoments := Some 0%nat;
                 sortMomentsBy := None |})
       scenarioMoments).
Proof.
  apply filterMoments_keeps_all_passing.
  intros n [= <-]. now left.
Defined.

(** X3.  When the count cap is in force, the output has exactly
    [maxMoments] moments and they are the most important of the moments
    that pass the filters: no dropped moment is more important than a
    moment of the output. *)
Theorem filterMoments_cut_keeps_most_important :
  forall (moments : list Moment) (options : FilterOptions) (n : nat),
    cutsAt options moments n ->
    List.length (filterMoments moments options) = n /\
    exists dropped,
      Permutation (List.filter (keeps options) moments)
                  (filterMoments moments options ++ dropped) /\
      forall kept d,
        List.In kept (filterMoments moments options) -> List.In d dropped ->
        (importance d <= importance kept)%nat.
Proof.
  intros moments options n (E & Hn & Hlt).
  rewrite filterMoments_unfold, filters_keeps.
  set (F := List.filter (keeps options) moments) in *.
  rewrite (limitMoments_cut options F n E Hn Hlt).
  set (S := Js.sort byImportance F).
  assert (HS : StronglySorted (before byImportance) S)
    by (apply sort_sorted; [apply byImportance_total|apply byImportance_trans]).
  split.
  - rewrite sort_length. unfold Js.slice0. apply firstn_length_le.
    unfold S. rewrite sort_length. lia.
  - exists (List.skipn n S). split.
    + rewrite sort_perm. unfold Js.slice0. rewrite firstn_skipn.
      unfold S. now rewrite sort_perm.
    + intros kept d Hk Hd. apply sort_In in Hk.
      apply byImportance_before.
      apply (StronglySorted_app_inv _ (Js.slice0 n S) (List.skipn n S));
        [|exact Hk|exact Hd].
      unfold Js.slice0. now rewrite firstn_skipn.
Qed.

Lemma filterMoments_cut_keeps_most_important_witness :
  List.length (filterMoments scenarioMoments scenarioOptions) = 3%nat.
Proof.
  apply (filterMoments_cut_keeps_most_important scenarioMoments
           scenarioOptions 3).
  split; [reflexivity|]. split; [discriminate|]. vm_compute. lia.
Defined.

End SelectionFacts.

(** ** More on the input validation and the quick summary *)

Section SummarizerFacts.

Import VideoSummarizer.

Lemma invalidTiming_false_iff m : invalidTiming m = false <-> wellTimed m.
Proof.
  unfold invalidTiming, wellTimed, falsyTime, Js.truthyQ.
  destruct (startTime m) as [s|], (endTime m) as [e|]; simpl.
  - rewrite !orb_false_iff, !negb_false_iff, !negb_true_iff. split.
    + intros [[Hs He] Hlt]. exists s, e. repeat split.
      * intros H. apply Qeq_bool_iff in H. congruence.
      * intros H. apply Qeq_bool_iff in H. congruence.
      * apply Qnot_le_lt. intros H. apply Qle_bool_iff in H. congruence.
    + intros (s' & e' & [= <-] & [= <-] & Hs & He & Hlt). repeat split.
      * destruct (Qeq_bool s 0) eqn:E; [|reflexivity].
        apply Qeq_bool_iff in E. contradiction.
      * destruct (Qeq_bool e 0) eqn:E; [|reflexivity].
        apply Qeq_bool_iff in E. contradiction.
      * destruct (Qle_bool e s) eqn:E; [|reflexivity].
        apply Qle_bool_iff in E. lra.
  - rewrite orb_true_r. simpl.
    split; [discriminate|]. intros (s' & e' & _ & H & _). discriminate.
  - split; [discriminate|]. intros (s' & e' & H & _). discriminate.
  - split; [discriminate|]. intros (s' & e' & H & _). discriminate.
Qed.

Lemma checkMoments_ok_iff moments :
  checkMoments moments = Js.Ok tt <-> Forall wellTimed moments.
Proof.
  induction moments as [|m moments IH]; simpl.
  - split; [constructor|reflexivity].
  - destruct (invalidTiming m) eqn:E.
    + split; [discriminate|]. intros H. inversion H as [|? ? Hm _]; subst.
      apply invalidTiming_false_iff in Hm. congruence.
    + rewrite IH. split.
      * intros H. constructor; [now apply invalidTiming_false_iff|exact H].
      * intros H. now inversion H.
Qed.

(** X4.  [validateInputs] accepts exactly when the video file exists, the
    moment list is not empty and every moment has both times, neither of
    them zero, with the start before the end.  A missing video is reported
    first, whatever the moments are, and an empty list before any moment is
    looked at. *)
Theorem validateInputs_accepts_iff :
  forall (fs : Fs.FileSystem) (videoPath : option Fs.Path)
         (moments : list (MomentOf (option Q))),
    (validateInputs fs videoPath moments = Js.Ok tt <->
     videoPresent fs videoPath /\ moments <> [] /\ Forall wellTimed moments) /\
    (~ videoPresent fs videoPath ->
     validateInputs fs videoPath moments
     = Js.Throw (VideoFileNotFound videoPath)) /\
    (videoPresent fs videoPath -> moments = [] ->
     validateInputs fs videoPath moments = Js.Throw NoMomentsProvided).
Proof.
  intros fs videoPath moments. unfold validateInputs, videoPresent.
  destruct videoPath as [path|]; simpl.
  - destruct (Fs.existsSync fs path) eqn:Ev; simpl.
    + split; [|split].
      * destruct moments as [|m moments]; simpl.
        { split; [discriminate|]. intros (_ & Hne & _). congruence. }
        rewrite (checkMoments_ok_iff (m :: moments)). split.
        { intros H. split; [now exists path|]. split; [discriminate|exact H]. }
        { now intros (_ & _ & H). }
      * intros H. exfalso. apply H. now exists path.
      * intros _ ->. reflexivity.
    + split; [|split].
      * split; [discriminate|]. intros ((p & [= <-] & Hp) & _). congruence.
      * reflexivity.
      * intros (p & [= <-] & Hp). congruence.
  - split; [|split].
    + split; [discriminate|]. intros ((p & Hp & _) & _). discriminate.
    + reflexivity.
    + intros (p & Hp & _). discriminate.
Qed.

Lemma validateInputs_accepts_iff_witness :
  validateInputs emptyFs (Some (Fs.TempPath "proc-video.mp4")) [openingMoment]
  = Js.Throw (VideoFileNotFound (Some (Fs.TempPath "proc-video.mp4"))).
Proof.
  apply (validateInputs_accepts_iff emptyFs
           (Some (Fs.TempPath "proc-video.mp4")) [openingMoment]).
  intros (p & [= <-] & Hp). discriminate.
Defined.

Lemma In_omap_timed m moments :
  List.In m (omap timed moments) ->
  exists x, List.In x moments /\ timed x = Some m.
Proof.
  intros H. apply list_elem_of_In, list_elem_of_omap in H as (x & Hx & E).
  exists x. split; [now apply list_elem_of_In|exact E].
Qed.

(** X5.  On input that the validation accepts, the quick summary hands the
    media tool at most five moments, each of importance 6 or more and each
    one of the given moments, the most important first; a failure of the
    tool is rethrown as 'Summarization failed'. *)
Theorem createQuickSummary_selection :
  forall produceSummary (fs : Fs.FileSystem) (videoPath : option Fs.Path)
         (moments : list (MomentOf (option Q))) (job : string),
    validateInputs fs videoPath moments = Js.Ok tt ->
    exists selected : list Moment,
      createQuickSummary produceSummary videoPath moments job fs
      = rethrown (produceSummary fs videoPath selected quickOptions job) /\
      (List.length selected <= 5)%nat /\
      Forall (fun m => (6 <= importance m)%nat) selected /\
      Forall (fun m => exists x, List.In x moments /\ timed x = Some m)
             selected /\
      StronglySorted (fun a b => (importance b <= importance a)%nat) selected.
Proof.
  intros produceSummary fs videoPath moments job V.
  exists (filterMoments (omap timed moments) (filtering quickOptions)).
  repeat split.
  - unfold createQuickSummary, createVideoSummary. rewrite V.
    now destruct (produceSummary _ _ _ _ _) as [fs' [s|e]].
  - now apply filterMoments_length_le.
  - apply List.Forall_forall. intros m Hm.
    apply filterMoments_In in Hm as [_ (Hi & _)]. now apply (Hi 6%nat).
  - apply List.Forall_forall. intros m Hm.
    apply filterMoments_In in Hm as [Hm _]. now apply In_omap_timed.
  - apply (filterMoments_sorted (omap timed moments) (filtering quickOptions)).
Qed.

Lemma createQuickSummary_selection_witness :
  exists selected : list Moment,
    createQuickSummary failingTool (Some (Fs.TempPath "proc-video.mp4"))
                       [untimed detectedMoment] "job1" videoFs
    = rethrown (failingTool videoFs (Some (Fs.TempPath "proc-video.mp4"))
                            selected quickOptions "job1") /\
    (List.length selected <= 5)%nat.
Proof.
  destruct (createQuickSummary_selection failingTool videoFs
              (Some (Fs.TempPath "proc-video.mp4")) [untimed detectedMoment]
              "job1") as (selected & E & Hlen & _).
  - vm_compute. reflexivity.
  - exists selected. split; assumption.
Defined.

End SummarizerFacts.

(** ** More on the heuristic fallback and the response parser *)

Section FallbackMoreFacts.

Import MomentAnalyzer.

Lemma scanSegment_scanned segments d st segment :
  seg_start segment <= d ->
  scanned d st -> scanned d (scanSegment segments d st segment).
Proof.
  intros Hseg (Hall & Heq & Hpos & Hfirst). unfold scanSegment.
  destruct (_ || _); [|repeat split; assumption].
  destruct (Js.Qltb _ _) eqn:Epush; [|repeat split; assumption].
  apply Qltb_lt in Epush. rewrite Heq in Epush.
  pose proof (Q.max_spec 0 (currentMomentStart st)) as Hmax.
  pose proof (Q.min_spec d (seg_start segment)) as Hmin.
  unfold scanned. simpl. repeat split.
  - apply Forall_app. split; [exact Hall|]. constructor; [|constructor].
    unfold within. simpl.
    destruct Hmax as [[? Emax]|[? Emax]], Hmin as [[? Emin]|[? Emin]];
      rewrite Emax, Emin; repeat split; lra.
  - lra.
  - destruct (moments st) as [|m rest]; simpl.
    + rewrite Hfirst. reflexivity.
    + exact Hfirst.
Qed.

Lemma scan_scanned segments d l st :
  Forall (fun s => seg_start s <= d) l -> scanned d st ->
  scanned d (List.fold_left (scanSegment segments d) l st).
Proof.
  revert st. induction l as [|segment l IH]; simpl; intros st Hl Hst.
  - exact Hst.
  - inversion Hl; subst. apply IH; [assumption|].
    now apply scanSegment_scanned.
Qed.

Lemma min_third (k : Q) d :
  0 < d -> k <= 3 -> Qmin (k * (d / 3)) d == k * (d / 3).
Proof.
  intros Hd Hk. apply Q.min_l.
  assert (Hthird : d / 3 == d * (1 # 3)) by (unfold Qdiv; reflexivity).
  rewrite Hthird. nra.
Qed.

Lemma equalSplit_within segments d :
  0 < d -> Forall (within d) (equalSplit segments d).
Proof.
  intros Hd. unfold equalSplit. simpl.
  assert (Hthird : d / 3 == d * (1 # 3)) by (unfold Qdiv; reflexivity).
  change (inject_Z (Z.of_nat 0)) with 0.
  change (inject_Z (Z.of_nat 1)) with 1.
  change (inject_Z (Z.of_nat 2)) with 2.
  constructor; [|constructor; [|constructor; [|constructor]]];
    unfold within; simpl.
  - rewrite (min_third 1 d Hd) by lra. rewrite Hthird. repeat split; lra.
  - rewrite (min_third 2 d Hd) by lra. rewrite Hthird. repeat split; lra.
  - rewrite (min_third 3 d Hd) by lra. rewrite Hthird. repeat split; lra.
Qed.

Lemma fallback_state transcription d :
  t_duration transcription = Some d -> 0 < d ->
  Forall (fun s => seg_start s <= d) (default [] (t_segments transcription)) ->
  let segments := default [] (t_segments transcription) in
  scanned d (List.fold_left (scanSegment segments d) segments
               {| moments := []; currentMomentStart := 0; lastMomentEnd := 0 |}).
Proof.
  intros E Hd Hseg segments. apply scan_scanned; [exact Hseg|].
  unfold scanned. simpl. repeat split; try constructor; try reflexivity.
  discriminate.
Qed.

(** X6.  When the transcription has a positive [duration] and no segment
    starts after it, every moment of the fallback list lies within the
    video: 0 <= startTime < endTime <= duration, which is the validity check
    of the response parser. *)
Theorem fallbackMoments_within_video :
  forall (transcription : Transcription) (d : Q),
    t_duration transcription = Some d -> 0 < d ->
    Forall (fun s => seg_start s <= d)
           (default [] (t_segments transcription)) ->
    Forall (fun m => within d m /\ isValid d m = true)
           (fallbackMoments transcription).
Proof.
  intros transcription d E Hd Hseg.
  assert (H : Forall (within d) (fallbackMoments transcription)).
  { pose proof (fallback_state transcription d E Hd Hseg) as Hst.
    unfold fallbackMoments. rewrite E. rewrite orQ_some by lra.
    cbv zeta in Hst.
    set (segments := default [] (t_segments transcription)) in *.
    set (st := List.fold_left _ _ _) in *.
    destruct Hst as (Hall & Heq & Hpos & _).
    destruct (_ && _); [now apply equalSplit_within|].
    destruct (Js.Qltb _ _) eqn:Ef; [|exact Hall].
    apply Qltb_lt in Ef.
    apply Forall_app. split; [exact Hall|]. constructor; [|constructor].
    unfold within. simpl. repeat split; lra. }
  eapply List.Forall_impl; [|exact H].
  intros m Hm. split; [exact Hm|]. now apply isValid_range.
Qed.

Lemma fallbackMoments_within_video_witness :
  Forall (fun m => within 90 m /\ isValid 90 m = true)
         (fallbackMoments longTranscript).
Proof.
  apply (fallbackMoments_within_video longTranscript 90); [reflexivity..|].
  repeat constructor; simpl; discriminate.
Defined.

Lemma scanSegment_rooted segments d st segment :
  rooted st -> rooted (scanSegment segments d st segment).
Proof.
  intros H. unfold scanSegment.
  destruct (_ || _); [|exact H].
  destruct (Js.Qltb _ _); [|exact H].
  unfold rooted in *. simpl.
  destruct (moments st) as [|m rest]; simpl; [|exact H].
  rewrite H. reflexivity.
Qed.

Lemma scan_rooted segments d l st :
  rooted st -> rooted (List.fold_left (scanSegment segments d) l st).
Proof.
  revert st. induction l as [|segment l IH]; simpl; intros st H; [exact H|].
  now apply IH, scanSegment_rooted.
Qed.

Lemma fallbackMoments_first transcription m rest :
  fallbackMoments transcription = m :: rest -> startTime m == 0.
Proof.
  unfold fallbackMoments.
  set (segments := default [] (t_segments transcription)).
  set (d := Js.orQ (t_duration transcription) 0).
  pose proof (scan_rooted segments d segments
                {| moments := []; currentMomentStart := 0; lastMomentEnd := 0 |}
                eq_refl) as Hr.
  set (st := List.fold_left _ _ _) in *.
  destruct (_ && _).
  - unfold equalSplit. simpl. intros [= <- _]. simpl.
    change (inject_Z (Z.of_nat 0)) with 0. lra.
  - unfold rooted in Hr. destruct (Js.Qltb _ _).
    + destruct (moments st) as [|m' rest']; simpl.
      * intros [= <- _]. simpl. now rewrite Hr.
      * now intros [= <- _].
    + destruct (moments st) as [|m' rest']; [discriminate|].
      now intros [= <- _].
Qed.

(** X7.  The first moment of every fallback list starts at zero, so the
    summarizer never accepts a fallback list: for every transcription,
    [createVideoSummary] on the moments of [createLiberalFallback] fails in
    its input validation, whatever the video, options and job are, without
    running the media tool. *)
Theorem fallback_rejected_by_summarizer :
  forall (transcription : Transcription),
    (forall m rest, fallbackMoments transcription = m :: rest ->
                    startTime m == 0) /\
    forall produceSummary (fs : Fs.FileSystem) (videoPath : option Fs.Path)
           (options : SummaryOptions) (job : string),
    exists e,
      VideoSummarizer.createVideoSummary produceSummary videoPath
        (List.map VideoSummarizer.untimed
           (default [] (keyMoments
              (analysis (createLiberalFallback transcription None)))))
        options job fs
      = (fs, Js.Throw (SummarizationFailed e)).
Proof.
  intros transcription. split; [apply fallbackMoments_first|].
  intros produceSummary fs videoPath options job. simpl.
  assert (V : exists e,
             VideoSummarizer.validateInputs fs videoPath
               (List.map VideoSummarizer.untimed (fallbackMoments transcription))
             = Js.Throw e).
  { unfold VideoSummarizer.validateInputs.
    destruct (negb _); [eauto|].
    destruct (fallbackMoments transcription) as [|m rest] eqn:E; simpl; [eauto|].
    assert (Hm : VideoSummarizer.invalidTiming (VideoSummarizer.untimed m)
                 = true).
    { apply startsAtZero_invalid. right. right.
      exists (startTime m). split; [reflexivity|].
      now apply (fallbackMoments_first transcription m rest). }
    rewrite Hm. eauto. }
  destruct V as (e & V). exists e.
  unfold VideoSummarizer.createVideoSummary. now rewrite V.
Qed.

Lemma fallback_rejected_by_summarizer_witness :
  match fallbackMoments
          {| t_text := None; t_segments := None; t_duration := Some 90%Q;
             t_totalDuration := None |} with
  | m :: _ => startTime m == 0
  | [] => True
  end.
Proof.
  destruct (fallbackMoments _) as [|m rest] eqn:E; [exact I|].
  exact (proj1 (fallback_rejected_by_summarizer
                  {| t_text := None; t_segments := None;
                     t_duration := Some 90%Q; t_totalDuration := None |})
           m rest E).
Defined.




Lemma filter_all_false {A} (f : A -> bool) l :
  Forall (fun x => f x = false) l -> List.filter f l = [].
Proof.
  induction 1 as [|x l Hx _ IH]; simpl; [reflexivity|].
  now rewrite Hx.
Qed.

Lemma round_zero x : x == 0 -> Js.round x = 0%Z.
Proof.
  intros H. unfold Js.round.
  assert (E : x + (1 # 2) == 1 # 2) by lra.
  rewrite E. reflexivity.
Qed.

(** X9.  A model response whose moments are all rejected by the validity
    filter is still reported as a successful analysis of the model with an
    empty moment list and zero counts: the parser falls back only when the
    response carries no moment at all, not when none survives. *)
Theorem parse_all_rejected_is_empty_success :
  forall (jsonDecode : string -> option Analysis) (responseText : string)
         (transcription : Transcription) (parsed : Analysis)
         (raw : list Moment),
    jsonDecode responseText = Some parsed ->
    keyMoments parsed = Some raw ->
    raw <> [] ->
    Forall (fun m => isValid (videoDurationOf transcription parsed)
                             (fixMoment m) = false) raw ->
    let result := parseGeminiResponse jsonDecode responseText transcription in
    success result = true /\
    provider result = "gemini-1.5-pro"%string /\
    keyMoments (analysis result) = Some [] /\
    momentCount (analysis result) = Some 0%nat /\
    recommendedSummaryDuration (analysis result) = Some 0%Z /\
    compressionRatio (analysis result) = Some 0%Z.
Proof.
  intros jsonDecode responseText transcription parsed raw Hdec Hkey Hne Hall.
  assert (Hkept : validateMoments (videoDurationOf transcription parsed) raw
                  = []).
  { unfold validateMoments. apply filter_all_false.
    apply Forall_map. exact Hall. }
  unfold parseGeminiResponse. rewrite Hdec, Hkey.
  destruct raw as [|m raw]; [contradiction|].
  cbv zeta. rewrite Hkept. simpl.
  repeat split.
  destruct (t_duration transcription) as [d|]; [|reflexivity].
  destruct (Js.truthyQ d); [|reflexivity].
  f_equal. apply round_zero. unfold totalMomentDuration. simpl.
  unfold Qdiv. ring.
Qed.

Lemma parse_all_rejected_is_empty_success_witness :
  let result :=
    parseGeminiResponse (fun _ => Some lateAnalysis) "{}"
      {| t_text := None; t_segments := None; t_duration := Some 120%Q;
         t_totalDuration := None |} in
  success result = true /\
  provider result = "gemini-1.5-pro"%string /\
  keyMoments (analysis result) = Some [] /\
  momentCount (analysis result) = Some 0%nat /\
  recommendedSummaryDuration (analysis result) = Some 0%Z /\
  compressionRatio (analysis result) = Some 0%Z.
Proof.
  apply (parse_all_rejected_is_empty_success (fun _ => Some lateAnalysis) "{}"
           {| t_text := None; t_segments := None; t_duration := Some 120%Q;
              t_totalDuration := None |} lateAnalysis [lateMoment]).
  - reflexivity.
  - reflexivity.
  - discriminate.
  - constructor; [reflexivity | constructor].
Defined.

End FallbackMoreFacts.

(** ** The validation report of the analyzer *)

Section ValidationFacts.

Import MomentAnalyzer Validation.

Lemma truthyQ_false x : Js.truthyQ x = false <-> x == 0.
Proof.
  unfold Js.truthyQ. rewrite negb_false_iff. apply Qeq_bool_iff.
Qed.

Lemma truthyQ_true x : Js.truthyQ x = true <-> ~ x == 0.
Proof.
  rewrite <- truthyQ_false. destruct (Js.truthyQ x); split; intros H;
    try reflexivity; try discriminate; try (intros [=]).
  now contradiction H.
Qed.

Lemma timestampIssue_none d i m :
  timestampIssue d i m = None <-> soundMoment d m.
Proof.
  unfold timestampIssue, soundMoment.
  destruct (Js.truthyQ (startTime m)) eqn:Es; simpl.
  - apply truthyQ_true in Es.
    destruct (Js.truthyQ (endTime m)) eqn:Ee; simpl.
    + apply truthyQ_true in Ee.
      destruct (Qle_bool (endTime m) (startTime m)) eqn:El.
      * apply Qle_bool_iff in El. split; [discriminate|].
        intros (_ & _ & H & _). lra.
      * assert (Hl : startTime m < endTime m).
        { apply Qnot_le_lt. intros H. apply Qle_bool_iff in H. congruence. }
        destruct (Js.Qltb d (endTime m)) eqn:Ed.
        -- apply Qltb_lt in Ed. split; [discriminate|].
           intros (_ & _ & _ & H). lra.
        -- apply Qltb_ge in Ed. tauto.
    + apply truthyQ_false in Ee. split; [discriminate|]. tauto.
  - apply truthyQ_false in Es. split; [discriminate|]. tauto.
Qed.

Lemma issues_nil {A B} (f : nat -> A -> option B) (P : A -> Prop) l :
  (forall i x, f i x = None <-> P x) ->
  omap id (imap f l) = [] <-> Forall P l.
Proof.
  revert f. induction l as [|x l IH]; intros f Hf; simpl.
  - split; [constructor | reflexivity].
  - destruct (f 0%nat x) eqn:E; simpl.
    + split; [discriminate|]. intros H. inversion H as [|? ? Hx _]; subst.
      apply (Hf 0%nat) in Hx. congruence.
    + rewrite (IH (f ∘ S)); [|intros i y; apply Hf].
      apply (Hf 0%nat) in E. split.
      * intros H. now constructor.
      * intros H. now inversion H.
Qed.

Lemma timestampIssues_nil d ms :
  timestampIssues d ms = [] <-> Forall (soundMoment d) ms.
Proof.
  unfold timestampIssues. apply issues_nil. intros i m.
  apply timestampIssue_none.
Qed.

Lemma length_zero {A} (l : list A) : Nat.eqb (List.length l) 0 = true <-> l = [].
Proof.
  destruct l; simpl; split; intros H; try reflexivity; discriminate.
Qed.

Lemma valid_spec (a : Analysis) (transcription : Transcription) ms :
  keyMoments a = Some ms ->
  valid (validateAnalysis (Some a) transcription) = true <->
  ms <> [] /\ Forall (soundMoment (Js.orQ (t_duration transcription) 0)) ms.
Proof.
  intros Hk. unfold validateAnalysis. simpl. rewrite Hk. simpl.
  rewrite length_zero. destruct ms as [|m ms].
  - simpl. split; [discriminate|]. intros [H _]. now contradiction H.
  - change (Nat.eqb (List.length (m :: ms)) 0) with false. cbv iota.
    rewrite app_nil_l, timestampIssues_nil. split.
    + intros H. split; [discriminate | exact H].
    + now intros [_ H].
Qed.

(** X10.  The report of [validateAnalysis] is valid exactly when the
    analysis carries a non-empty moment list in which every moment has
    start and end times other than zero, starts before it ends and ends no
    later than the duration of the transcription (zero when that is
    missing). *)
Theorem validateAnalysis_valid_iff :
  forall (analysis : option Analysis) (transcription : Transcription),
    valid (validateAnalysis analysis transcription) = true <->
    exists ms,
      analysis ≫= keyMoments = Some ms /\ ms <> [] /\
      Forall (soundMoment (Js.orQ (t_duration transcription) 0)) ms.
Proof.
  intros [a|] transcription.
  - destruct (keyMoments a) as [ms|] eqn:Hk.
    + rewrite (valid_spec a transcription ms Hk). simpl. rewrite Hk. split.
      * intros H. exists ms. now split.
      * now intros (ms' & [= <-] & H).
    + unfold validateAnalysis. simpl. rewrite Hk. simpl.
      split; [discriminate|]. now intros (ms & [=] & _).
  - simpl. split; [discriminate|]. now intros (ms & [=] & _).
Qed.

Lemma fold_importance_nonneg ms n :
  (n <= List.fold_left (fun sum m => (sum + importanceOr5 m)%nat) ms n)%nat.
Proof.
  revert n. induction ms as [|m ms IH]; intros n; simpl; [lia|].
  specialize (IH (n + importanceOr5 m)%nat). lia.
Qed.

Lemma inject_nat_nonneg n : 0 <= inject_Z (Z.of_nat n).
Proof.
  change 0 with (inject_Z 0). rewrite <- Zle_Qle. lia.
Qed.

Lemma quality_nonneg (count sum : nat) :
  (0 < count)%nat ->
  0 <= inject_Z (Z.of_nat count) * 12
       + inject_Z (Z.of_nat sum) / inject_Z (Z.of_nat count) * 8.
Proof.
  intros Hc.
  assert (Hn : 0 < inject_Z (Z.of_nat count)).
  { change 0 with (inject_Z 0). rewrite <- Zlt_Qlt. lia. }
  pose proof (inject_nat_nonneg sum) as Hs.
  assert (Hq : 0 <= inject_Z (Z.of_nat sum) / inject_Z (Z.of_nat count)).
  { apply Qle_shift_div_l; [exact Hn | lra]. }
  lra.
Qed.

(** X11.  The scores of every report stay in range: the confidence is at
    most 100, the quality score lies between 0 and 100, and a valid report
    has a quality score of at least 70. *)
Theorem validateAnalysis_scores_bounded :
  forall (analysis : option Analysis) (transcription : Transcription),
    let report := validateAnalysis analysis transcription in
    (confidence report <= 100)%nat /\
    0 <= qualityScore report /\ qualityScore report <= 100 /\
    (valid report = true -> 70 <= qualityScore report).
Proof.
  intros analysis transcription. unfold validateAnalysis.
  destruct (analysis ≫= keyMoments) as [ms|];
    cbv zeta; cbn [valid confidence qualityScore issues].
  - destruct ms as [|m ms].
    + cbn. repeat split; try lia; try lra; try discriminate.
    + change (Nat.eqb (List.length (m :: ms)) 0) with false.
      change (Nat.ltb 0 (List.length (m :: ms))) with true. cbv iota.
      rewrite app_nil_l, andb_true_r.
      set (count := List.length (m :: ms)).
      set (sum := List.fold_left _ (m :: ms) 0%nat).
      pose proof (quality_nonneg count sum ltac:(unfold count; simpl; lia)) as Hq.
      set (q := inject_Z (Z.of_nat count) * 12 + _) in *.
      pose proof (Q.le_min_l 100 q) as Hl.
      assert (H0 : 0 <= Qmin 100 q) by (apply Q.min_glb; lra).
      split; [apply Nat.le_min_l|].
      destruct (Nat.eqb (List.length _) 0) eqn:E.
      * pose proof (Q.le_max_r (Qmin 100 q) 70) as Hr.
        pose proof (Q.le_max_l (Qmin 100 q) 70) as Hm.
        assert (Hu : Qmax (Qmin 100 q) 70 <= 100) by (apply Q.max_lub; lra).
        repeat split; try lra.
      * repeat split; try lra; try discriminate.
  - repeat split; try lia; try lra; try discriminate.
Qed.

Lemma validateAnalysis_scores_bounded_witness :
  70 <= qualityScore
          (validateAnalysis (Some (analysis detectedAnalysis))
             {| t_text := None; t_segments := None; t_duration := Some 90%Q;
                t_totalDuration := None |}).
Proof.
  apply (proj2 (proj2 (proj2
           (validateAnalysis_scores_bounded (Some (analysis detectedAnalysis))
              {| t_text := None; t_segments := None; t_duration := Some 90%Q;
                 t_totalDuration := None |})))).
  reflexivity.
Defined.

(** X12.  In the moment-analysis stage the report is computed against the
    stored transcription, which has no [duration] property, so the duration
    it checks against is zero: whatever the model answers, the report of
    that stage is never valid. *)
Theorem stage_validation_never_valid :
  forall (jsonDecode : string -> option Analysis) (generated : option string)
         (stored : TranscriptionService.ProcessedTranscription),
    let transcription := TranscriptionService.asAnalyzerInput stored in
    let result := analyzeKeyMoments jsonDecode generated transcription in
    valid (validateAnalysis (Some (analysis result)) transcription) = false.
Proof.
  intros jsonDecode generated stored transcription result.
  assert (Hd : Js.orQ (t_duration transcription) 0 = 0) by reflexivity.
  assert (Hempty : forall a, keyMoments a = Some [] ->
            valid (validateAnalysis (Some a) transcription) = false).
  { intros a Hk. apply not_true_is_false. intros H.
    apply (valid_spec a transcription [] Hk) in H. now destruct H as [H _]. }
  subst result. unfold analyzeKeyMoments.
  destruct generated as [responseText|]; [|now apply Hempty].
  unfold parseGeminiResponse.
  destruct (jsonDecode responseText) as [parsed|]; [|now apply Hempty].
  destruct (keyMoments parsed) as [[|raw0 raw]|]; try now apply Hempty.
  cbv zeta.
  set (kept := validateMoments _ _).
  apply not_true_is_false. intros H.
  cbn [analysis] in H.
  match type of H with
  | valid (validateAnalysis (Some ?a) _) = true =>
      apply (valid_spec a transcription kept eq_refl) in H
  end.
  destruct H as [Hne Hall]. rewrite Hd in Hall.
  destruct kept as [|m rest] eqn:E; [now contradiction Hne|].
  assert (Hin : List.In m kept) by (rewrite E; now left).
  apply validateMoments_In in Hin.
  destruct Hin as (_ & _ & _ & H0 & _ & _).
  inversion Hall as [|? ? (_ & _ & Hlt & Hle) _]; subst. lra.
Qed.


End ValidationFacts.

(** ** The composition plan and the segment order *)

Section ComposerPlanFacts.

Import VideoComposer ComposerPlan.

Lemma orQ_nonzero x d : ~ d == 0 -> ~ Js.orQ x d == 0.
Proof.
  intros Hd. unfold Js.orQ. destruct x as [v|]; [|exact Hd].
  destruct (Js.truthyQ v) eqn:E; [|exact Hd].
  unfold Js.truthyQ in E. apply negb_true_iff in E.
  intros H. apply Qeq_bool_iff in H. congruence.
Qed.

(** X13.  A plan never carries a zero where the options gave one: audio
    normalisation is on whatever [normalizeAudio] says, and the transition
    duration, the intro duration, the speed factor and the crf of the plan
    are never zero (a zero in the options is replaced by 0.5, 2, 1 and 23). *)
Theorem plan_replaces_falsy_options :
  forall (segments : list Segment) (options : Options),
    let plan := generateCompositionPlan segments options in
    audioNormalize plan = true /\
    ~ transitionsDuration plan == 0 /\
    ~ introLength plan == 0 /\
    ~ speedBy plan == 0 /\
    planCrf plan <> 0%nat.
Proof.
  intros segments options. simpl. repeat split.
  - now destruct (normalizeAudio options) as [[|]|].
  - apply orQ_nonzero. discriminate.
  - apply orQ_nonzero. discriminate.
  - apply orQ_nonzero. discriminate.
  - unfold orN. destruct (crf options) as [n|]; [|discriminate].
    destruct (Js.truthyN n) eqn:E; [|discriminate].
    now apply truthyN_nonzero.
Qed.





Lemma byIndex_total a b : before byIndex a b \/ before byIndex b a.
Proof.
  unfold before, byIndex. change 0 with (inject_Z 0). rewrite <- !Zle_Qle. lia.
Qed.

Lemma byIndex_trans a b c :
  before byIndex a b -> before byIndex b c -> before byIndex a c.
Proof.
  unfold before, byIndex. change 0 with (inject_Z 0). rewrite <- !Zle_Qle. lia.
Qed.

Lemma segImportance_total a b :
  before ComposerPlan.byImportance a b \/ before ComposerPlan.byImportance b a.
Proof.
  unfold before, ComposerPlan.byImportance. change 0 with (inject_Z 0).
  rewrite <- !Zle_Qle. lia.
Qed.

Lemma segImportance_trans a b c :
  before ComposerPlan.byImportance a b -> before ComposerPlan.byImportance b c ->
  before ComposerPlan.byImportance a c.
Proof.
  unfold before, ComposerPlan.byImportance. change 0 with (inject_Z 0).
  rewrite <- !Zle_Qle. lia.
Qed.

Lemma comparator_cases sortBy :
  comparator sortBy = ComposerPlan.byImportance \/
  comparator sortBy = ComposerPlan.byDuration \/
  comparator sortBy = byOriginalStart \/
  comparator sortBy = byIndex.
Proof.
  unfold comparator.
  destruct (String.eqb sortBy "importance"); [now left|].
  destruct (String.eqb sortBy "duration"); [now right; left|].
  destruct (String.eqb sortBy "chronological"); [now right; right; left|].
  now right; right; right.
Qed.

Lemma comparator_total sortBy a b :
  before (comparator sortBy) a b \/ before (comparator sortBy) b a.
Proof.
  destruct (comparator_cases sortBy) as [-> | [-> | [-> | ->]]].
  - apply segImportance_total.
  - unfold before, ComposerPlan.byDuration.
    destruct (Qlt_le_dec (duration a) (duration b)); [right|left]; lra.
  - unfold before, byOriginalStart.
    destruct (Qlt_le_dec (originalStartTime a) (originalStartTime b));
      [left|right]; lra.
  - apply byIndex_total.
Qed.

Lemma comparator_trans sortBy a b c :
  before (comparator sortBy) a b -> before (comparator sortBy) b c ->
  before (comparator sortBy) a c.
Proof.
  destruct (comparator_cases sortBy) as [-> | [-> | [-> | ->]]].
  - apply segImportance_trans.
  - unfold before, ComposerPlan.byDuration. lra.
  - unfold before, byOriginalStart. lra.
  - apply byIndex_trans.
Qed.

(** X15.  [sortSegments] rearranges the segments without losing or adding
    one and leaves them in the order of the chosen criterion; a criterion
    it does not know is treated as ['order'], and segments that already
    come in index order are handed back unchanged by ['order']. *)
Theorem sortSegments_sorted_permutation :
  forall (segments : list Segment) (sortBy : string),
    Permutation (sortSegments segments sortBy) segments /\
    StronglySorted (before (comparator sortBy)) (sortSegments segments sortBy) /\
    (sortBy <> "importance"%string -> sortBy <> "duration"%string ->
     sortBy <> "chronological"%string ->
     sortSegments segments sortBy = sortSegments segments "order") /\
    (StronglySorted (fun a b => (index a <= index b)%nat) segments ->
     sortSegments segments "order" = segments).
Proof.
  intros segments sortBy. repeat split.
  - apply sort_perm.
  - apply sort_sorted; [apply comparator_total | apply comparator_trans].
  - intros H1 H2 H3. unfold sortSegments, comparator.
    apply String.eqb_neq in H1, H2, H3. now rewrite H1, H2, H3.
  - intros H. apply sort_sorted_id.
    eapply StronglySorted_weaken; [|exact H].
    intros a b Hab. cbv beta in Hab. unfold before.
    change (comparator "order") with byIndex.
    unfold byIndex. change 0 with (inject_Z 0). rewrite <- Zle_Qle. lia.
Qed.

Lemma sortSegments_sorted_permutation_witness :
  sortSegments [clip 1 10; clip 2 20] "order" = [clip 1 10; clip 2 20].
Proof.
  apply (proj2 (proj2 (proj2
           (sortSegments_sorted_permutation [clip 1 10; clip 2 20] "order")))).
  repeat constructor; simpl; lia.
Defined.

End ComposerPlanFacts.

(** ** What the cleanup routines remove, and what they report *)

Section CleanupMoreFacts.

Import VideoSummarizer.










Lemma fold_delete_size (l : list (string * Fs.FileStat))
      (m : gmap string Fs.FileStat) :
  List.NoDup (List.map fst l) ->
  (forall k, List.In k (List.map fst l) -> is_Some (m !! k)) ->
  (size (List.fold_left (fun m entry => delete (fst entry) m) l m)
   + List.length l = size m)%nat.
Proof.
  revert m. induction l as [|[k st] l IH]; intros m Hnd Hin; simpl in *.
  - lia.
  - inversion Hnd as [|? ? Hk Hnd']; subst.
    destruct (Hin k (or_introl eq_refl)) as [v Hv].
    assert (Hin' : forall k', List.In k' (List.map fst l) ->
                              is_Some (delete k m !! k')).
    { intros k' Hk'. rewrite lookup_delete_ne; [apply Hin; now right|].
      intros ->. contradiction. }
    pose proof (IH (delete k m) Hnd' Hin') as H.
    rewrite map_size_delete, Hv in H.
    assert (0 < size m)%nat.
    { destruct (size m) eqn:E; [|lia].
      apply map_size_empty_iff in E. subst. now rewrite lookup_empty in Hv. }
    lia.
Qed.

Lemma NoDup_map_fst_filter {A B} (f : A * B -> bool) (l : list (A * B)) :
  List.NoDup (List.map fst l) -> List.NoDup (List.map fst (List.filter f l)).
Proof.
  induction l as [|x l IH]; simpl; intros H; [constructor|].
  inversion H as [|? ? Hx Hl]; subst.
  destruct (f x); simpl; [|now apply IH].
  constructor; [|now apply IH].
  intros Hin. apply Hx. apply in_map_iff in Hin as (y & Hy & Hin).
  apply filter_In in Hin as [Hin _]. apply in_map_iff. now exists y.
Qed.

(** X18.  [cleanupTempFiles] removes exactly the temp files whose
    modification time is before the cutoff ([maxAgeHours], 24 when not
    given, before now) and reports their number: the files reported removed
    and the files left add up to the files that were there, a file is left
    exactly when it is not older than the cutoff, and the other directories
    are not touched. *)
Theorem cleanupTempFiles_removes_old_files_only :
  forall (maxAgeHours : option Z) (now : Z) (fs : Fs.FileSystem),
    let cutoff := (now - default 24 maxAgeHours * 60 * 60 * 1000)%Z in
    let fs' := fst (FileManager.cleanupTempFiles maxAgeHours now fs) in
    let report := snd (FileManager.cleanupTempFiles maxAgeHours now fs) in
    (filesRemoved report + size (Fs.temp fs') = size (Fs.temp fs))%nat /\
    (forall name stat,
        Fs.temp fs' !! name = Some stat <->
        Fs.temp fs !! name = Some stat /\ (cutoff <= Fs.mtime stat)%Z) /\
    Fs.output fs' = Fs.output fs /\
    Fs.segments fs' = Fs.segments fs /\
    Fs.thumbnails fs' = Fs.thumbnails fs /\
    tc_success report = true.
Proof.
  intros maxAgeHours now fs cutoff fs' report.
  split; [|split; [|now repeat split]].
  - subst fs' report. unfold FileManager.cleanupTempFiles. simpl.
    fold cutoff.
    set (cleaned := List.filter _ _).
    pose proof (fold_delete_size cleaned (Fs.temp fs)) as H.
    rewrite Nat.add_comm. apply H.
    + apply NoDup_map_fst_filter. apply NoDup_ListNoDup.
      apply NoDup_fst_map_to_list.
    + intros k Hk. apply in_map_iff in Hk as ([k' st] & <- & Hin).
      apply filter_In in Hin as [Hin _].
      apply list_elem_of_In, elem_of_map_to_list in Hin. simpl. eauto.
  - intros name stat. subst fs'. rewrite cleanupTempFiles_lookup. fold cutoff.
    destruct (Fs.temp fs !! name) as [st|].
    + destruct (Z.ltb (Fs.mtime st) cutoff) eqn:E.
      * apply Z.ltb_lt in E. split; [discriminate|].
        intros [[= <-] H]. lia.
      * apply Z.ltb_ge in E. split.
        -- intros [= <-]. now split.
        -- now intros [H _].
    + split; [discriminate|]. now intros [H _].
Qed.

End CleanupMoreFacts.

(** ** The stage routes and the job log *)

Section RouteFacts.

Import JobLog Server.

Lemma extends_refl job w : extends job w w.
Proof.
  split; [reflexivity|]. exists []. split; [now rewrite app_nil_r|constructor].
Qed.

Lemma extends_log job kind d w w' :
  extends job w w' -> extends job w (logActivity job kind d w').
Proof.
  intros (Hc & events & Hl & Hall). split; [exact Hc|].
  exists (events ++ [ {| timestamp := clock w'; jobId := job;
                         activity := kind; details := d |} ]).
  simpl. rewrite Hl, app_assoc. split; [reflexivity|].
  apply Forall_app. split; [exact Hall|].
  constructor; [|constructor]. simpl. now split.
Qed.

Lemma extends_withFs job w w' fs' :
  extends job w w' -> extends job w (withFs w' fs').
Proof. intros H. exact H. Qed.

Variable transcribeAudio :
  Fs.FileSystem -> Fs.Path -> string -> option string ->
  Js.Outcome Error TranscriptionService.WhisperResult.
Variable generateContent :
  Fs.FileSystem -> Fs.Path -> MomentAnalyzer.Transcription -> option string.
Variable jsonDecode : string -> option MomentAnalyzer.Analysis.
Variable produceSummary :
  Fs.FileSystem -> option Fs.Path -> list Moment -> SummaryOptions -> string ->
  Fs.FileSystem * Js.Outcome Error SummaryResult.

Lemma transcribe_extends job req w :
  extends job w (fst (transcribe transcribeAudio job req w)).
Proof.
  unfold transcribe.
  destruct (transcribePrerequisite _) as [audioLog|]; [|apply extends_refl].
  destruct (audioFileOf _) as [audioFile|]; [|apply extends_refl].
  destruct (negb _); [apply extends_refl|].
  destruct (transcribeAudio _ _ _ _); simpl;
    repeat apply extends_log; apply extends_refl.
Qed.

Lemma analyzeMoments_extends job w :
  extends job w (fst (analyzeMoments generateContent jsonDecode job w)).
Proof.
  unfold analyzeMoments, analyzePrerequisites.
  destruct (Js.find (hasActivity "transcription_completed") _)
    as [transcriptionLog|]; [|apply extends_refl].
  destruct (Js.find (hasActivity "audio_extraction_completed") _)
    as [audioLog|]; [|apply extends_refl].
  destruct (Js.find (hasActivity "processing_started") _)
    as [processingLog|]; [|apply extends_refl].
  destruct (processingFileOf _) as [processingFile|];
    [|simpl; apply extends_log, extends_refl].
  destruct (negb _); [apply extends_refl|].
  destruct (transcriptionOf _); simpl;
    repeat apply extends_log; apply extends_refl.
Qed.

Lemma createSummary_extends job options w :
  extends job w (fst (createSummary produceSummary job options w)).
Proof.
  unfold createSummary.
  destruct (summaryPrerequisites _) as [[momentLog processingLog]|];
    [|apply extends_refl].
  destruct (processingFileOf _) as [processingFile|];
    [|simpl; apply extends_log, extends_refl].
  destruct (negb _); [apply extends_refl|].
  destruct (Nat.eqb _ 0); [apply extends_refl|].
  destruct (VideoSummarizer.createVideoSummary _ _ _ _ _ _) as [fs' [r|e]];
    simpl; apply extends_log, extends_withFs, extends_log, extends_refl.
Qed.

Lemma quickSummary_extends job w :
  extends job w (fst (quickSummary produceSummary job w)).
Proof.
  unfold quickSummary.
  destruct (summaryPrerequisites _) as [[momentLog processingLog]|];
    [|apply extends_refl].
  destruct (processingFileOf _) as [processingFile|]; [|apply extends_refl].
  destruct (VideoSummarizer.createQuickSummary _ _ _ _ _) as [fs' [r|e]];
    simpl.
  - apply extends_log, extends_withFs, extends_refl.
  - apply extends_withFs, extends_refl.
Qed.

Lemma getSummary_unchanged job w : fst (getSummary job w) = w.
Proof.
  unfold getSummary.
  destruct (summaryPrerequisite _) as [summaryLog|]; [|reflexivity].
  now destruct (summaryDataOf _).
Qed.

Lemma cleanup_extends job w : extends job w (fst (cleanup job w)).
Proof.
  unfold cleanup.
  destruct (VideoSummarizer.cleanupJob job (fs w)) as [fs1 r1].
  destruct (FileManager.cleanupTempFiles _ _ fs1) as [fs2 r2]. simpl.
  apply extends_log, extends_withFs, extends_refl.
Qed.

Lemma handle_extends request w :
  extends (jobOf request) w
    (fst (handle transcribeAudio generateContent jsonDecode produceSummary
            request w)).
Proof.
  destruct request; simpl.
  - apply transcribe_extends.
  - apply analyzeMoments_extends.
  - apply createSummary_extends.
  - apply quickSummary_extends.
  - rewrite getSummary_unchanged. apply extends_refl.
  - apply cleanup_extends.
Qed.

Lemma extends_other_job job job' w w' :
  extends job w w' -> job' <> job -> getJobLogs job' w' = getJobLogs job' w.
Proof.
  intros (_ & events & Hl & Hall) Hne. unfold getJobLogs.
  rewrite Hl, List.filter_app.
  assert (E : List.filter (fun log => String.eqb (jobId log) job') events = []).
  { clear Hl. induction Hall as [|e events [He _] _ IH]; simpl; [reflexivity|].
    rewrite He. apply not_eq_sym, String.eqb_neq in Hne. now rewrite Hne. }
  rewrite E. apply app_nil_r.
Qed.

(** X19.  Every stage route only appends to the log, and only events of
    its own job stamped with the current clock; the clock does not move.
    So a request for one job never changes what the log holds for another
    job. *)
Theorem routes_append_own_events :
  forall (request : Request) (w : World),
    let w' :=
      fst (handle transcribeAudio generateContent jsonDecode produceSummary
             request w) in
    extends (jobOf request) w w' /\
    forall job', job' <> jobOf request ->
                 getJobLogs job' w' = getJobLogs job' w.
Proof.
  intros request w w'. split; [apply handle_extends|].
  intros job' Hne. eapply extends_other_job; [apply handle_extends|exact Hne].
Qed.

Lemma find_nil_none {B} (p : B -> bool) : Js.find p [] = None.
Proof. reflexivity. Qed.

(** X20.  For a job the log knows nothing about, every stage route other
    than the cleanup answers 404 and leaves the files and the log as they
    were. *)
Theorem unknown_job_is_not_found :
  forall (request : Request) (w : World),
    getJobLogs (jobOf request) w = [] ->
    isCleanup request = false ->
    let result :=
      handle transcribeAudio generateContent jsonDecode produceSummary
        request w in
    fst result = w /\ status (snd result) = 404%nat.
Proof.
  intros request w Hlogs Hc.
  destruct request; simpl in *; try discriminate.
  - unfold transcribe, transcribePrerequisite. rewrite Hlogs. now split.
  - unfold analyzeMoments, analyzePrerequisites. rewrite Hlogs. now split.
  - unfold createSummary, summaryPrerequisites. rewrite Hlogs. now split.
  - unfold quickSummary, summaryPrerequisites. rewrite Hlogs. now split.
  - unfold getSummary, summaryPrerequisite. rewrite Hlogs. now split.
Qed.

Lemma find_app_none {B} (p : B -> bool) l l' :
  Js.find p l = None -> Js.find p (l ++ l') = Js.find p l'.
Proof.
  unfold Js.find. induction l as [|x l IH]; simpl; [reflexivity|].
  destruct (p x); [discriminate|exact IH].
Qed.

Lemma createSummary_ok job options w w' summary :
  createSummary produceSummary job options w
  = (w', {| status := 200; body := SummaryBody job summary |}) ->
  exists fs' d,
    w' = logActivity job "video_summarization_completed" (ResultDetails summary)
           (withFs (logActivity job "video_summarization_started" d w) fs').
Proof.
  unfold createSummary.
  destruct (summaryPrerequisites _) as [[momentLog processingLog]|];
    [|discriminate].
  destruct (processingFileOf _) as [processingFile|]; [|discriminate].
  destruct (negb _); [discriminate|].
  destruct (Nat.eqb _ 0); [discriminate|].
  destruct (VideoSummarizer.createVideoSummary _ _ _ _ _ _) as [fs' [r|e]];
    [|discriminate].
  intros [= <- <-]. eauto.
Qed.

Lemma quickSummary_ok job w w' summary :
  quickSummary produceSummary job w
  = (w', {| status := 200; body := SummaryBody job summary |}) ->
  exists fs',
    w' = logActivity job "quick_summary_completed" (ResultDetails summary)
           (withFs w fs').
Proof.
  unfold quickSummary.
  destruct (summaryPrerequisites _) as [[momentLog processingLog]|];
    [|discriminate].
  destruct (processingFileOf _) as [processingFile|]; [|discriminate].
  destruct (VideoSummarizer.createQuickSummary _ _ _ _ _) as [fs' [r|e]];
    [|discriminate].
  intros [= <- <-]. eauto.
Qed.

(** X21.  A summary that one of the two summary routes has just produced
    can be fetched: when the job had no summary event before, a 200 answer
    of create-summary or quick-summary is followed by a 200 answer of the
    summary route that carries the same summary, stamped with the time of
    the request that produced it. *)
Theorem produced_summary_can_be_fetched :
  forall (request : Request) (job : string) (w w' : World)
         (summary : SummaryResult),
    (request = PostQuickSummary job \/
     exists options, request = PostCreateSummary job options) ->
    summaryPrerequisite (getJobLogs job w) = None ->
    handle transcribeAudio generateContent jsonDecode produceSummary request w
    = (w', {| status := 200; body := SummaryBody job summary |}) ->
    getSummary job w'
    = (w', {| status := 200;
              body := StoredSummaryBody job summary (clock w) |}).
Proof.
  intros request job w w' summary Hr Hnone Hrun.
  unfold summaryPrerequisite in Hnone.
  destruct Hr as [-> | [options ->]]; simpl in Hrun.
  - apply quickSummary_ok in Hrun as (fs' & ->).
    unfold getSummary, summaryPrerequisite.
    rewrite getJobLogs_logActivity, String.eqb_refl.
    change (getJobLogs job (withFs w fs')) with (getJobLogs job w).
    rewrite (find_app_none _ _ _ Hnone). reflexivity.
  - apply createSummary_ok in Hrun as (fs' & d & ->).
    unfold getSummary, summaryPrerequisite.
    rewrite getJobLogs_logActivity, String.eqb_refl.
    change (getJobLogs job (withFs (logActivity job "video_summarization_started" d w) fs'))
      with (getJobLogs job (logActivity job "video_summarization_started" d w)).
    rewrite getJobLogs_logActivity, String.eqb_refl, <- app_assoc.
    rewrite (find_app_none _ _ _ Hnone). reflexivity.
Qed.

Lemma analyzeMoments_ok job w w' response :
  analyzeMoments generateContent jsonDecode job w = (w', response) ->
  status response = 200%nat ->
  exists processingLog processingFile stored videoPath,
    Js.find (hasActivity "processing_started") (getJobLogs job w)
    = Some processingLog /\
    processingFileOf (details processingLog) = Some processingFile /\
    Fs.existsSync (fs w) (Fs.TempPath processingFile) = true /\
    let transcription := TranscriptionService.asAnalyzerInput stored in
    let result :=
      MomentAnalyzer.analyzeKeyMoments jsonDecode
        (generateContent (fs w) videoPath transcription) transcription in
    response = {| status := 200; body := AnalysisBody job result |} /\
    w' = logActivity job "moment_analysis_completed"
           (MomentAnalysisCompleted result)
           (logActivity job "moment_analysis_started"
              (MomentAnalysisStarted videoPath) w).
Proof.
  unfold analyzeMoments, analyzePrerequisites.
  destruct (Js.find (hasActivity "transcription_completed") _)
    as [transcriptionLog|]; [|intros [= <- <-]; discriminate].
  destruct (Js.find (hasActivity "audio_extraction_completed") _)
    as [audioLog|]; [|intros [= <- <-]; discriminate].
  destruct (Js.find (hasActivity "processing_started") _)
    as [processingLog|]; [|intros [= <- <-]; discriminate].
  destruct (processingFileOf _) as [processingFile|] eqn:Ef;
    [|intros [= <- <-]; discriminate].
  destruct (Fs.existsSync _ _) eqn:Ex; simpl;
    [|intros [= <- <-]; discriminate].
  destruct (transcriptionOf _) as [stored|];
    [|intros [= <- <-]; discriminate].
  intros [= <- <-] _.
  exists processingLog, processingFile, stored, (Fs.TempPath processingFile).
  repeat split; auto.
Qed.

(** X22.  When the reply of the model cannot be decoded, or the model
    gives none, the analysis stage still answers 200, with an empty moment
    list; create-summary for the job then answers 400, 'No moments
    available for summarization', and changes nothing. *)
Theorem undecoded_reply_leaves_nothing_to_summarise :
  forall (job : string) (options : SummaryOptions) (w w' : World)
         (response : Response),
    (forall text, jsonDecode text = None) ->
    Js.find (hasActivity "moment_analysis_completed") (getJobLogs job w)
    = None ->
    analyzeMoments generateContent jsonDecode job w = (w', response) ->
    status response = 200%nat ->
    (exists result,
        body response = AnalysisBody job result /\
        MomentAnalyzer.keyMoments (MomentAnalyzer.analysis result) = Some []) /\
    createSummary produceSummary job options w'
    = (w', {| status := 400;
              body := ErrorBody "No moments available for summarization"
                        None |}).
Proof.
  intros job options w w' response Hdec Hnone Hrun Hok.
  apply analyzeMoments_ok in Hrun; [|exact Hok].
  destruct Hrun as (processingLog & processingFile & stored & videoPath
                    & Hp & Hf & Hx & Hrun).
  cbv zeta in Hrun. destruct Hrun as [-> ->].
  set (transcription := TranscriptionService.asAnalyzerInput stored).
  set (result := MomentAnalyzer.analyzeKeyMoments _ _ _).
  assert (Hempty : MomentAnalyzer.keyMoments (MomentAnalyzer.analysis result)
                   = Some []).
  { subst result. unfold MomentAnalyzer.analyzeKeyMoments.
    destruct (generateContent _ _ _) as [text|]; [|reflexivity].
    unfold MomentAnalyzer.parseGeminiResponse. rewrite Hdec. reflexivity. }
  split; [exists result; now split|].
  unfold createSummary, summaryPrerequisites.
  rewrite !getJobLogs_logActivity, !String.eqb_refl, <- app_assoc.
  rewrite (find_app_none _ _ _ Hnone).
  rewrite (find_app_some _ _ _ _ Hp).
  cbn [Js.find List.find app hasActivity activity String.eqb Ascii.eqb
       Bool.eqb details].
  rewrite Hf. cbn [keyMomentsOf]. rewrite Hempty.
  cbn [fs logActivity]. rewrite Hx. reflexivity.
Qed.

End RouteFacts.

Section RouteExamples.

Import JobLog Server.

Lemma routes_append_own_events_witness :
  getJobLogs "job1"
    (fst (handle echoTranscriber (fun _ _ _ => None) (fun _ => None)
            failingTool (PostCleanup "job2") analysedWorld))
  = getJobLogs "job1" analysedWorld.
Proof.
  apply (proj2 (routes_append_own_events echoTranscriber (fun _ _ _ => None)
                  (fun _ => None) failingTool (PostCleanup "job2")
                  analysedWorld)).
  discriminate.
Defined.

Lemma unknown_job_is_not_found_witness :
  fst (handle echoTranscriber (fun _ _ _ => None) (fun _ => None)
         failingTool (GetSummary "job9") analysedWorld) = analysedWorld /\
  status (snd (handle echoTranscriber (fun _ _ _ => None) (fun _ => None)
                 failingTool (GetSummary "job9") analysedWorld)) = 404%nat.
Proof.
  apply (unknown_job_is_not_found echoTranscriber (fun _ _ _ => None)
           (fun _ => None) failingTool (GetSummary "job9") analysedWorld);
    reflexivity.
Defined.

Lemma produced_summary_can_be_fetched_witness :
  let run :=
    handle echoTranscriber (fun _ _ _ => None) (fun _ => None) workingTool
      (PostCreateSummary "job1" plainOptions) analysedWorld in
  getSummary "job1" (fst run)
  = (fst run, {| status := 200;
                 body := StoredSummaryBody "job1" producedSummary 3 |}).
Proof.
  apply (produced_summary_can_be_fetched echoTranscriber (fun _ _ _ => None)
           (fun _ => None) workingTool
           (PostCreateSummary "job1" plainOptions) "job1" analysedWorld).
  - right. exists plainOptions. reflexivity.
  - reflexivity.
  - reflexivity.
Defined.

Lemma undecoded_reply_leaves_nothing_to_summarise_witness :
  let run :=
    analyzeMoments (fun _ _ _ => Some "no json here"%string) (fun _ => None)
      "job1" transcribedWorld in
  (exists result,
      body (snd run) = AnalysisBody "job1" result /\
      MomentAnalyzer.keyMoments (MomentAnalyzer.analysis result) = Some []) /\
  createSummary workingTool "job1" plainOptions (fst run)
  = (fst run, {| status := 400;
                 body := ErrorBody "No moments available for summarization"
                           None |}).
Proof.
  apply (undecoded_reply_leaves_nothing_to_summarise
           (fun _ _ _ => Some "no json here"%string) (fun _ => None)
           workingTool "job1" plainOptions transcribedWorld).
  - reflexivity.
  - reflexivity.
  - reflexivity.
  - reflexivity.
Defined.

End RouteExamples.

(** ** The quality measures of a transcription *)

Section TranscriptionQualityFacts.

Import TranscriptionService TranscriptionQuality.

Lemma fold_zero_scores (segments : list WhisperSegment) :
  Forall (fun s => Js.orQ (avg_logprob s) 0 == 0) segments ->
  List.fold_left (fun sum score => sum + score)
    (List.map (fun s => Js.orQ (avg_logprob s) 0) segments) 0 == 0.
Proof.
  assert (G : forall a, Forall (fun s => Js.orQ (avg_logprob s) 0 == 0) segments ->
              List.fold_left (fun sum score => sum + score)
                (List.map (fun s => Js.orQ (avg_logprob s) 0) segments) a == a).
  { induction segments as [|s l IH]; intros a H; simpl; [reflexivity|].
    inversion H as [|? ? Hs Hl]; subst. rewrite IH by exact Hl. lra. }
  apply G.
Qed.

Lemma clamp_range x : 0 <= Qmax 0 (Qmin 100 x) /\ Qmax 0 (Qmin 100 x) <= 100.
Proof.
  split; [apply Q.le_max_l|].
  apply Q.max_lub; [lra | apply Q.le_min_l].
Qed.

(** X23.  The average confidence always lies between 0 and 100; it is 0
    when there are no segments, but 100 when there are segments and none of
    them carries a log probability other than zero: a missing
    [avg_logprob] counts as full confidence. *)
Theorem calculateAverageConfidence_range :
  forall (segments : option (list WhisperSegment)),
    0 <= calculateAverageConfidence segments /\
    calculateAverageConfidence segments <= 100 /\
    (default [] segments = [] -> calculateAverageConfidence segments = 0) /\
    (default [] segments <> [] ->
     Forall (fun s => Js.orQ (avg_logprob s) 0 == 0) (default [] segments) ->
     calculateAverageConfidence segments == 100).
Proof.
  intros [segments|]; simpl.
  - destruct segments as [|s l].
    + simpl. repeat split; try lra; try reflexivity. now intros H.
    + unfold calculateAverageConfidence.
      change (Nat.eqb (List.length (s :: l)) 0) with false. cbv iota zeta.
      rewrite length_map.
      change (Nat.eqb (List.length (s :: l)) 0) with false. cbv iota.
      set (x := (_ / _ + 1) * 100).
      destruct (clamp_range x) as [H0 H1].
      split; [exact H0|]. split; [exact H1|]. split; [discriminate|].
      intros _ Hall. subst x. rewrite (fold_zero_scores _ Hall).
      assert (E : (0 / inject_Z (Z.of_nat (List.length (s :: l))) + 1) * 100
                  == 100).
      { unfold Qdiv. rewrite Qmult_0_l. reflexivity. }
      rewrite E. reflexivity.
  - repeat split; try lra; try reflexivity. now intros H.
Qed.

Lemma calculateAverageConfidence_range_witness :
  calculateAverageConfidence (Some [unscoredSegment]) == 100.
Proof.
  apply (proj2 (proj2 (proj2
           (calculateAverageConfidence_range (Some [unscoredSegment]))))).
  - discriminate.
  - constructor; [reflexivity | constructor].
Defined.

Lemma orQ_self c : Js.orQ (Some c) 0 == c.
Proof.
  unfold Js.orQ. destruct (Js.truthyQ c) eqn:E; [reflexivity|].
  unfold Js.truthyQ in E. apply negb_false_iff, Qeq_bool_iff in E.
  now rewrite E.
Qed.

Lemma base_score_range (t : Transcript) :
  let base := Qmin 50 (Js.orQ (Some (tr_confidence t)) 0) in
  base <= 50 /\ (0 <= tr_confidence t -> 0 <= base) /\
  (30 <= tr_confidence t -> 30 <= base).
Proof.
  cbv zeta. pose proof (orQ_self (tr_confidence t)) as E.
  set (c := Js.orQ _ _) in *.
  split; [apply Q.le_min_l|].
  split; intros H; apply Q.min_glb; lra.
Qed.

(** X24.  A transcription is reported valid exactly when its text has at
    least ten characters and its confidence is at least 30.  The quality
    score never exceeds 100, is not negative when the confidence is not,
    and is at least 30 for a valid transcription. *)
Theorem validateTranscription_valid_iff :
  forall (transcription : Transcript),
    let report := validateTranscription transcription in
    (valid report = true <->
     (10 <= String.length (tr_text transcription))%nat /\
     30 <= tr_confidence transcription) /\
    qualityScore report <= 100 /\
    (0 <= tr_confidence transcription -> 0 <= qualityScore report) /\
    (valid report = true -> 30 <= qualityScore report).
Proof.
  intros transcription.
  assert (Hv : valid (validateTranscription transcription) = true <->
               (10 <= String.length (tr_text transcription))%nat /\
               30 <= tr_confidence transcription).
  { unfold validateTranscription. cbn [valid].
    destruct (Nat.ltb _ 10) eqn:E1; destruct (Js.Qltb _ 30) eqn:E2; simpl.
    - apply Nat.ltb_lt in E1. split; [discriminate|]. intros [H _]. lia.
    - apply Nat.ltb_lt in E1. split; [discriminate|]. intros [H _]. lia.
    - apply Qltb_lt in E2. split; [discriminate|]. intros [_ H]. lra.
    - apply Nat.ltb_ge in E1. apply Qltb_ge in E2. split; auto. }
  assert (Hs : forall lo, 0 <= lo -> lo <= 50 ->
               lo <= Qmin 50 (Js.orQ (Some (tr_confidence transcription)) 0) ->
               lo <= calculateQualityScore transcription).
  { intros lo H0 H50 Hb. unfold calculateQualityScore.
    set (base := Qmin 50 _) in *.
    assert (Hb' : lo <= 0 + base) by lra.
    set (s0 := 0 + base) in *.
    assert (H1 : lo <= if Z.ltb 50 (Z.of_nat (String.length (tr_text transcription)))
                          && Z.ltb (Z.of_nat (String.length (tr_text transcription))) 10000
                       then s0 + 20 else s0) by (destruct (_ && _); lra).
    set (s1 := if _ && _ then _ else _) in *.
    assert (H2 : lo <= if nonEmpty (tr_words transcription) then s1 + 15 else s1)
      by (destruct (nonEmpty _); lra).
    set (s2 := if nonEmpty _ then _ else _) in *.
    assert (H3 : lo <= match tr_segments transcription with
                       | Some segments =>
                           if Nat.ltb 1 (List.length segments)
                           then s2 + 15 else s2
                       | None => s2
                       end).
    { destruct (tr_segments transcription) as [segs|]; [|exact H2].
      destruct (Nat.ltb 1 _); lra. }
    apply Q.min_glb; lra. }
  destruct (base_score_range transcription) as (Hb50 & Hb0 & Hb30).
  cbv zeta in Hb50, Hb0, Hb30.
  cbv zeta. split; [exact Hv|]. split; [|split].
  - unfold validateTranscription, calculateQualityScore. cbn [qualityScore].
    apply Q.le_min_l.
  - intros H. apply (Hs 0); [lra | lra | now apply Hb0].
  - intros H. apply Hv in H as [_ H]. apply (Hs 30); [lra | lra | now apply Hb30].
Qed.

Lemma validateTranscription_valid_iff_witness :
  30 <= qualityScore (validateTranscription clearTranscript).
Proof.
  apply (proj2 (proj2 (proj2 (validateTranscription_valid_iff clearTranscript)))).
  reflexivity.
Defined.

End TranscriptionQualityFacts.

(** ** The clips of a job *)

Section SegmenterFacts.

Import VideoComposer Segmenter.

Lemma plainChar_facts c :
  plainChar c = true ->
  isSpecial c = false /\ TranscriptionService.isSpace c = false /\
  Str.lowerAscii c = c.
Proof.
  destruct c as [[] [] [] [] [] [] [] []]; vm_compute; intros H;
    try discriminate; repeat split.
Qed.

Lemma lowered_plain c :
  isSpecial c = false -> TranscriptionService.isSpace c = false ->
  plainChar (Str.lowerAscii c) = true.
Proof.
  destruct c as [[] [] [] [] [] [] [] []]; vm_compute; intros H1 H2;
    try discriminate; reflexivity.
Qed.

Lemma removeSpecial_clean s :
  allChars (fun c => negb (isSpecial c)) (removeSpecial s) = true.
Proof.
  induction s as [|c s IH]; simpl; [reflexivity|].
  destruct (isSpecial c) eqn:E; simpl; [exact IH|]. now rewrite E.
Qed.

Lemma replaceSpaces_clean s :
  allChars (fun c => negb (isSpecial c)) s = true ->
  allChars (fun c => negb (isSpecial c) && negb (TranscriptionService.isSpace c))
           (replaceSpaces s) = true.
Proof.
  induction s as [|c s IH]; simpl; [reflexivity|].
  intros H. apply andb_true_iff in H as [Hc Hs]. specialize (IH Hs).
  destruct (TranscriptionService.isSpace c) eqn:E.
  - destruct s as [|c' s']; [reflexivity|].
    destruct (TranscriptionService.isSpace c'); [exact IH|].
    change (allChars _ (String "_" ?r)) with
      (allChars (fun c => negb (isSpecial c)
                          && negb (TranscriptionService.isSpace c)) r).
    exact IH.
  - simpl. now rewrite Hc, E.
Qed.

Lemma substring_clean p n s :
  allChars p s = true -> allChars p (String.substring 0 n s) = true.
Proof.
  revert s. induction n as [|n IH]; intros s H.
  - now destruct s.
  - destruct s as [|c s]; [reflexivity|]. simpl in *.
    apply andb_true_iff in H as [Hc Hs]. now rewrite Hc, IH.
Qed.

Lemma substring_length n s : (String.length (String.substring 0 n s) <= n)%nat.
Proof.
  revert s. induction n as [|n IH]; intros s.
  - now destruct s.
  - destruct s as [|c s]; simpl; [lia|]. specialize (IH s). lia.
Qed.

Lemma substring_all n s :
  (String.length s <= n)%nat -> String.substring 0 n s = s.
Proof.
  revert s. induction n as [|n IH]; intros s H.
  - destruct s; [reflexivity|simpl in H; lia].
  - destruct s as [|c s]; [reflexivity|]. simpl in *. rewrite IH; [reflexivity|lia].
Qed.

Lemma toLowerCase_length s : String.length (Str.toLowerCase s) = String.length s.
Proof. induction s as [|c s IH]; simpl; [reflexivity|now rewrite IH]. Qed.

Lemma toLowerCase_plain s :
  allChars (fun c => negb (isSpecial c) && negb (TranscriptionService.isSpace c))
           s = true ->
  allChars plainChar (Str.toLowerCase s) = true.
Proof.
  induction s as [|c s IH]; simpl; [reflexivity|].
  intros H. apply andb_true_iff in H as [Hc Hs].
  apply andb_true_iff in Hc as [H1 H2].
  apply negb_true_iff in H1, H2.
  now rewrite lowered_plain, IH.
Qed.

Lemma plain_fixed s :
  allChars plainChar s = true ->
  removeSpecial s = s /\ replaceSpaces s = s /\ Str.toLowerCase s = s.
Proof.
  induction s as [|c s IH]; simpl; [now repeat split|].
  intros H. apply andb_true_iff in H as [Hc Hs].
  destruct (IH Hs) as (I1 & I2 & I3).
  destruct (plainChar_facts c Hc) as (F1 & F2 & F3).
  rewrite F1, F2, F3, I1, I2, I3. now repeat split.
Qed.

(** X25.  A sanitized file name has at most fifty characters, each of them
    a lower-case letter, a digit, a hyphen or an underscore, and
    sanitizing it again changes nothing. *)
Theorem sanitizeFilename_safe :
  forall (filename : string),
    let safe := sanitizeFilename filename in
    (String.length safe <= 50)%nat /\
    allChars plainChar safe = true /\
    sanitizeFilename safe = safe.
Proof.
  intros filename safe.
  assert (Hlen : (String.length safe <= 50)%nat).
  { subst safe. unfold sanitizeFilename. rewrite toLowerCase_length.
    apply substring_length. }
  assert (Hplain : allChars plainChar safe = true).
  { subst safe. unfold sanitizeFilename.
    apply toLowerCase_plain, substring_clean, replaceSpaces_clean,
      removeSpecial_clean. }
  split; [exact Hlen|]. split; [exact Hplain|].
  destruct (plain_fixed safe Hplain) as (F1 & F2 & F3).
  unfold sanitizeFilename at 1.
  rewrite F1, F2, (substring_all 50 safe Hlen). exact F3.
Qed.

Section ExtractFacts.

Variable ffmpeg :
  Fs.FileSystem -> Fs.Path -> Q -> Q -> string -> string ->
  Fs.FileSystem * Js.Outcome Error nat.

Lemma extractSingleMoment_ok videoPath m i job fs fs' seg :
  extractSingleMoment ffmpeg videoPath m i job fs = (fs', Js.Ok seg) ->
  clipOf i m seg.
Proof.
  unfold extractSingleMoment.
  destruct (ffmpeg _ _ _ _ _ _) as [fs1 [size|e]]; [|discriminate].
  intros [= _ <-]. now repeat split.
Qed.

Lemma extractFrom_ok videoPath moments :
  forall i job fs fs' segs,
    extractFrom ffmpeg videoPath moments i job fs = (fs', Js.Ok segs) ->
    List.length segs = List.length moments /\
    (forall k m, moments !! k = Some m ->
                 exists seg, segs !! k = Some seg /\ clipOf (i + k) m seg) /\
    Forall (fun seg => (i < index seg)%nat) segs /\
    StronglySorted (fun a b => (index a <= index b)%nat) segs.
Proof.
  induction moments as [|m rest IH]; intros i job fs fs' segs; simpl.
  - intros [= _ <-]. repeat split; try constructor.
    intros k m H. now rewrite lookup_nil in H.
  - destruct (extractSingleMoment _ _ _ _ _ _) as [fs1 [seg|e]] eqn:E1;
      [|discriminate].
    destruct (extractFrom _ _ _ _ _ _) as [fs2 [segs'|e]] eqn:E2;
      [|discriminate].
    intros [= _ <-].
    apply extractSingleMoment_ok in E1.
    apply IH in E2 as (Hl & Hk & Hi & Hs).
    pose proof E1 as (Hidx & _).
    repeat split.
    + simpl. now rewrite Hl.
    + intros [|k] m' Hm; simpl in *.
      * injection Hm as <-. exists seg. rewrite Nat.add_0_r. now split.
      * destruct (Hk k m' Hm) as (seg' & Hseg & Hc).
        exists seg'. split; [exact Hseg|].
        now replace (i + S k)%nat with (S i + k)%nat by lia.
    + constructor; [lia|].
      eapply List.Forall_impl; [|exact Hi]. intros a Ha. simpl in Ha. lia.
    + constructor; [exact Hs|].
      eapply List.Forall_impl; [|exact Hi]. intros a Ha. simpl in Ha. lia.
Qed.

(** X26.  When [extractMomentClips] succeeds, the video exists, there is
    one clip for each moment, in the order of the moments, the clip of the
    [k]-th moment carries index [k + 1], the times, the title, the category
    and the importance of the moment and a duration of end minus start, and
    the default order of the composer leaves the clips where they are. *)
Theorem extractMomentClips_one_clip_per_moment :
  forall (videoPath : Fs.Path) (moments : list Moment) (job : string)
         (fs fs' : Fs.FileSystem) (clips : Clips),
    extractMomentClips ffmpeg videoPath moments job fs = (fs', Js.Ok clips) ->
    Fs.existsSync fs videoPath = true /\
    moments <> [] /\
    totalSegments clips = List.length moments /\
    (forall k m, moments !! k = Some m ->
                 exists seg, clipSegments clips !! k = Some seg /\
                             clipOf k m seg) /\
    ComposerPlan.sortSegments (clipSegments clips) "order" = clipSegments clips.
Proof.
  intros videoPath moments job fs fs' clips. unfold extractMomentClips.
  destruct (Fs.existsSync fs videoPath) eqn:Ex; simpl; [|discriminate].
  destruct (Nat.eqb (List.length moments) 0) eqn:En; [discriminate|].
  destruct (extractFrom _ _ _ _ _ _) as [fs1 [segs|e]] eqn:E; [|discriminate].
  intros [= _ <-]. simpl.
  apply extractFrom_ok in E as (Hl & Hk & _ & Hs).
  repeat split.
  - intros ->. discriminate.
  - exact Hl.
  - exact Hk.
  - apply sort_sorted_id.
    eapply StronglySorted_weaken; [|exact Hs].
    intros a b Hab. cbv beta in Hab. unfold before.
    change (ComposerPlan.comparator "order") with ComposerPlan.byIndex.
    unfold ComposerPlan.byIndex. change 0 with (inject_Z 0).
    rewrite <- Zle_Qle. lia.
Qed.

End ExtractFacts.





End SegmenterFacts.

Section SegmenterExamples.

Import VideoComposer Segmenter.

Lemma extractMomentClips_one_clip_per_moment_witness :
  exists clips,
    snd (extractMomentClips steadyFfmpeg (Fs.TempPath "proc-video.mp4")
           [detectedMoment] "job1" videoFs) = Js.Ok clips /\
    totalSegments clips = 1%nat /\
    ComposerPlan.sortSegments (clipSegments clips) "order" = clipSegments clips.
Proof.
  eexists. split; [reflexivity|].
  pose proof (extractMomentClips_one_clip_per_moment steadyFfmpeg
                (Fs.TempPath "proc-video.mp4") [detectedMoment] "job1" videoFs
                _ _ eq_refl) as (_ & _ & H1 & _ & H2).
  split; [exact H1 | exact H2].
Defined.


End SegmenterExamples.

(** ** The moments route, the general cleanup and the quick summary *)

Section MoreRouteFacts.

Import JobLog Server MoreRoutes.



Variable generateContent :
  Fs.FileSystem -> Fs.Path -> MomentAnalyzer.Transcription -> option string.
Variable jsonDecode : string -> option MomentAnalyzer.Analysis.
Variable produceSummary :
  Fs.FileSystem -> option Fs.Path -> list Moment -> SummaryOptions -> string ->
  Fs.FileSystem * Js.Outcome Error SummaryResult.

(** X29.  The moments that the analysis stage has just answered with can
    be fetched: when the job had no analysis event before, a 200 answer of
    analyze-moments is followed by an answer of the moments route that
    carries the same moment list, and the world is left as it is. *)
Theorem analysed_moments_can_be_fetched :
  forall (job : string) (w w' : World) (result : MomentAnalyzer.AnalysisResult),
    Js.find (hasActivity "moment_analysis_completed") (getJobLogs job w)
    = None ->
    analyzeMoments generateContent jsonDecode job w
    = (w', {| status := 200; body := AnalysisBody job result |}) ->
    exists view transcription,
      getMoments job w' = (w', MomentsFound job view transcription) /\
      mv_moments view
      = default [] (MomentAnalyzer.keyMoments (MomentAnalyzer.analysis result)).
Proof.
  intros job w w' result Hnone Hrun.
  apply analyzeMoments_ok in Hrun; [|reflexivity].
  destruct Hrun as (processingLog & processingFile & stored & videoPath
                    & _ & _ & _ & Hrun).
  cbv zeta in Hrun. destruct Hrun as [[= ->] ->].
  unfold getMoments.
  rewrite !getJobLogs_logActivity, !String.eqb_refl, <- app_assoc.
  rewrite (find_app_none _ _ _ Hnone).
  cbn [Js.find List.find app hasActivity activity String.eqb Ascii.eqb
       Bool.eqb details].
  do 2 eexists. split; reflexivity.
Qed.

(** X30.  Where create-summary answers 404 or 400 for a missing video or
    an empty moment list, quick-summary answers 500: it has neither check,
    so the summarizer is called and its input validation throws.  Neither
    route changes the files or the log. *)
Theorem quickSummary_reports_missing_input_as_failure :
  forall (job : string) (options : SummaryOptions) (w : World)
         (momentLog processingLog : StageEvent) (file : string),
    summaryPrerequisites (getJobLogs job w) = Some (momentLog, processingLog) ->
    processingFileOf (details processingLog) = Some file ->
    Fs.existsSync (fs w) (Fs.TempPath file) = false \/
    keyMomentsOf (details momentLog) = [] ->
    (exists message,
        createSummary produceSummary job options w
        = (w, {| status := if Fs.existsSync (fs w) (Fs.TempPath file)
                           then 400 else 404;
                 body := ErrorBody message None |})) /\
    (exists cause,
        quickSummary produceSummary job w
        = (w, {| status := 500;
                 body := ErrorBody "Quick summary failed"
                           (Some (SummarizationFailed cause)) |})).
Proof.
  intros job options w momentLog processingLog file Hpre Hfile Hmiss.
  split.
  - unfold createSummary. rewrite Hpre, Hfile.
    destruct (Fs.existsSync (fs w) (Fs.TempPath file)) eqn:Ex; simpl.
    + destruct Hmiss as [Hmiss|Hmiss]; [discriminate|].
      rewrite Hmiss. simpl. eauto.
    + eauto.
  - unfold quickSummary. rewrite Hpre, Hfile.
    unfold VideoSummarizer.createQuickSummary,
      VideoSummarizer.createVideoSummary.
    assert (Hv : exists cause,
               VideoSummarizer.validateInputs (fs w) (Some (Fs.TempPath file))
                 (List.map VideoSummarizer.untimed
                    (keyMomentsOf (details momentLog)))
               = Js.Throw cause).
    { unfold VideoSummarizer.validateInputs.
      destruct (Fs.existsSync (fs w) (Fs.TempPath file)) eqn:Ex.
      - destruct Hmiss as [Hmiss|Hmiss]; [discriminate|].
        rewrite Hmiss. simpl. eauto.
      - simpl. eauto. }
    destruct Hv as (cause & Hv). rewrite Hv. exists cause.
    unfold withFs. now destruct w.
Qed.

End MoreRouteFacts.

Section MoreRouteExamples.

Import JobLog Server MoreRoutes.

Lemma analysed_moments_can_be_fetched_witness :
  let run :=
    analyzeMoments (fun _ _ _ => Some "no json here"%string) (fun _ => None)
      "job1" transcribedWorld in
  exists view transcription,
    getMoments "job1" (fst run)
    = (fst run, MomentsFound "job1" view transcription) /\
    mv_moments view = [].
Proof.
  apply (analysed_moments_can_be_fetched
           (fun _ _ _ => Some "no json here"%string) (fun _ => None)
           "job1" transcribedWorld _ _ eq_refl eq_refl).
Defined.

Lemma quickSummary_reports_missing_input_as_failure_witness :
  exists cause,
    quickSummary workingTool "job1" lostVideoWorld
    = (lostVideoWorld,
       {| status := 500;
          body := ErrorBody "Quick summary failed"
                    (Some (SummarizationFailed cause)) |}).
Proof.
  apply (proj2 (quickSummary_reports_missing_input_as_failure workingTool
                  "job1" plainOptions lostVideoWorld _ _ "proc-video.mp4"
                  eq_refl eq_refl (or_introl eq_refl))).
Defined.

End MoreRouteExamples.
